(** * GAP profile plugin (profiles/gap/gas.c): a shallow embedding

  The plugin keeps one [struct gas] per probed device in the static list
  [devices], and is driven by the profile hooks (probe, remove, accept), by
  the attribute database notifications (service added, service removed) and
  by the completions of the two characteristic reads.

  The embedding follows the C text: bytes are [Byte.byte], unsigned
  integers are [N], pointers are addresses in [N] with [NULL = 0], the
  [struct gas] objects live in a heap indexed by address, and every call
  into a collaborator (logging, reference counting, the GATT client, the
  attribute database, the device registry) is recorded in a trace. *)

From Stdlib Require Import ZArith NArith List Bool Lia.
From Stdlib.Strings Require Import Byte.
From stdpp Require Import base tactics option list gmap.

Import ListNotations.
Local Open Scope N_scope.

(** ** C strings and the libc functions used by name2utf8

  A buffer is the list of its bytes; the string it holds ends before the
  first NUL. *)

Module LibC.

(** Value of a [uint8_t]. *)
Definition u8 (c : byte) : N := Byte.to_N c.

(** [(int) c] for a [char] holding the byte [c], when [char] is signed and
    when it is unsigned. *)
Definition int_of_char (char_signed : bool) (c : byte) : Z :=
  let n := Z.of_N (u8 c) in
  if char_signed && (128 <=? n)%Z then (n - 256)%Z else n.

(** [isascii(c)] is [((c) & ~0x7f) == 0]. *)
Definition isascii_int (c : Z) : bool := (Z.land c (Z.lnot 0x7f) =? 0)%Z.

(** [isascii] on a [char]; the answer does not depend on the signedness of
    [char] (lemma [isascii_signedness] below), so the unsigned reading is
    used. *)
Definition isascii (c : byte) : bool := isascii_int (int_of_char false c).

Definition is_nul (c : byte) : bool := u8 c =? 0.

(** The string held by a buffer: the bytes before the first NUL. *)
Fixpoint cstr (buf : list byte) : list byte :=
  match buf with
  | [] => []
  | c :: rest => if is_nul c then [] else c :: cstr rest
  end.

Definition strlen (buf : list byte) : nat := length (cstr buf).

(** A byte sequence without NUL. *)
Definition nonnul (s : list byte) : Prop :=
  Forall (fun c => is_nul c = false) s.

(** [memset(buf, c, n)] on a buffer of [n] bytes. *)
Definition memset (c : byte) (n : nat) : list byte := replicate n c.

(** [strncpy(dst, src, n)]: the bytes of [src] up to its NUL or up to [n]
    bytes, the remainder of the [n] bytes filled with NUL; the bytes of
    [dst] beyond [n] are kept. *)
Definition strncpy (dst src : list byte) (n : nat) : list byte :=
  let s := cstr (take n src) in
  s ++ replicate (n - length s) x00 ++ drop n dst.

End LibC.

(** ** The GLib functions used by name2utf8

  GLib is a library of its own; its functions are written after gutf8.c
  and gstrfuncs.c of GLib, on buffers as the C code has them. *)

Module GLib.
Import LibC.

(** [VALIDATE_BYTE(mask, expect)] of gutf8.c. *)
Definition VALIDATE_BYTE (mask expect : N) (c : byte) : bool :=
  N.land (u8 c) mask =? expect.

(** [fast_validate_len] of gutf8.c on the window of [max_len] bytes: the
    offset of the returned pointer, that is the number of bytes of
    well-formed UTF-8 before the first NUL byte, malformed sequence or
    truncated sequence. *)
Fixpoint fast_validate_len (s : list byte) : nat :=
  match s with
  | [] => 0
  | c0 :: s1 =>
    if is_nul c0 then 0
    else if u8 c0 <? 128 then S (fast_validate_len s1)
    else if u8 c0 <? 0xe0 then
      if u8 c0 <? 0xc2 then 0
      else match s1 with
           | c1 :: s2 =>
             if VALIDATE_BYTE 0xc0 0x80 c1
             then (2 + fast_validate_len s2)%nat else 0%nat
           | _ => 0%nat
           end
    else if u8 c0 <? 0xf0 then
      match s1 with
      | c1 :: c2 :: s3 =>
        let ok1 :=
          if N.land (u8 c0) 0x0f =? 0 then VALIDATE_BYTE 0xe0 0xa0 c1
          else if N.land (u8 c0) 0x0f =? 0x0d then VALIDATE_BYTE 0xe0 0x80 c1
          else VALIDATE_BYTE 0xc0 0x80 c1 in
        if ok1 && VALIDATE_BYTE 0xc0 0x80 c2
        then (3 + fast_validate_len s3)%nat else 0%nat
      | _ => 0%nat
      end
    else if u8 c0 <? 0xf5 then
      match s1 with
      | c1 :: c2 :: c3 :: s4 =>
        let ok1 :=
          if N.land (u8 c0) 0x07 =? 0
          then VALIDATE_BYTE 0xc0 0x80 c1 && negb (N.land (u8 c1) 0x30 =? 0)
          else if N.land (u8 c0) 0x07 =? 4 then VALIDATE_BYTE 0xf0 0x80 c1
          else VALIDATE_BYTE 0xc0 0x80 c1 in
        if ok1 && VALIDATE_BYTE 0xc0 0x80 c2 && VALIDATE_BYTE 0xc0 0x80 c3
        then (4 + fast_validate_len s4)%nat else 0%nat
      | _ => 0%nat
      end
    else 0%nat
  end.

(** [g_utf8_validate(str, max_len, NULL)] for [max_len >= 0]: the scan has
    to reach [str + max_len]; a NUL byte among the [max_len] bytes makes
    the text invalid. *)
Definition g_utf8_validate (str : list byte) (max_len : N) : bool :=
  (fast_validate_len (take (N.to_nat max_len) str) =? N.to_nat max_len)%nat.

(** [g_strndup(str, n)]: a fresh string with at most [n] bytes of [str],
    ending at the first NUL. *)
Definition g_strndup (str : list byte) (n : N) : list byte :=
  cstr (take (N.to_nat n) str).

(** [g_strdup(str)]: a copy of the string held by the buffer. *)
Definition g_strdup (buf : list byte) : list byte := cstr buf.

(** [g_ascii_isspace]: space, tab, line feed, form feed, carriage
    return. *)
Definition g_ascii_isspace (c : byte) : bool :=
  (u8 c =? 32) || (u8 c =? 9) || (u8 c =? 10) || (u8 c =? 12) || (u8 c =? 13).

(** The pointer [start] of [g_strchug]: the first byte that is NUL or not
    white space. *)
Fixpoint skip_space (buf : list byte) : list byte :=
  match buf with
  | [] => []
  | c :: rest =>
    if negb (is_nul c) && g_ascii_isspace c then skip_space rest else buf
  end.

(** [memmove(dst, src, n)]: the first [n] bytes of [dst] are replaced. *)
Definition memmove (dst src : list byte) (n : nat) : list byte :=
  take n src ++ drop n dst.

(** [g_strchug(string)]: skip the leading white space and move the rest
    of the string, with its NUL, to the start of the buffer. *)
Definition g_strchug (buf : list byte) : list byte :=
  let start := skip_space buf in
  memmove buf start (strlen start + 1).

(** The loop [while (len--)] of [g_strchomp]: white space at the end of
    the string is overwritten with NUL, from the last byte down. *)
Fixpoint chomp_from (len : nat) (buf : list byte) : list byte :=
  match len with
  | O => buf
  | S len' =>
    match buf !! len' with
    | Some c =>
      if g_ascii_isspace c then chomp_from len' (<[len' := x00]> buf)
      else buf
    | None => buf
    end
  end.

Definition g_strchomp (buf : list byte) : list byte :=
  chomp_from (strlen buf) buf.

(** [g_strstrip(string)] is [g_strchomp(g_strchug(string))]. *)
Definition g_strstrip (buf : list byte) : list byte :=
  g_strchomp (g_strchug buf).

End GLib.

(** ** gas.c *)

(** Pointers are addresses; [NULL] is address 0. *)
Abbreviation ptr := N (only parsing).
Definition NULL : ptr := 0.

(** [struct gas] *)
Record gas := mk_gas {
  gas_device : ptr;   (* struct btd_device *device *)
  gas_db : ptr;       (* struct gatt_db *db *)
  gas_db_id : N;      (* unsigned int db_id *)
  gas_client : ptr;   (* struct bt_gatt_client *client *)
  gas_attr : ptr;     (* struct gatt_db_attribute *attr *)
}.

Definition with_device (g : gas) (v : ptr) : gas :=
  mk_gas v (gas_db g) (gas_db_id g) (gas_client g) (gas_attr g).
Definition with_db (g : gas) (v : ptr) : gas :=
  mk_gas (gas_device g) v (gas_db_id g) (gas_client g) (gas_attr g).
Definition with_db_id (g : gas) (v : N) : gas :=
  mk_gas (gas_device g) (gas_db g) v (gas_client g) (gas_attr g).
Definition with_client (g : gas) (v : ptr) : gas :=
  mk_gas (gas_device g) (gas_db g) (gas_db_id g) v (gas_attr g).
Definition with_attr (g : gas) (v : ptr) : gas :=
  mk_gas (gas_device g) (gas_db g) (gas_db_id g) (gas_client g) v.

(** Modelled from the spec: [get_le16] of src/shared/util.h is not among
  the sources at hand; it decodes the two bytes at its argument as a
  little-endian 16-bit unsigned integer. [None] stands for a read past the
  end of a buffer of fewer than two bytes. *)
Definition get_le16 (p : list byte) : option N :=
  match p with
  | b0 :: b1 :: _ => Some (N.lor (LibC.u8 b0) (N.shiftl (LibC.u8 b1) 8))
  | _ => None
  end.

(** The two read completions, as they are passed to the GATT client. *)
Inductive read_cb_name := Read_device_name_cb | Read_appearance_cb.

(** Declared in headers of the repository that are not among the sources
  at hand, and taken as parameters: the maximum name length of lib/hci.h,
  the UUID type of lib/uuid.h with its constructor from a 16-bit value and
  its comparison (0 when equal), and the two characteristic UUIDs. *)
Class Headers := {
  HCI_MAX_NAME_LENGTH : N;
  bt_uuid_t : Type;
  bt_uuid16_create : N -> bt_uuid_t;
  bt_uuid_cmp : bt_uuid_t -> bt_uuid_t -> Z;
  GATT_CHARAC_DEVICE_NAME : N;
  GATT_CHARAC_APPEARANCE : N;
}.

Section Gas.

Import LibC GLib.
Context {hdr : Headers}.

Definition GAP_UUID16 : N := 0x1800.

(** *** name2utf8 *)

(** [sizeof(utf8_name)] for [char utf8_name[HCI_MAX_NAME_LENGTH + 2]]. *)
Definition sizeof_utf8_name : N := HCI_MAX_NAME_LENGTH + 2.

(** The loop [for (i = 0; utf8_name[i] != '\0'; i++)]: every byte of the
    string that is not ASCII becomes a space. *)
Fixpoint replace_non_ascii (utf8_name : list byte) : list byte :=
  match utf8_name with
  | [] => []
  | c :: rest =>
    if is_nul c then utf8_name
    else (if negb (isascii c) then x20 else c) :: replace_non_ascii rest
  end.

(** The result is the string the returned pointer holds. *)
Definition name2utf8 (name : list byte) (len : N) : list byte :=
  if g_utf8_validate name len then g_strndup name len
  else
    let len := N.min len (sizeof_utf8_name - 1) in
    let utf8_name := memset x00 (N.to_nat sizeof_utf8_name) in
    let utf8_name := strncpy utf8_name name (N.to_nat len) in
    let utf8_name := replace_non_ascii utf8_name in
    let utf8_name := g_strstrip utf8_name in
    g_strdup utf8_name.

(** What the fall-back path of [name2utf8] computes, on strings: a byte
    that is not ASCII becomes a space ... *)
Definition ascii_or_space (c : byte) : byte :=
  if isascii c then c else x20.

(** ... and the white space of [g_ascii_isspace] is dropped at both
    ends. *)
Fixpoint drop_leading_space (s : list byte) : list byte :=
  match s with
  | [] => []
  | c :: rest => if g_ascii_isspace c then drop_leading_space rest else s
  end.

Definition drop_trailing_space (s : list byte) : list byte :=
  rev (drop_leading_space (rev s)).

Definition strip (s : list byte) : list byte :=
  drop_trailing_space (drop_leading_space s).

(** The bytes the fall-back path keeps: at most [sizeof(utf8_name) - 1],
    and none from the first NUL on. *)
Definition fallback_bytes (name : list byte) (len : N) : list byte :=
  cstr (take (N.to_nat (N.min len (sizeof_utf8_name - 1))) name).

(** The fall-back path as the specification words it: the bytes are
    truncated to the maximum length, every byte outside the printable
    ASCII range (0x20 to 0x7e) becomes a space, and white space is stripped
    at both ends. *)
Definition printable_ascii (c : byte) : bool :=
  (0x20 <=? u8 c) && (u8 c <=? 0x7e).

Definition printable_or_space (c : byte) : byte :=
  if printable_ascii c then c else x20.

Definition name2utf8_fallback_spec (name : list byte) (len : N) : list byte :=
  strip (map printable_or_space
           (take (N.to_nat (N.min len (sizeof_utf8_name - 1))) name)).

(** The valid path as the specification words it. Valid UTF-8 is a
    sequence of well-formed encodings as the Unicode standard lists them
    (table 3-7; RFC 3629): one byte 00..7F, two bytes C2..DF 80..BF, three
    bytes E0..EF with two continuation bytes (A0..BF after E0, 80..9F after
    ED), four bytes F0..F4 with three continuation bytes (90..BF after F0,
    80..8F after F4). The byte 0x00 encodes U+0000 and is valid like any
    other character. Such a payload is used as it is, cut at the reported
    length. *)
Definition in_range (lo hi : N) (c : byte) : bool :=
  (lo <=? u8 c) && (u8 c <=? hi).

Fixpoint valid_utf8_spec (s : list byte) : bool :=
  match s with
  | [] => true
  | c0 :: s1 =>
    if in_range 0x00 0x7f c0 then valid_utf8_spec s1
    else if in_range 0xc2 0xdf c0 then
      match s1 with
      | c1 :: s2 => in_range 0x80 0xbf c1 && valid_utf8_spec s2
      | _ => false
      end
    else if in_range 0xe0 0xef c0 then
      match s1 with
      | c1 :: c2 :: s3 =>
        in_range (if u8 c0 =? 0xe0 then 0xa0 else 0x80)
                 (if u8 c0 =? 0xed then 0x9f else 0xbf) c1 &&
        in_range 0x80 0xbf c2 && valid_utf8_spec s3
      | _ => false
      end
    else if in_range 0xf0 0xf4 c0 then
      match s1 with
      | c1 :: c2 :: c3 :: s4 =>
        in_range (if u8 c0 =? 0xf0 then 0x90 else 0x80)
                 (if u8 c0 =? 0xf4 then 0x8f else 0xbf) c1 &&
        in_range 0x80 0xbf c2 && in_range 0x80 0xbf c3 && valid_utf8_spec s4
      | _ => false
      end
    else false
  end.

Definition name2utf8_valid_spec (name : list byte) (len : N) : list byte :=
  take (N.to_nat len) name.

(** *** Collaborators *)

(** Log lines, one constructor per [DBG] or [error] format string. *)
Inductive log_msg :=
| Reading_device_name_failed (att_ecode : N)
| GAP_Device_Name (name : list byte)
| Failed_to_send_read_device_name
| Reading_appearance_failed (att_ecode : N)
| Malformed_appearance_value
| GAP_Appearance (appearance : N)
| Failed_to_send_read_appearance
| Failed_to_obtain_characteristic_data
| Unsupported_characteristic (uuid : bt_uuid_t)
| GAP_profile_probe (addr : N)
| Profile_probed_twice
| GAP_profile_remove (addr : N)
| GAP_service_not_handled
| More_than_one_GAP_service_exists
| More_than_one_GAP_service_added
| GAP_service_added
| GAP_service_removed
| GAP_profile_accept (addr : N).

(** Calls into the collaborators that have an effect there. *)
Inductive call :=
| ev_DBG (m : log_msg)
| ev_error (m : log_msg)
| ev_gatt_db_unregister (db : ptr) (id : N)
| ev_gatt_db_unref (db : ptr)
| ev_bt_gatt_client_unref (client : ptr)
| ev_btd_device_unref (device : ptr)
| ev_btd_device_ref (device : ptr)
| ev_gatt_db_ref (db : ptr)
| ev_bt_gatt_client_ref (client : ptr)
| ev_gatt_db_register (db : ptr) (user_data : ptr)
| ev_btd_device_device_set_name (device : ptr) (name : list byte)
| ev_device_set_appearance (device : ptr) (appearance : N)
| ev_bt_gatt_client_read_long_value
    (client : ptr) (value_handle offset : N) (cb : read_cb_name)
    (user_data : ptr)
| ev_bt_gatt_client_read_value
    (client : ptr) (value_handle : N) (cb : read_cb_name) (user_data : ptr).

(** What the collaborators answer while one entry point runs. *)
Record env := mk_env {
  btd_service_get_device : ptr -> ptr;
  device_get_address : ptr -> N;
  btd_device_get_gatt_db : ptr -> ptr;
  btd_device_get_gatt_client : ptr -> ptr;
  (* the address g_new0 hands out, NULL when it fails *)
  g_new0 : ptr;
  bt_gatt_client_is_ready : ptr -> bool;
  gatt_db_attribute_get_service_uuid : ptr -> bt_uuid_t;
  (* value handle and UUID of a characteristic, None when the call fails *)
  gatt_db_attribute_get_char_data : ptr -> option (N * bt_uuid_t);
  (* the characteristics visited under a service *)
  gatt_db_service_foreach_char : ptr -> list ptr;
  (* the services of a database visited for a UUID *)
  gatt_db_foreach_service : ptr -> bt_uuid_t -> list ptr;
  (* the registration id *)
  gatt_db_register : ptr -> ptr -> N;
  (* the request id, 0 when the request is refused *)
  bt_gatt_client_read_long_value : ptr -> N -> N -> N;
  bt_gatt_client_read_value : ptr -> N -> N;
}.

(** *** State *)

Record state := mk_state {
  heap : gmap N gas;     (* the live [struct gas] objects *)
  devices : list ptr;    (* static GSList *devices *)
  trace : list call;     (* calls made so far, oldest first *)
}.

(** Computations on the state; [None] is undefined behaviour (a
    [struct gas] pointer that is not live is dereferenced). *)
Definition M (A : Type) : Type := state -> option (A * state).

Definition ret {A} (a : A) : M A := fun st => Some (a, st).

Definition bind {A B} (m : M A) (k : A -> M B) : M B :=
  fun st => match m st with
            | Some (a, st') => k a st'
            | None => None
            end.

Notation "x <- m ;; k" := (bind m (fun x => k))
  (at level 100, m at next level, right associativity).
Notation "m ;;; k" := (bind m (fun _ => k))
  (at level 100, right associativity).

Definition emit (c : call) : M unit :=
  fun st => Some (tt, mk_state (heap st) (devices st) (trace st ++ [c])).

Definition load (p : ptr) : M gas :=
  fun st => match heap st !! p with
            | Some g => Some (g, st)
            | None => None
            end.

Definition store (p : ptr) (g : gas) : M unit :=
  fun st => match heap st !! p with
            | Some _ => Some (tt, mk_state (<[p := g]> (heap st)) (devices st) (trace st))
            | None => None
            end.

Definition get_devices : M (list ptr) := fun st => Some (devices st, st).

Definition set_devices (l : list ptr) : M unit :=
  fun st => Some (tt, mk_state (heap st) l (trace st)).

(** [g_new0(struct gas, 1)]: a zeroed object at the address the allocator
    hands out; an allocator that hands out a live address is outside the
    model. *)
Definition g_new0_gas (e : env) : M ptr :=
  fun st =>
    let p := g_new0 e in
    if p =? NULL then Some (NULL, st)
    else match heap st !! p with
         | Some _ => None
         | None =>
           Some (p, mk_state (<[p := mk_gas NULL NULL 0 NULL NULL]> (heap st))
                             (devices st) (trace st))
         end.

(** [g_free(gas)] *)
Definition g_free_gas (p : ptr) : M unit :=
  fun st => match heap st !! p with
            | Some _ => Some (tt, mk_state (delete p (heap st)) (devices st) (trace st))
            | None => None
            end.

(** [for each x in l: f x] *)
Fixpoint foreach {A} (l : list A) (f : A -> M unit) : M unit :=
  match l with
  | [] => ret tt
  | x :: l' => f x ;;; foreach l' f
  end.

(** A value read through a pointer that may be out of bounds. *)
Definition deref {A} (o : option A) : M A :=
  fun st => match o with
            | Some a => Some (a, st)
            | None => None
            end.

(** *** The functions of gas.c *)

Definition gas_free (gas : ptr) : M unit :=
  g <- load gas ;;
  emit (ev_gatt_db_unregister (gas_db g) (gas_db_id g)) ;;;
  emit (ev_gatt_db_unref (gas_db g)) ;;;
  emit (ev_bt_gatt_client_unref (gas_client g)) ;;;
  emit (ev_btd_device_unref (gas_device g)) ;;;
  g_free_gas gas.

Definition cmp_device (a : ptr) (b : ptr) : M Z :=
  g <- load a ;;
  ret (if gas_device g =? b then 0%Z else (-1)%Z).

(** [g_slist_find_custom(list, data, cmp_device)]: the data of the first
    element for which the comparison gives 0. *)
Fixpoint g_slist_find_custom (l : list ptr) (data : ptr) : M (option ptr) :=
  match l with
  | [] => ret None
  | a :: l' =>
    r <- cmp_device a data ;;
    if (r =? 0)%Z then ret (Some a) else g_slist_find_custom l' data
  end.

(** [g_slist_append(list, data)] *)
Definition g_slist_append (l : list ptr) (data : ptr) : list ptr := l ++ [data].

(** [g_slist_remove(list, data)]: the first element holding [data] is
    removed. *)
Fixpoint g_slist_remove (l : list ptr) (data : ptr) : list ptr :=
  match l with
  | [] => []
  | a :: l' => if a =? data then l' else a :: g_slist_remove l' data
  end.

(** [g_free(name)] releases a string that the model holds by value. *)
Definition read_device_name_cb (success : bool) (att_ecode : N)
    (value : list byte) (length : N) (user_data : ptr) : M unit :=
  let gas := user_data in
  if negb success then
    emit (ev_DBG (Reading_device_name_failed att_ecode))
  else if length =? 0 then ret tt
  else
    let name := name2utf8 value length in
    emit (ev_DBG (GAP_Device_Name name)) ;;;
    g <- load gas ;;
    emit (ev_btd_device_device_set_name (gas_device g) name).

Definition handle_device_name (e : env) (gas : ptr) (value_handle : N) : M unit :=
  g <- load gas ;;
  emit (ev_bt_gatt_client_read_long_value (gas_client g) value_handle 0
          Read_device_name_cb gas) ;;;
  if bt_gatt_client_read_long_value e (gas_client g) value_handle 0 =? 0
  then emit (ev_DBG Failed_to_send_read_device_name)
  else ret tt.

Definition read_appearance_cb (success : bool) (att_ecode : N)
    (value : list byte) (length : N) (user_data : ptr) : M unit :=
  let gas := user_data in
  if negb success then
    emit (ev_DBG (Reading_appearance_failed att_ecode))
  else if negb (length =? 2) then
    emit (ev_DBG Malformed_appearance_value)
  else
    appearance <- deref (get_le16 value) ;;
    emit (ev_DBG (GAP_Appearance appearance)) ;;;
    g <- load gas ;;
    emit (ev_device_set_appearance (gas_device g) appearance).

Definition handle_appearance (e : env) (gas : ptr) (value_handle : N) : M unit :=
  g <- load gas ;;
  emit (ev_bt_gatt_client_read_value (gas_client g) value_handle
          Read_appearance_cb gas) ;;;
  if bt_gatt_client_read_value e (gas_client g) value_handle =? 0
  then emit (ev_DBG Failed_to_send_read_appearance)
  else ret tt.

Definition uuid_cmp (u16 : N) (uuid : bt_uuid_t) : bool :=
  let lhs := bt_uuid16_create u16 in
  (bt_uuid_cmp lhs uuid =? 0)%Z.

Definition handle_characteristic (e : env) (attr : ptr) (user_data : ptr) : M unit :=
  let gas := user_data in
  match gatt_db_attribute_get_char_data e attr with
  | None => emit (ev_error Failed_to_obtain_characteristic_data)
  | Some (value_handle, uuid) =>
    if uuid_cmp GATT_CHARAC_DEVICE_NAME uuid then
      handle_device_name e gas value_handle
    else if uuid_cmp GATT_CHARAC_APPEARANCE uuid then
      handle_appearance e gas value_handle
    else
      emit (ev_DBG (Unsupported_characteristic uuid))
  end.

Definition handle_gap_service (e : env) (gas : ptr) : M unit :=
  g <- load gas ;;
  foreach (gatt_db_service_foreach_char e (gas_attr g))
          (fun attr => handle_characteristic e attr gas).

Definition gap_driver_probe (e : env) (service : ptr) : M Z :=
  let device := btd_service_get_device e service in
  emit (ev_DBG (GAP_profile_probe (device_get_address e device))) ;;;
  (* Ignore, if we were probed for this device already *)
  ds <- get_devices ;;
  l <- g_slist_find_custom ds device ;;
  match l with
  | Some _ =>
    emit (ev_error Profile_probed_twice) ;;;
    ret (-1)%Z
  | None =>
    gas <- g_new0_gas e ;;
    if gas =? NULL then ret (-1)%Z
    else
      emit (ev_btd_device_ref device) ;;;
      g <- load gas ;;
      store gas (with_device g device) ;;;
      ds <- get_devices ;;
      set_devices (g_slist_append ds gas) ;;;
      ret 0%Z
  end.

Definition gap_driver_remove (e : env) (service : ptr) : M unit :=
  let device := btd_service_get_device e service in
  emit (ev_DBG (GAP_profile_remove (device_get_address e device))) ;;;
  ds <- get_devices ;;
  l <- g_slist_find_custom ds device ;;
  match l with
  | None => emit (ev_error GAP_service_not_handled)
  | Some gas =>
    ds <- get_devices ;;
    set_devices (g_slist_remove ds gas) ;;;
    gas_free gas
  end.

Definition foreach_gap_service (e : env) (attr : ptr) (user_data : ptr) : M unit :=
  let gas := user_data in
  g <- load gas ;;
  if negb (gas_attr g =? NULL) then
    emit (ev_error More_than_one_GAP_service_exists)
  else
    store gas (with_attr g attr) ;;;
    handle_gap_service e gas.

Definition service_added (e : env) (attr : ptr) (user_data : ptr) : M unit :=
  let gas := user_data in
  g <- load gas ;;
  if negb (bt_gatt_client_is_ready e (gas_client g)) then ret tt
  else
    let uuid := gatt_db_attribute_get_service_uuid e attr in
    let gap_uuid := bt_uuid16_create GAP_UUID16 in
    if negb (bt_uuid_cmp uuid gap_uuid =? 0)%Z then ret tt
    else if negb (gas_attr g =? NULL) then
      emit (ev_error More_than_one_GAP_service_added)
    else
      emit (ev_DBG GAP_service_added) ;;;
      store gas (with_attr g attr) ;;;
      handle_gap_service e gas.

Definition service_removed (attr : ptr) (user_data : ptr) : M unit :=
  let gas := user_data in
  g <- load gas ;;
  if negb (gas_attr g =? attr) then ret tt
  else
    emit (ev_DBG GAP_service_removed) ;;;
    store gas (with_attr g NULL).

Definition gap_driver_accept (e : env) (service : ptr) : M Z :=
  let device := btd_service_get_device e service in
  let db := btd_device_get_gatt_db e device in
  let client := btd_device_get_gatt_client e device in
  emit (ev_DBG (GAP_profile_accept (device_get_address e device))) ;;;
  ds <- get_devices ;;
  l <- g_slist_find_custom ds device ;;
  match l with
  | None =>
    emit (ev_error GAP_service_not_handled) ;;;
    ret (-1)%Z
  | Some gas =>
    (* Clean-up any old client/db and acquire the new ones *)
    g <- load gas ;;
    store gas (with_attr g NULL) ;;;
    g <- load gas ;;
    emit (ev_gatt_db_unregister (gas_db g) (gas_db_id g)) ;;;
    emit (ev_gatt_db_unref (gas_db g)) ;;;
    emit (ev_bt_gatt_client_unref (gas_client g)) ;;;
    emit (ev_gatt_db_ref db) ;;;
    store gas (with_db g db) ;;;
    emit (ev_bt_gatt_client_ref client) ;;;
    g <- load gas ;;
    store gas (with_client g client) ;;;
    emit (ev_gatt_db_register db gas) ;;;
    g <- load gas ;;
    store gas (with_db_id g (gatt_db_register e db gas)) ;;;
    (* Handle the GAP services *)
    let gap_uuid := bt_uuid16_create GAP_UUID16 in
    foreach (gatt_db_foreach_service e db gap_uuid)
            (fun attr => foreach_gap_service e attr gas) ;;;
    ret 0%Z
  end.

(** [gap_init]: [devices = NULL]; no [struct gas] exists yet. *)
Definition gap_init : state := mk_state ∅ [] [].

(** *** Vocabulary for the statements *)

(** The state with more calls in its trace, and with one [struct gas]
    overwritten. *)
Definition append_trace (st : state) (tr : list call) : state :=
  mk_state (heap st) (devices st) (trace st ++ tr).

Definition poke (st : state) (p : ptr) (g : gas) : state :=
  mk_state (<[p := g]> (heap st)) (devices st) (trace st).

(** Calls that push a value into the device registry. *)
Definition is_registry_call (c : call) : bool :=
  match c with
  | ev_btd_device_device_set_name _ _ | ev_device_set_appearance _ _ => true
  | _ => false
  end.

(** Calls that ask the GATT client to read a characteristic. *)
Definition is_read_request (c : call) : bool :=
  match c with
  | ev_bt_gatt_client_read_long_value _ _ _ _ _
  | ev_bt_gatt_client_read_value _ _ _ _ => true
  | _ => false
  end.

(** [p] is the handler of [device]: it is in [devices] and its [device]
    field is [device]. *)
Definition handler_of (st : state) (device : ptr) (p : ptr) : Prop :=
  p ∈ devices st /\ exists g, heap st !! p = Some g /\ gas_device g = device.

(** At most one handler per device: no [struct gas] is listed twice and
    no two listed ones have the same [device]. *)
Definition at_most_one_handler (st : state) : Prop :=
  NoDup (devices st) /\
  forall device p q, handler_of st device p -> handler_of st device q -> p = q.

(** Every listed pointer is live. *)
Definition devices_live (st : state) : Prop :=
  forall p, p ∈ devices st -> is_Some (heap st !! p).

(** The service a scan binds when it starts from an unbound handler: the
    first node visited (a NULL node would leave the handler unbound). *)
Fixpoint first_bound (found : list ptr) : ptr :=
  match found with
  | [] => NULL
  | a :: l => if a =? NULL then first_bound l else a
  end.

(** The binding after a scan of [found] that starts with the binding
    [cur]: a bound handler keeps its service. *)
Definition scan_result (cur : ptr) (found : list ptr) : ptr :=
  if cur =? NULL then first_bound found else cur.

(** The calls of [gap_driver_accept] before its scan. *)
Definition accept_calls e (service : ptr) (g : gas) (gas : ptr) : list call :=
  let device := btd_service_get_device e service in
  let db := btd_device_get_gatt_db e device in
  let client := btd_device_get_gatt_client e device in
  [ev_DBG (GAP_profile_accept (device_get_address e device));
   ev_gatt_db_unregister (gas_db g) (gas_db_id g);
   ev_gatt_db_unref (gas_db g);
   ev_bt_gatt_client_unref (gas_client g);
   ev_gatt_db_ref db;
   ev_bt_gatt_client_ref client;
   ev_gatt_db_register db gas].

(** Two states list the same handlers for the same devices. *)
Definition same_handlers (st st' : state) : Prop :=
  devices st' = devices st /\
  forall p, gas_device <$> (heap st' !! p) = gas_device <$> (heap st !! p).

(** Log lines. *)
Definition is_log (c : call) : bool :=
  match c with
  | ev_DBG _ | ev_error _ => true
  | _ => false
  end.

(** The calls made while a located service is handled for the handler at
    [gas], which holds [g]: log lines, and reads on the handler's client
    that pass the handler as user data (a long read from offset 0 completed
    by [read_device_name_cb], a plain read completed by
    [read_appearance_cb]). *)
Definition issued_for (g : gas) (gas : ptr) (c : call) : bool :=
  match c with
  | ev_DBG _ | ev_error _ => true
  | ev_bt_gatt_client_read_long_value client _ offset Read_device_name_cb ud =>
    (client =? gas_client g) && (offset =? 0) && (ud =? gas)
  | ev_bt_gatt_client_read_value client _ Read_appearance_cb ud =>
    (client =? gas_client g) && (ud =? gas)
  | _ => false
  end.

(** How many calls of a trace satisfy [P]. *)
Definition count_calls (P : call -> bool) (tr : list call) : nat :=
  length (List.filter P tr).

(** The characteristics [handle_characteristic] asks a read for: the call
    for its data succeeds and its UUID compares equal to the device name or
    to the appearance UUID. *)
Definition char_read (e : env) (attr : ptr) : bool :=
  match gatt_db_attribute_get_char_data e attr with
  | Some (_, uuid) =>
    uuid_cmp GATT_CHARAC_DEVICE_NAME uuid || uuid_cmp GATT_CHARAC_APPEARANCE uuid
  | None => false
  end.

(** The read [handle_characteristic] asks for the characteristic [attr]
    on behalf of the handler at [gas], which holds [g]: for the device name
    a long read of the characteristic's value handle from offset 0, completed
    by [read_device_name_cb]; for the appearance a plain read of its value
    handle, completed by [read_appearance_cb]; both on the handler's client
    with the handler as user data. A UUID that compares equal to both is a
    device name. *)
Definition read_request_for (e : env) (g : gas) (gas : ptr) (attr : ptr)
    : option call :=
  match gatt_db_attribute_get_char_data e attr with
  | Some (value_handle, uuid) =>
    if uuid_cmp GATT_CHARAC_DEVICE_NAME uuid then
      Some (ev_bt_gatt_client_read_long_value (gas_client g) value_handle 0
              Read_device_name_cb gas)
    else if uuid_cmp GATT_CHARAC_APPEARANCE uuid then
      Some (ev_bt_gatt_client_read_value (gas_client g) value_handle
              Read_appearance_cb gas)
    else None
  | None => None
  end.

(** References taken and released, per object. *)
Definition is_device_ref (d : ptr) (c : call) : bool :=
  match c with ev_btd_device_ref x => x =? d | _ => false end.
Definition is_device_unref (d : ptr) (c : call) : bool :=
  match c with ev_btd_device_unref x => x =? d | _ => false end.
Definition is_db_ref (d : ptr) (c : call) : bool :=
  match c with ev_gatt_db_ref x => x =? d | _ => false end.
Definition is_db_unref (d : ptr) (c : call) : bool :=
  match c with ev_gatt_db_unref x => x =? d | _ => false end.
Definition is_client_ref (d : ptr) (c : call) : bool :=
  match c with ev_bt_gatt_client_ref x => x =? d | _ => false end.
Definition is_client_unref (d : ptr) (c : call) : bool :=
  match c with ev_bt_gatt_client_unref x => x =? d | _ => false end.

(** Calls that take or release a reference. *)
Definition is_refcount_call (c : call) : bool :=
  match c with
  | ev_btd_device_ref _ | ev_btd_device_unref _
  | ev_gatt_db_ref _ | ev_gatt_db_unref _
  | ev_bt_gatt_client_ref _ | ev_bt_gatt_client_unref _ => true
  | _ => false
  end.

(** How many listed handlers hold [d] in the field [f]. *)
Definition holds (f : gas -> ptr) (h : gmap N gas) (d : ptr) (p : ptr) : bool :=
  match h !! p with
  | Some g => f g =? d
  | None => false
  end.

Definition holders (f : gas -> ptr) (st : state) (d : ptr) : nat :=
  length (List.filter (holds f (heap st) d) (devices st)).

(** The objects a handler holds a reference on. *)
Definition refs_of (g : gas) : N * N * N :=
  (gas_device g, gas_db g, gas_client g).

(** [st'] comes from [st] without a reference taken or released: the same
    handlers hold the same objects, and the calls added to the trace leave
    the reference counts alone. *)
Definition same_refs (st st' : state) : Prop :=
  devices st' = devices st /\
  (forall q, refs_of <$> (heap st' !! q) = refs_of <$> (heap st !! q)) /\
  exists tr, trace st' = trace st ++ tr /\
             Forall (fun c => is_refcount_call c = false) tr.

(** The references on [d] balance: as many were taken as were released or
    are held by a listed handler in its field [f]. *)
Definition balanced (f : gas -> ptr) (is_ref is_unref : ptr -> call -> bool)
    (st : state) (d : ptr) : Prop :=
  count_calls (is_ref d) (trace st) =
  (count_calls (is_unref d) (trace st) + holders f st d)%nat.

(** The three kinds of reference balance: on devices, and on the
    databases and clients other than NULL (a new handler holds NULL for
    both without a reference). *)
Definition references_balanced (st : state) : Prop :=
  forall d,
    balanced gas_device is_device_ref is_device_unref st d /\
    (d <> NULL ->
     balanced gas_db is_db_ref is_db_unref st d /\
     balanced gas_client is_client_ref is_client_unref st d).

(** The names a trace pushes into the device registry, with the device
    each one is for. *)
Definition pushed_name (c : call) : option (N * list byte) :=
  match c with
  | ev_btd_device_device_set_name device name => Some (device, name)
  | _ => None
  end.

Definition pushed_names (tr : list call) : list (N * list byte) :=
  omap pushed_name tr.

(** One entry of the plugin runs to completion: a profile hook, a
    database notification or a read completion, with whatever arguments
    and collaborator answers. *)
Inductive step (st : state) : state -> Prop :=
| step_probe e service r st' :
    gap_driver_probe e service st = Some (r, st') -> step st st'
| step_remove e service st' :
    gap_driver_remove e service st = Some (tt, st') -> step st st'
| step_accept e service r st' :
    gap_driver_accept e service st = Some (r, st') -> step st st'
| step_service_added e attr user_data st' :
    service_added e attr user_data st = Some (tt, st') -> step st st'
| step_service_removed attr user_data st' :
    service_removed attr user_data st = Some (tt, st') -> step st st'
| step_read_device_name_cb success att_ecode value length user_data st' :
    read_device_name_cb success att_ecode value length user_data st
      = Some (tt, st') -> step st st'
| step_read_appearance_cb success att_ecode value length user_data st' :
    read_appearance_cb success att_ecode value length user_data st
      = Some (tt, st') -> step st st'.

(** The states the plugin can be in after [gap_init]. *)
Inductive reachable : state -> Prop :=
| reachable_init : reachable gap_init
| reachable_step st st' : reachable st -> step st st' -> reachable st'.

End Gas.

(** ** A concrete configuration

  The header values of BlueZ (a name of at most 248 bytes, device name
  0x2a00, appearance 0x2a01) with UUIDs compared by value, and a device
  [0x10] whose attribute database [0x20] holds one GAP service [0x40] with
  a device name characteristic [0x41] and an appearance characteristic
  [0x42]. *)
Module Sample.

Definition headers : Headers := {|
  HCI_MAX_NAME_LENGTH := 248;
  bt_uuid_t := N;
  bt_uuid16_create := fun u16 => u16;
  bt_uuid_cmp := fun a b => (Z.of_N a - Z.of_N b)%Z;
  GATT_CHARAC_DEVICE_NAME := 0x2a00;
  GATT_CHARAC_APPEARANCE := 0x2a01;
|}.

Definition uuid (u : N) : @bt_uuid_t headers := u.

Definition world (ready : bool) : @env headers := {|
  btd_service_get_device := fun service => 0x10;
  device_get_address := fun device => 0xa0b0c0;
  btd_device_get_gatt_db := fun device => 0x20;
  btd_device_get_gatt_client := fun device => 0x30;
  g_new0 := 0x1000;
  bt_gatt_client_is_ready := fun client => ready;
  gatt_db_attribute_get_service_uuid :=
    fun attr => if attr =? 0x40 then uuid 0x1800 else uuid 0x1801;
  gatt_db_attribute_get_char_data :=
    fun attr => if attr =? 0x41 then Some (3, uuid 0x2a00)
                else if attr =? 0x42 then Some (5, uuid 0x2a01)
                else None;
  gatt_db_service_foreach_char :=
    fun attr => if attr =? 0x40 then [0x41; 0x42] else [];
  gatt_db_foreach_service :=
    fun db (u : N) => if u =? 0x1800 then [0x40] else [];
  gatt_db_register := fun db user_data => 7;
  bt_gatt_client_read_long_value := fun client handle offset => 1;
  bt_gatt_client_read_value := fun client handle => 2;
|}.

(** The state after a probe of the device. *)
Definition probed : @state headers :=
  mk_state (<[0x1000 := mk_gas 0x10 NULL 0 NULL NULL]> ∅) [0x1000]
           [ev_DBG (GAP_profile_probe 0xa0b0c0); ev_btd_device_ref 0x10].

(** The handler of the device as the probe leaves it, and as an accept
    that found the GAP service leaves it. *)
Definition fresh_gas : gas := mk_gas 0x10 NULL 0 NULL NULL.
Definition bound_gas : gas := mk_gas 0x10 0x20 7 0x30 0x40.

(** The state after an accept that follows the probe: the handler is bound
    to the GAP service and the two reads are issued. *)
Definition accepted : @state headers :=
  mk_state (<[0x1000 := bound_gas]> ∅) [0x1000]
           [ev_DBG (GAP_profile_probe 0xa0b0c0); ev_btd_device_ref 0x10;
            ev_DBG (GAP_profile_accept 0xa0b0c0);
            ev_gatt_db_unregister NULL 0; ev_gatt_db_unref NULL;
            ev_bt_gatt_client_unref NULL;
            ev_gatt_db_ref 0x20; ev_bt_gatt_client_ref 0x30;
            ev_gatt_db_register 0x20 0x1000;
            ev_bt_gatt_client_read_long_value 0x30 3 0 Read_device_name_cb 0x1000;
            ev_bt_gatt_client_read_value 0x30 5 Read_appearance_cb 0x1000].

(** The same collaborators when [g_new0] has no memory to give. *)
Definition world_without_memory : @env headers := {|
  btd_service_get_device := btd_service_get_device (world true);
  device_get_address := device_get_address (world true);
  btd_device_get_gatt_db := btd_device_get_gatt_db (world true);
  btd_device_get_gatt_client := btd_device_get_gatt_client (world true);
  g_new0 := NULL;
  bt_gatt_client_is_ready := bt_gatt_client_is_ready (world true);
  gatt_db_attribute_get_service_uuid :=
    gatt_db_attribute_get_service_uuid (world true);
  gatt_db_attribute_get_char_data := gatt_db_attribute_get_char_data (world true);
  gatt_db_service_foreach_char := gatt_db_service_foreach_char (world true);
  gatt_db_foreach_service := gatt_db_foreach_service (world true);
  gatt_db_register := gatt_db_register (world true);
  bt_gatt_client_read_long_value := bt_gatt_client_read_long_value (world true);
  bt_gatt_client_read_value := bt_gatt_client_read_value (world true);
|}.

(** The same collaborators when the database holds a second GAP service
    [0x50]. *)
Definition world_with_two_services : @env headers := {|
  btd_service_get_device := btd_service_get_device (world true);
  device_get_address := device_get_address (world true);
  btd_device_get_gatt_db := btd_device_get_gatt_db (world true);
  btd_device_get_gatt_client := btd_device_get_gatt_client (world true);
  g_new0 := g_new0 (world true);
  bt_gatt_client_is_ready := bt_gatt_client_is_ready (world true);
  gatt_db_attribute_get_service_uuid :=
    gatt_db_attribute_get_service_uuid (world true);
  gatt_db_attribute_get_char_data := gatt_db_attribute_get_char_data (world true);
  gatt_db_service_foreach_char := gatt_db_service_foreach_char (world true);
  gatt_db_foreach_service :=
    fun db (u : N) => if u =? 0x1800 then [0x40; 0x50] else [];
  gatt_db_register := gatt_db_register (world true);
  bt_gatt_client_read_long_value := bt_gatt_client_read_long_value (world true);
  bt_gatt_client_read_value := bt_gatt_client_read_value (world true);
|}.

End Sample.

(** ** Facts about C strings *)

Section Strings.
Import LibC GLib.

Lemma isascii_signedness (c : byte) :
  isascii_int (int_of_char true c) = isascii_int (int_of_char false c).
Proof. destruct c; vm_compute; reflexivity. Qed.

Lemma isascii_lt (c : byte) : isascii c = (u8 c <? 128).
Proof. destruct c; vm_compute; reflexivity. Qed.

Lemma cstr_nonnul (buf : list byte) : nonnul (cstr buf).
Proof.
  induction buf as [|c buf IH]; simpl; [constructor|].
  destruct (is_nul c) eqn:E; constructor; assumption.
Qed.

Lemma cstr_id (s : list byte) : nonnul s -> cstr s = s.
Proof.
  induction 1 as [|c s Hc _ IH]; simpl; [reflexivity|].
  rewrite Hc, IH. reflexivity.
Qed.

Lemma cstr_app_nul (s rest : list byte) :
  nonnul s -> cstr (s ++ x00 :: rest) = s.
Proof.
  induction 1 as [|c s Hc _ IH]; simpl; [reflexivity|].
  rewrite Hc, IH. reflexivity.
Qed.

Lemma cstr_length (buf : list byte) : (length (cstr buf) <= length buf)%nat.
Proof.
  induction buf as [|c buf IH]; simpl; [lia|].
  destruct (is_nul c); simpl; lia.
Qed.

(** A NUL ends the string whatever follows it. *)
Lemma cstr_take_app_nul (n : nat) (pre rest : list byte) :
  nonnul pre -> cstr (take n (pre ++ x00 :: rest)) = take n pre.
Proof.
  intros Hpre. revert n.
  induction Hpre as [|c s Hc _ IH]; intros [|n]; simpl; try reflexivity.
  rewrite Hc, IH. reflexivity.
Qed.

Lemma VALIDATE_BYTE_nonnul (mask expect : N) (c : byte) :
  expect <> 0 -> VALIDATE_BYTE mask expect c = true -> is_nul c = false.
Proof.
  unfold VALIDATE_BYTE, is_nul. intros Hne Hv.
  apply N.eqb_eq in Hv. apply N.eqb_neq. intros Hz.
  rewrite Hz, N.land_0_l in Hv. congruence.
Qed.

Local Ltac split_validate :=
  repeat match goal with
    | |- context [if ?b then _ else _] => destruct b eqn:?
    | |- context [match ?l with [] => _ | _ :: _ => _ end] => destruct l
    end.

Local Ltac cont_nonnul :=
  match goal with
  | H : VALIDATE_BYTE _ _ ?c = true |- is_nul ?c = false =>
    eapply VALIDATE_BYTE_nonnul; [|exact H]; discriminate
  end.

(** The scan never runs past its window, and a scan that covers the whole
    window has met no NUL. *)
Lemma fast_validate_len_spec (n : nat) :
  forall s : list byte, (length s <= n)%nat ->
    (fast_validate_len s <= length s)%nat /\
    (fast_validate_len s = length s -> nonnul s).
Proof.
  induction n as [|n IH]; intros s Hlen.
  - destruct s; simpl in *; [split; [lia | constructor] | lia].
  - destruct s as [|c0 s1]; [simpl; split; [lia | constructor]|].
    simpl in Hlen.
    cbn [fast_validate_len].
    split_validate; cbn [length] in *;
      repeat match goal with
        | H : (_ && _) = true |- _ => apply andb_true_iff in H; destruct H
        end;
      try (split; [lia | intros; exfalso; lia]).
    all: repeat match goal with
           | H : context [if ?b then _ else _] |- _ => destruct b eqn:?
           | H : (_ && _) = true |- _ => apply andb_true_iff in H; destruct H
           end.
    all: match goal with
         | |- context [fast_validate_len ?t] =>
           destruct (IH t ltac:(simpl in *; lia)) as [Hle Hnn]
         end.
    all: split; [lia|]; intros Heq.
    all: repeat (constructor; [first [assumption | cont_nonnul]|]).
    all: apply Hnn; lia.
Qed.

Lemma g_utf8_validate_true (str : list byte) (max_len : N) :
  g_utf8_validate str max_len = true ->
  length (take (N.to_nat max_len) str) = N.to_nat max_len /\
  nonnul (take (N.to_nat max_len) str).
Proof.
  unfold g_utf8_validate. intros Hv. apply Nat.eqb_eq in Hv.
  destruct (fast_validate_len_spec _ (take (N.to_nat max_len) str) (le_n _))
    as [Hle Hnn].
  pose proof (length_take_le str (N.to_nat max_len)) as Hlt.
  assert (length (take (N.to_nat max_len) str) = N.to_nat max_len) as Hlen
    by (rewrite length_take; rewrite length_take in Hle; lia).
  split; [exact Hlen|]. apply Hnn. lia.
Qed.

(** Valid UTF-8 is duplicated byte for byte. *)
Lemma g_strndup_valid (str : list byte) (n : N) :
  g_utf8_validate str n = true -> g_strndup str n = take (N.to_nat n) str.
Proof.
  intros Hv. unfold g_strndup. apply cstr_id.
  apply (g_utf8_validate_true _ _ Hv).
Qed.

(** A NUL among the [max_len] bytes makes the text invalid. *)
Lemma g_utf8_validate_nul (pre rest : list byte) (max_len : N) :
  (length pre < N.to_nat max_len)%nat ->
  g_utf8_validate (pre ++ x00 :: rest) max_len = false.
Proof.
  intros Hlen.
  destruct (g_utf8_validate (pre ++ x00 :: rest) max_len) eqn:Hv; [|reflexivity].
  exfalso. apply g_utf8_validate_true in Hv as [_ Hnn].
  unfold nonnul in Hnn. rewrite Forall_lookup in Hnn.
  specialize (Hnn (length pre) x00).
  rewrite lookup_take_lt in Hnn by lia.
  rewrite list_lookup_middle in Hnn by reflexivity.
  specialize (Hnn eq_refl). discriminate.
Qed.

(** *** The buffer [utf8_name] step by step *)

Lemma strncpy_memset (size n : nat) (src : list byte) :
  (n <= size)%nat ->
  strncpy (memset x00 size) src n =
  cstr (take n src) ++ replicate (size - length (cstr (take n src))) x00.
Proof.
  intros Hn. unfold strncpy, memset.
  pose proof (cstr_length (take n src)) as Hc.
  rewrite length_take in Hc.
  rewrite drop_replicate, <- replicate_add.
  f_equal. f_equal. lia.
Qed.

(** The bytes that become a space are those from 0x80 on. *)
Lemma ascii_or_space_spec (c : byte) :
  ascii_or_space c = if u8 c <? 128 then c else x20.
Proof. unfold ascii_or_space. rewrite isascii_lt. reflexivity. Qed.

Lemma ascii_or_space_nonnul (c : byte) :
  is_nul c = false -> is_nul (ascii_or_space c) = false.
Proof. destruct c; vm_compute; congruence. Qed.

Lemma map_ascii_or_space_nonnul (s : list byte) :
  nonnul s -> nonnul (map ascii_or_space s).
Proof.
  induction 1; simpl; constructor; auto using ascii_or_space_nonnul.
Qed.

Lemma replace_non_ascii_app (s rest : list byte) :
  nonnul s ->
  replace_non_ascii (s ++ x00 :: rest) = map ascii_or_space s ++ x00 :: rest.
Proof.
  induction 1 as [|c s Hc _ IH]; simpl; [reflexivity|].
  rewrite Hc, IH. unfold ascii_or_space.
  destruct (isascii c); reflexivity.
Qed.

Lemma drop_leading_space_nonnul (s : list byte) :
  nonnul s -> nonnul (drop_leading_space s).
Proof.
  induction 1 as [|c s Hc Hs IH]; simpl; [constructor|].
  destruct (g_ascii_isspace c); [assumption | constructor; assumption].
Qed.

Lemma skip_space_app (s rest : list byte) :
  nonnul s ->
  skip_space (s ++ x00 :: rest) = drop_leading_space s ++ x00 :: rest.
Proof.
  induction 1 as [|c s Hc _ IH]; simpl; [reflexivity|].
  rewrite Hc. simpl. destruct (g_ascii_isspace c); [exact IH | reflexivity].
Qed.

Lemma g_strchug_app (s rest : list byte) :
  nonnul s ->
  exists rest', g_strchug (s ++ x00 :: rest) = drop_leading_space s ++ x00 :: rest'.
Proof.
  intros Hs. unfold g_strchug, memmove, strlen.
  rewrite skip_space_app by assumption.
  rewrite cstr_app_nul by (apply drop_leading_space_nonnul; assumption).
  set (d := drop_leading_space s).
  exists (drop (length d + 1) (s ++ x00 :: rest)).
  rewrite take_app_ge by lia.
  replace (length d + 1 - length d)%nat with 1%nat by lia.
  simpl. rewrite <- app_assoc. reflexivity.
Qed.

Lemma drop_trailing_space_snoc_space (s : list byte) (c : byte) :
  g_ascii_isspace c = true ->
  drop_trailing_space (s ++ [c]) = drop_trailing_space s.
Proof.
  intros Hc. unfold drop_trailing_space.
  rewrite rev_app_distr. simpl. rewrite Hc. reflexivity.
Qed.

Lemma drop_trailing_space_snoc_other (s : list byte) (c : byte) :
  g_ascii_isspace c = false ->
  drop_trailing_space (s ++ [c]) = s ++ [c].
Proof.
  intros Hc. unfold drop_trailing_space.
  rewrite rev_app_distr. simpl. rewrite Hc.
  simpl. rewrite rev_involutive. reflexivity.
Qed.

Lemma chomp_from_app (s : list byte) :
  forall rest, nonnul s ->
  exists rest', chomp_from (length s) (s ++ x00 :: rest) =
                drop_trailing_space s ++ x00 :: rest'.
Proof.
  induction s as [|c s IH] using rev_ind; intros rest Hs.
  - exists rest. reflexivity.
  - apply Forall_app in Hs as [Hs Hc].
    rewrite length_app. simpl length.
    replace (length s + 1)%nat with (S (length s)) by lia.
    cbn [chomp_from]. rewrite <- app_assoc. simpl app.
    rewrite list_lookup_middle by reflexivity.
    destruct (g_ascii_isspace c) eqn:Hsp.
    + rewrite insert_app_r_alt by lia.
      rewrite Nat.sub_diag. simpl.
      rewrite drop_trailing_space_snoc_space by assumption.
      apply IH. assumption.
    + exists rest.
      rewrite drop_trailing_space_snoc_other by assumption.
      rewrite <- app_assoc. reflexivity.
Qed.

Lemma drop_trailing_space_nonnul (s : list byte) :
  nonnul s -> nonnul (drop_trailing_space s).
Proof.
  intros Hs. unfold drop_trailing_space, nonnul.
  apply Forall_rev, drop_leading_space_nonnul, Forall_rev. assumption.
Qed.

Lemma strip_nonnul (s : list byte) : nonnul s -> nonnul (strip s).
Proof.
  intros Hs. apply drop_trailing_space_nonnul, drop_leading_space_nonnul, Hs.
Qed.

(** [g_strstrip] leaves the stripped string in the buffer. *)
Lemma g_strstrip_app (s rest : list byte) :
  nonnul s -> cstr (g_strstrip (s ++ x00 :: rest)) = strip s.
Proof.
  intros Hs. unfold g_strstrip, g_strchomp, strlen.
  destruct (g_strchug_app s rest Hs) as [rest1 ->].
  pose proof (drop_leading_space_nonnul s Hs) as Hd.
  rewrite cstr_app_nul by assumption.
  destruct (chomp_from_app _ rest1 Hd) as [rest2 ->].
  apply cstr_app_nul, strip_nonnul, Hs.
Qed.

(** *** The scan of g_utf8_validate against well-formed UTF-8 *)

(** The masks of [VALIDATE_BYTE] as ranges. *)
Lemma VALIDATE_BYTE_c0_80 (c : byte) :
  VALIDATE_BYTE 0xc0 0x80 c = in_range 0x80 0xbf c.
Proof. destruct c; vm_compute; reflexivity. Qed.

Lemma VALIDATE_BYTE_e0_a0 (c : byte) :
  VALIDATE_BYTE 0xe0 0xa0 c = in_range 0xa0 0xbf c.
Proof. destruct c; vm_compute; reflexivity. Qed.

Lemma VALIDATE_BYTE_e0_80 (c : byte) :
  VALIDATE_BYTE 0xe0 0x80 c = in_range 0x80 0x9f c.
Proof. destruct c; vm_compute; reflexivity. Qed.

Lemma VALIDATE_BYTE_f0_80 (c : byte) :
  VALIDATE_BYTE 0xf0 0x80 c = in_range 0x80 0x8f c.
Proof. destruct c; vm_compute; reflexivity. Qed.

Lemma VALIDATE_BYTE_c0_80_30 (c : byte) :
  VALIDATE_BYTE 0xc0 0x80 c && negb (N.land (u8 c) 0x30 =? 0) =
  in_range 0x90 0xbf c.
Proof. destruct c; vm_compute; reflexivity. Qed.

(** One step of [fast_validate_len], with its tests on bytes read as
    ranges. *)
Lemma fast_validate_len_cons (c0 : byte) (s1 : list byte) :
  fast_validate_len (c0 :: s1) =
  if in_range 0x01 0x7f c0 then S (fast_validate_len s1)
  else if in_range 0xc2 0xdf c0 then
    match s1 with
    | c1 :: s2 =>
      if in_range 0x80 0xbf c1 then (2 + fast_validate_len s2)%nat else 0%nat
    | _ => 0%nat
    end
  else if in_range 0xe0 0xef c0 then
    match s1 with
    | c1 :: c2 :: s3 =>
      if in_range (if u8 c0 =? 0xe0 then 0xa0 else 0x80)
                  (if u8 c0 =? 0xed then 0x9f else 0xbf) c1 &&
         in_range 0x80 0xbf c2
      then (3 + fast_validate_len s3)%nat else 0%nat
    | _ => 0%nat
    end
  else if in_range 0xf0 0xf4 c0 then
    match s1 with
    | c1 :: c2 :: c3 :: s4 =>
      if in_range (if u8 c0 =? 0xf0 then 0x90 else 0x80)
                  (if u8 c0 =? 0xf4 then 0x8f else 0xbf) c1 &&
         in_range 0x80 0xbf c2 && in_range 0x80 0xbf c3
      then (4 + fast_validate_len s4)%nat else 0%nat
    | _ => 0%nat
    end
  else 0%nat.
Proof.
  cbn [fast_validate_len].
  destruct s1 as [|c1 [|c2 [|c3 s4]]];
    rewrite ?VALIDATE_BYTE_c0_80_30, ?VALIDATE_BYTE_c0_80, ?VALIDATE_BYTE_e0_a0,
      ?VALIDATE_BYTE_e0_80, ?VALIDATE_BYTE_f0_80;
    destruct c0; reflexivity.
Qed.

Lemma in_range_nonnul (lo hi : N) (c : byte) :
  0 < lo -> in_range lo hi c = true -> is_nul c = false.
Proof.
  unfold in_range, is_nul. intros Hlo H.
  apply andb_true_iff in H as [H _]. apply N.leb_le in H.
  apply N.eqb_neq. lia.
Qed.

Local Ltac range_nonnul H :=
  eapply in_range_nonnul; [|exact H]; try destruct (_ =? _); lia.

Lemma in_range_ascii (c : byte) :
  in_range 0x01 0x7f c = in_range 0x00 0x7f c && negb (is_nul c).
Proof. destruct c; vm_compute; reflexivity. Qed.

(** The scan of [fast_validate_len] covers the whole window exactly when
    the window is well-formed UTF-8 and holds no NUL. *)
Lemma fast_validate_len_wellformed (n : nat) :
  forall s : list byte, (length s <= n)%nat ->
    fast_validate_len s = length s <->
    valid_utf8_spec s = true /\ nonnul s.
Proof.
  induction n as [|n IH]; intros s Hlen.
  - destruct s; [|simpl in Hlen; lia].
    split; [split; [reflexivity | constructor] | reflexivity].
  - destruct s as [|c0 s1];
      [split; [split; [reflexivity | constructor] | reflexivity]|].
    cbn [length] in Hlen.
    rewrite fast_validate_len_cons. cbn [valid_utf8_spec].
    rewrite in_range_ascii.
    assert (forall t, (length t <= length s1)%nat ->
              (fast_validate_len t <= length t)%nat /\
              (fast_validate_len t = length t <->
               valid_utf8_spec t = true /\ nonnul t)) as IH'.
    { intros t Ht. split; [|apply IH; lia].
      apply (fast_validate_len_spec _ t (le_n _)). }
    unfold nonnul in *.
    destruct (in_range 0 127 c0) eqn:Hascii.
    { destruct (is_nul c0) eqn:Hnul; cbn [andb negb].
      - split; [|intros [_ Hnn]; inversion Hnn; congruence].
        destruct (in_range 194 223 c0) eqn:E1;
          [exfalso; revert Hascii E1; destruct c0; vm_compute; congruence|].
        destruct (in_range 224 239 c0) eqn:E2;
          [exfalso; revert Hascii E2; destruct c0; vm_compute; congruence|].
        destruct (in_range 240 244 c0) eqn:E3;
          [exfalso; revert Hascii E3; destruct c0; vm_compute; congruence|].
        cbn [length]. lia.
      - destruct (IH' s1 (le_n _)) as [Hle Hiff]. cbn [length].
        split.
        + intros Heq. apply Nat.succ_inj in Heq. apply Hiff in Heq as [Hv Hnn].
          split; [exact Hv | constructor; assumption].
        + intros [Hv Hnn]. inversion Hnn; subst. f_equal. apply Hiff. tauto. }
    cbn [andb].
    destruct (in_range 194 223 c0) eqn:E1.
    { assert (is_nul c0 = false) as Hn0 by range_nonnul E1.
      destruct s1 as [|c1 s2].
      - split; [cbn [length]; lia | intros [? _]; discriminate].
      - destruct (IH' s2 ltac:(cbn [length]; lia)) as [Hle Hiff].
        destruct (in_range 128 191 c1) eqn:R1; cbn [andb length];
          [|split; [lia | intros [? _]; discriminate]].
        assert (is_nul c1 = false) as Hn1 by range_nonnul R1.
        split.
        + intros Heq. destruct Hiff as [Hiff _].
          destruct (Hiff ltac:(lia)) as [Hv Hnn].
          split; [exact Hv | repeat (constructor; [assumption|]); exact Hnn].
        + intros [Hv Hnn]. inversion Hnn as [|? ? _ Hnn1]; subst.
          inversion Hnn1; subst.
          destruct Hiff as [_ Hiff]. rewrite Hiff by tauto. reflexivity. }
    destruct (in_range 224 239 c0) eqn:E2.
    { assert (is_nul c0 = false) as Hn0 by range_nonnul E2.
      destruct s1 as [|c1 [|c2 s3]];
        try (split; [cbn [length]; lia | intros [? _]; discriminate]).
      destruct (IH' s3 ltac:(cbn [length]; lia)) as [Hle Hiff].
      match goal with
      | |- context [in_range ?lo ?hi c1] =>
        destruct (in_range lo hi c1) eqn:R1;
          [assert (is_nul c1 = false) as Hn1 by range_nonnul R1|]
      end;
        cbn [andb length];
        [|split; [lia | intros [? _]; discriminate]].
      destruct (in_range 128 191 c2) eqn:R2; cbn [andb length];
        [|split; [lia | intros [? _]; discriminate]].
      assert (is_nul c2 = false) as Hn2 by range_nonnul R2.
      split.
      + intros Heq. destruct Hiff as [Hiff _].
        destruct (Hiff ltac:(lia)) as [Hv Hnn].
        split; [exact Hv | repeat (constructor; [assumption|]); exact Hnn].
      + intros [Hv Hnn]. inversion Hnn as [|? ? _ Hnn1]; subst.
        inversion Hnn1 as [|? ? _ Hnn2]; subst. inversion Hnn2; subst.
        destruct Hiff as [_ Hiff]. rewrite Hiff by tauto. reflexivity. }
    destruct (in_range 240 244 c0) eqn:E3.
    { assert (is_nul c0 = false) as Hn0 by range_nonnul E3.
      destruct s1 as [|c1 [|c2 [|c3 s4]]];
        try (split; [cbn [length]; lia | intros [? _]; discriminate]).
      destruct (IH' s4 ltac:(cbn [length]; lia)) as [Hle Hiff].
      match goal with
      | |- context [in_range ?lo ?hi c1] =>
        destruct (in_range lo hi c1) eqn:R1;
          [assert (is_nul c1 = false) as Hn1 by range_nonnul R1|]
      end;
        cbn [andb length];
        [|split; [lia | intros [? _]; discriminate]].
      destruct (in_range 128 191 c2) eqn:R2; cbn [andb length];
        [|split; [lia | intros [? _]; discriminate]].
      destruct (in_range 128 191 c3) eqn:R3; cbn [andb length];
        [|split; [lia | intros [? _]; discriminate]].
      assert (is_nul c2 = false) as Hn2 by range_nonnul R2.
      assert (is_nul c3 = false) as Hn3 by range_nonnul R3.
      split.
      + intros Heq. destruct Hiff as [Hiff _].
        destruct (Hiff ltac:(lia)) as [Hv Hnn].
        split; [exact Hv | repeat (constructor; [assumption|]); exact Hnn].
      + intros [Hv Hnn]. inversion Hnn as [|? ? _ Hnn1]; subst.
        inversion Hnn1 as [|? ? _ Hnn2]; subst.
        inversion Hnn2 as [|? ? _ Hnn3]; subst. inversion Hnn3; subst.
        destruct Hiff as [_ Hiff]. rewrite Hiff by tauto. reflexivity. }
    split; [cbn [length]; lia | intros [? _]; discriminate].
Qed.

(** [g_utf8_validate] accepts the [max_len] bytes exactly when they are
    well-formed UTF-8 and none of them is NUL. *)
Lemma g_utf8_validate_wellformed (str : list byte) (max_len : N) :
  (N.to_nat max_len <= length str)%nat ->
  g_utf8_validate str max_len = true <->
  valid_utf8_spec (take (N.to_nat max_len) str) = true /\
  nonnul (take (N.to_nat max_len) str).
Proof.
  intros Hlen. unfold g_utf8_validate. rewrite Nat.eqb_eq.
  rewrite <- (fast_validate_len_wellformed _ _ (le_n _)).
  rewrite length_take. replace (N.to_nat max_len `min` length str)%nat
    with (N.to_nat max_len) by lia.
  reflexivity.
Qed.

End Strings.

(** ** name2utf8 *)

Section Name2utf8.
Import LibC GLib.
Context {hdr : Headers}.

(** Valid UTF-8 is returned as it is. *)
Lemma name2utf8_valid (name : list byte) (len : N) :
  g_utf8_validate name len = true ->
  name2utf8 name len = take (N.to_nat len) name.
Proof.
  intros Hv. unfold name2utf8. rewrite Hv. apply g_strndup_valid, Hv.
Qed.

(** Anything else goes through the buffer [utf8_name]. *)
Lemma name2utf8_invalid (name : list byte) (len : N) :
  g_utf8_validate name len = false ->
  name2utf8 name len = strip (map ascii_or_space (fallback_bytes name len)).
Proof.
  intros Hv. unfold name2utf8, fallback_bytes, g_strdup. rewrite Hv.
  set (n := N.to_nat (N.min len (sizeof_utf8_name - 1))).
  assert (n < N.to_nat sizeof_utf8_name)%nat as Hn
    by (unfold n, sizeof_utf8_name; lia).
  rewrite strncpy_memset by lia.
  set (s := cstr (take n name)).
  assert (length s <= n)%nat as Hs.
  { unfold s. etransitivity; [apply cstr_length|].
    rewrite length_take. lia. }
  destruct (N.to_nat sizeof_utf8_name - length s)%nat as [|k] eqn:Hk; [lia|].
  simpl replicate.
  rewrite replace_non_ascii_app by apply cstr_nonnul.
  apply g_strstrip_app, map_ascii_or_space_nonnul, cstr_nonnul.
Qed.

End Name2utf8.

(** ** The handlers and the state *)

Section Handlers.
Import LibC GLib.
Context {hdr : Headers}.

Local Ltac run :=
  unfold bind, ret, emit, load, store, get_devices, set_devices, deref;
  simpl.

Lemma cmp_device_eq (a b : ptr) (st : state) :
  cmp_device a b st =
  match heap st !! a with
  | Some g => Some (if gas_device g =? b then 0%Z else (-1)%Z, st)
  | None => None
  end.
Proof. unfold cmp_device. run. destruct (heap st !! a); reflexivity. Qed.

(** *** The lookup in [devices] *)

Lemma g_slist_find_custom_cons (a : ptr) (l : list ptr) (data : ptr) (st : state) :
  g_slist_find_custom (a :: l) data st =
  match heap st !! a with
  | Some g => if gas_device g =? data then Some (Some a, st)
              else g_slist_find_custom l data st
  | None => None
  end.
Proof.
  cbn [g_slist_find_custom]. unfold bind. rewrite cmp_device_eq.
  destruct (heap st !! a) as [g|]; [|reflexivity].
  destruct (gas_device g =? data); reflexivity.
Qed.

(** The lookup only reads; it answers with a listed handler of the
    device, or with nothing when no listed handler is for the device. *)
Lemma g_slist_find_custom_spec (l : list ptr) (data : ptr) (st : state) r st' :
  g_slist_find_custom l data st = Some (r, st') ->
  st' = st /\
  match r with
  | Some p => p ∈ l /\ exists g, heap st !! p = Some g /\ gas_device g = data
  | None => forall p g, p ∈ l -> heap st !! p = Some g -> gas_device g <> data
  end.
Proof.
  induction l as [|a l IH].
  - simpl. unfold ret. intros [= <- <-]. split; [reflexivity|].
    intros p g Hp. inversion Hp.
  - rewrite g_slist_find_custom_cons.
    destruct (heap st !! a) as [g|] eqn:Ha; [|discriminate].
    destruct (gas_device g =? data) eqn:Hd.
    + intros [= <- <-]. split; [reflexivity|].
      split; [left|]. exists g. split; [assumption|].
      apply N.eqb_eq, Hd.
    + intros Hf. destruct (IH Hf) as [-> Hr]. split; [reflexivity|].
      destruct r as [p|].
      * destruct Hr as [Hp Hg]. split; [right; assumption | assumption].
      * intros p g' Hp Hg'. apply elem_of_cons in Hp as [-> | Hp].
        -- rewrite Ha in Hg'. injection Hg' as <-. apply N.eqb_neq, Hd.
        -- eapply Hr; eassumption.
Qed.

(** The lookup is defined when every listed pointer is live. *)
Lemma g_slist_find_custom_total (l : list ptr) (data : ptr) (st : state) :
  (forall p, p ∈ l -> is_Some (heap st !! p)) ->
  exists r, g_slist_find_custom l data st = Some (r, st).
Proof.
  induction l as [|a l IH]; intros Hlive.
  - exists None. reflexivity.
  - rewrite g_slist_find_custom_cons.
    destruct (Hlive a) as [g Hg]; [left|]. rewrite Hg.
    destruct (gas_device g =? data).
    + eexists. reflexivity.
    + apply IH. intros p Hp. apply Hlive. right. assumption.
Qed.

Lemma g_slist_find_custom_handler (st : state) (device p : ptr) :
  devices_live st -> at_most_one_handler st -> handler_of st device p ->
  g_slist_find_custom (devices st) device st = Some (Some p, st).
Proof.
  intros Hlive [_ Huniq] Hp.
  destruct (g_slist_find_custom_total (devices st) device st Hlive) as [r Hr].
  rewrite Hr. destruct (g_slist_find_custom_spec _ _ _ _ _ Hr) as [_ Hspec].
  destruct r as [q|].
  - destruct Hspec as [Hq Hg].
    rewrite (Huniq device q p); [reflexivity | split; assumption | assumption].
  - destruct Hp as [Hp (g & Hg & Hd)]. exfalso. eapply Hspec; eassumption.
Qed.

Lemma g_slist_find_custom_no_handler (st : state) (device : ptr) :
  devices_live st -> (forall p, ~ handler_of st device p) ->
  g_slist_find_custom (devices st) device st = Some (None, st).
Proof.
  intros Hlive Hno.
  destruct (g_slist_find_custom_total (devices st) device st Hlive) as [r Hr].
  rewrite Hr. destruct (g_slist_find_custom_spec _ _ _ _ _ Hr) as [_ Hspec].
  destruct r as [q|]; [|reflexivity].
  exfalso. apply (Hno q). exact Hspec.
Qed.

(** *** Traces *)

Lemma append_trace_nil (st : state) : append_trace st [] = st.
Proof. destruct st. unfold append_trace. simpl. rewrite app_nil_r. reflexivity. Qed.

Lemma append_trace_app (st : state) (a b : list call) :
  append_trace (append_trace st a) b = append_trace st (a ++ b).
Proof. unfold append_trace. simpl. rewrite app_assoc. reflexivity. Qed.

(** *** Handling a located service only issues calls *)

Lemma handle_device_name_frame e (gas : ptr) (value_handle : N) st g :
  heap st !! gas = Some g ->
  exists tr, handle_device_name e gas value_handle st = Some (tt, append_trace st tr).
Proof.
  intros Hg. unfold handle_device_name. run. rewrite Hg.
  destruct (bt_gatt_client_read_long_value e (gas_client g) value_handle 0 =? 0).
  - eexists. unfold append_trace. simpl. rewrite <- app_assoc. reflexivity.
  - eexists. reflexivity.
Qed.

Lemma handle_appearance_frame e (gas : ptr) (value_handle : N) st g :
  heap st !! gas = Some g ->
  exists tr, handle_appearance e gas value_handle st = Some (tt, append_trace st tr).
Proof.
  intros Hg. unfold handle_appearance. run. rewrite Hg.
  destruct (bt_gatt_client_read_value e (gas_client g) value_handle =? 0).
  - eexists. unfold append_trace. simpl. rewrite <- app_assoc. reflexivity.
  - eexists. reflexivity.
Qed.

Lemma handle_characteristic_frame e (attr gas : ptr) st g :
  heap st !! gas = Some g ->
  exists tr, handle_characteristic e attr gas st = Some (tt, append_trace st tr).
Proof.
  intros Hg. unfold handle_characteristic.
  destruct (gatt_db_attribute_get_char_data e attr) as [[value_handle uuid]|].
  - destruct (uuid_cmp GATT_CHARAC_DEVICE_NAME uuid).
    + eapply handle_device_name_frame, Hg.
    + destruct (uuid_cmp GATT_CHARAC_APPEARANCE uuid).
      * eapply handle_appearance_frame, Hg.
      * eexists. reflexivity.
  - eexists. reflexivity.
Qed.

Lemma foreach_frame {A} (l : list A) (f : A -> M unit) (gas : ptr) g :
  (forall x st, heap st !! gas = Some g ->
                exists tr, f x st = Some (tt, append_trace st tr)) ->
  forall st, heap st !! gas = Some g ->
  exists tr, foreach l f st = Some (tt, append_trace st tr).
Proof.
  intros Hf. induction l as [|x l IH]; intros st Hg.
  - exists []. simpl. unfold ret. rewrite append_trace_nil. reflexivity.
  - destruct (Hf x st Hg) as [tr1 H1].
    destruct (IH (append_trace st tr1) Hg) as [tr2 H2].
    exists (tr1 ++ tr2). cbn [foreach]. unfold bind. rewrite H1, H2.
    rewrite append_trace_app. reflexivity.
Qed.

Lemma handle_gap_service_frame e (gas : ptr) st g :
  heap st !! gas = Some g ->
  exists tr, handle_gap_service e gas st = Some (tt, append_trace st tr).
Proof.
  intros Hg. unfold handle_gap_service, bind, load. rewrite Hg.
  apply (foreach_frame _ _ gas g); [|exact Hg].
  intros attr st0 Hg0. eapply handle_characteristic_frame, Hg0.
Qed.

(** *** The read completions *)

Lemma read_device_name_cb_eq (success : bool) (att_ecode : N)
    (value : list byte) (length : N) (user_data : ptr) st g :
  heap st !! user_data = Some g ->
  read_device_name_cb success att_ecode value length user_data st =
  Some (tt,
    if negb success then
      append_trace st [ev_DBG (Reading_device_name_failed att_ecode)]
    else if length =? 0 then st
    else append_trace st
           [ev_DBG (GAP_Device_Name (name2utf8 value length));
            ev_btd_device_device_set_name (gas_device g)
              (name2utf8 value length)]).
Proof.
  intros Hg. unfold read_device_name_cb.
  destruct success; simpl; [|reflexivity].
  destruct (length =? 0); [reflexivity|].
  run. rewrite Hg. unfold append_trace. simpl.
  rewrite <- app_assoc. reflexivity.
Qed.

(** *** The database notifications *)

Lemma service_removed_eq (attr user_data : ptr) st g :
  heap st !! user_data = Some g ->
  service_removed attr user_data st =
  Some (tt,
    if gas_attr g =? attr then
      poke (append_trace st [ev_DBG GAP_service_removed]) user_data
           (with_attr g NULL)
    else st).
Proof.
  intros Hg. unfold service_removed. run. rewrite Hg.
  destruct (gas_attr g =? attr); simpl; [|reflexivity].
  rewrite Hg. reflexivity.
Qed.

Lemma service_added_eq e (attr user_data : ptr) st g :
  heap st !! user_data = Some g ->
  exists tr,
  service_added e attr user_data st =
  Some (tt,
    if negb (bt_gatt_client_is_ready e (gas_client g)) then st
    else if negb (bt_uuid_cmp (gatt_db_attribute_get_service_uuid e attr)
                              (bt_uuid16_create GAP_UUID16) =? 0)%Z then st
    else if negb (gas_attr g =? NULL) then
      append_trace st [ev_error More_than_one_GAP_service_added]
    else
      append_trace (poke st user_data (with_attr g attr))
                   (ev_DBG GAP_service_added :: tr)).
Proof.
  intros Hg. unfold service_added, bind at 1, load at 1. rewrite Hg.
  destruct (bt_gatt_client_is_ready e (gas_client g)); simpl;
    [|exists []; reflexivity].
  destruct (bt_uuid_cmp _ _ =? 0)%Z; simpl; [|exists []; reflexivity].
  destruct (gas_attr g =? NULL); simpl; [|exists []; reflexivity].
  run. rewrite Hg.
  set (st1 := mk_state _ _ _).
  destruct (handle_gap_service_frame e user_data st1 (with_attr g attr))
    as [tr Htr]; [apply lookup_insert_eq|].
  exists tr. rewrite Htr. unfold st1, append_trace, poke. simpl.
  rewrite <- app_assoc. reflexivity.
Qed.

End Handlers.

(** ** The read completions *)

Section ReadCompletions.
Import LibC GLib.
Context {hdr : Headers}.

Lemma u8_lt_256 (c : byte) : u8 c < 256.
Proof. unfold u8. pose proof (Byte.to_N_bounded c). lia. Qed.

Lemma land_byte_shifted (a b : N) : a < 256 -> N.land a (256 * b) = 0.
Proof.
  intros Ha. apply N.bits_inj. intros k.
  rewrite N.land_spec, N.bits_0.
  destruct (N.lt_ge_cases k 8) as [Hk | Hk].
  - rewrite (N.mul_comm 256). change 256 with (2 ^ 8).
    rewrite N.mul_pow2_bits_low by assumption. apply andb_false_r.
  - replace (N.testbit a k) with false; [reflexivity|].
    symmetry. destruct (N.eq_dec a 0) as [-> | Hz]; [apply N.bits_0|].
    apply N.bits_above_log2. apply N.log2_lt_pow2; [lia|].
    eapply N.lt_le_trans; [eassumption|].
    change 256 with (2 ^ 8). apply N.pow_le_mono_r; lia.
Qed.

(** [get_le16] is the little-endian value of the first two bytes. *)
Lemma get_le16_value (b0 b1 : byte) (rest : list byte) :
  get_le16 (b0 :: b1 :: rest) = Some (u8 b0 + 256 * u8 b1).
Proof.
  unfold get_le16. f_equal.
  rewrite N.shiftl_mul_pow2.
  change (2 ^ 8) with 256. rewrite (N.mul_comm (u8 b1)).
  pose proof (land_byte_shifted (u8 b0) (u8 b1) (u8_lt_256 b0)) as Hl.
  rewrite <- N.lxor_lor by assumption.
  symmetry. apply N.add_nocarry_lxor. assumption.
Qed.

Lemma fast_validate_len_ff (l : list byte) : fast_validate_len (xff :: l) = 0%nat.
Proof. reflexivity. Qed.

Lemma map_replicate_ff (k : nat) :
  map ascii_or_space (replicate k xff) = replicate k x20.
Proof. induction k as [|k IH]; simpl; [|rewrite IH]; reflexivity. Qed.

Lemma drop_leading_space_spaces (k : nat) :
  drop_leading_space (replicate k x20) = [].
Proof. induction k as [|k IH]; simpl; [reflexivity | exact IH]. Qed.

(** C4: a successful Appearance read updates the registry exactly when
    the reported length is 2, with the two bytes read as a little-endian
    16-bit unsigned integer ([0x40, 0x03] gives 0x0340); with any other
    length the only call is the log line for the malformed value. No
    [struct gas] changes. *)
Theorem read_appearance_cb_success (att_ecode : N) (value : list byte)
    (len : N) (user_data : ptr) (st : state) (g : gas) :
  heap st !! user_data = Some g ->
  (N.to_nat len <= length value)%nat ->
  exists new,
    read_appearance_cb true att_ecode value len user_data st
      = Some (tt, append_trace st new) /\
    (Exists (fun c => is_registry_call c = true) new <-> len = 2) /\
    (len = 2 ->
     exists b0 b1 rest, value = b0 :: b1 :: rest /\
       u8 b0 + 256 * u8 b1 < 65536 /\
       new = [ev_DBG (GAP_Appearance (u8 b0 + 256 * u8 b1));
              ev_device_set_appearance (gas_device g) (u8 b0 + 256 * u8 b1)]) /\
    (len <> 2 -> new = [ev_DBG Malformed_appearance_value]) /\
    get_le16 [x40; x03] = Some 0x0340.
Proof.
  intros Hg Hlen. unfold read_appearance_cb. cbn [negb].
  destruct (len =? 2) eqn:Hl; cbn [negb].
  - apply N.eqb_eq in Hl. subst len.
    destruct value as [|b0 [|b1 rest]]; simpl in Hlen; try lia.
    unfold bind, deref. rewrite get_le16_value.
    unfold emit, load. simpl. rewrite Hg.
    eexists. split.
    { unfold append_trace. simpl. rewrite <- app_assoc. reflexivity. }
    split; [split; [reflexivity|]|].
    { intros _. apply Exists_cons_tl, Exists_cons_hd. reflexivity. }
    split.
    { intros _. exists b0, b1, rest. split; [reflexivity|].
      split; [|reflexivity].
      pose proof (u8_lt_256 b0). pose proof (u8_lt_256 b1). lia. }
    split; [intros Hne; congruence | reflexivity].
  - apply N.eqb_neq in Hl.
    exists [ev_DBG Malformed_appearance_value].
    split; [reflexivity|].
    split.
    { split; [|intros Heq; congruence].
      intros Hex. apply Exists_cons in Hex as [Hex | Hex];
        [discriminate | inversion Hex]. }
    split; [intros Heq; congruence|].
    split; [reflexivity | reflexivity].
Qed.

(** C5: a Device Name read that failed, or that succeeded with length 0,
    makes no call into the device registry and changes no [struct gas]:
    the state is the one before, with the log line of the failure added in
    the first case. This holds for whatever [user_data] points to. *)
Theorem read_device_name_cb_nothing_to_set (success : bool) (att_ecode : N)
    (value : list byte) (len : N) (user_data : ptr) (st : state) :
  success = false \/ len = 0 ->
  exists new,
    read_device_name_cb success att_ecode value len user_data st
      = Some (tt, append_trace st new) /\
    new = (if success then []
           else [ev_DBG (Reading_device_name_failed att_ecode)]) /\
    Forall (fun c => is_registry_call c = false) new /\
    heap (append_trace st new) = heap st /\
    devices (append_trace st new) = devices st.
Proof.
  intros Hcase. unfold read_device_name_cb.
  destruct success; cbn [negb].
  - destruct Hcase as [Hs | ->]; [discriminate|]. simpl.
    exists []. unfold ret. rewrite append_trace_nil.
    repeat split. constructor.
  - eexists. split; [reflexivity|]. split; [reflexivity|].
    split; [|split; reflexivity].
    constructor; [reflexivity | constructor].
Qed.

(** C2 (amended): a Device Name read whose payload is not valid UTF-8
    propagates the name made of the bytes before the first NUL among the
    first [sizeof(utf8_name) - 1] of the payload, with every byte that is
    not ASCII (0x80 and above) replaced by a space and the white space
    stripped at both ends; ASCII control bytes are kept. With room for
    three bytes, [0xFF, 0x41, 0x42, 0xFF] gives "AB". *)
Theorem read_device_name_cb_invalid_utf8 (att_ecode : N) (value : list byte)
    (len : N) (user_data : ptr) (st : state) (g : gas) :
  heap st !! user_data = Some g ->
  len <> 0 ->
  g_utf8_validate value len = false ->
  let name := strip (map ascii_or_space (fallback_bytes value len)) in
  name2utf8 value len = name /\
  read_device_name_cb true att_ecode value len user_data st =
    Some (tt, append_trace st
                [ev_DBG (GAP_Device_Name name);
                 ev_btd_device_device_set_name (gas_device g) name]) /\
  (forall c, ascii_or_space c = if u8 c <? 128 then c else x20) /\
  (2 <= HCI_MAX_NAME_LENGTH ->
   g_utf8_validate [xff; x41; x42; xff] 4 = false /\
   name2utf8 [xff; x41; x42; xff] 4 = [x41; x42]).
Proof.
  intros Hg Hlen Hv name.
  assert (name2utf8 value len = name) as Hname by (apply name2utf8_invalid, Hv).
  split; [exact Hname|]. split; [|split; [exact ascii_or_space_spec|]].
  - rewrite (read_device_name_cb_eq _ _ _ _ _ _ _ Hg). cbn [negb].
    apply N.eqb_neq in Hlen. rewrite Hlen, Hname. reflexivity.
  - intros Hmax. split; [reflexivity|].
    rewrite name2utf8_invalid by reflexivity. unfold fallback_bytes.
    assert (N.to_nat (N.min 4 (sizeof_utf8_name - 1)) = 3%nat \/
            N.to_nat (N.min 4 (sizeof_utf8_name - 1)) = 4%nat) as [-> | ->]
      by (unfold sizeof_utf8_name; lia); reflexivity.
Qed.

(** C3: a Device Name read whose payload is valid UTF-8 over the reported
    length L, and has no zero byte among its L bytes, is accepted by
    [g_utf8_validate] and propagates exactly the first L bytes of the
    payload: nothing is replaced and nothing is stripped. *)
Theorem read_device_name_cb_valid_utf8 (att_ecode : N) (value : list byte)
    (len : N) (user_data : ptr) (st : state) (g : gas) :
  heap st !! user_data = Some g ->
  len <> 0 ->
  (N.to_nat len <= length value)%nat ->
  valid_utf8_spec (take (N.to_nat len) value) = true ->
  nonnul (take (N.to_nat len) value) ->
  g_utf8_validate value len = true /\
  name2utf8 value len = take (N.to_nat len) value /\
  length (name2utf8 value len) = N.to_nat len /\
  read_device_name_cb true att_ecode value len user_data st =
    Some (tt, append_trace st
                [ev_DBG (GAP_Device_Name (take (N.to_nat len) value));
                 ev_btd_device_device_set_name (gas_device g)
                   (take (N.to_nat len) value)]).
Proof.
  intros Hg Hlen Hbuf Hwf Hnn.
  assert (g_utf8_validate value len = true) as Hv
    by (apply g_utf8_validate_wellformed; [exact Hbuf | split; assumption]).
  pose proof (name2utf8_valid _ _ Hv) as Hname.
  split; [exact Hv|]. split; [exact Hname|]. split.
  - rewrite Hname. apply (g_utf8_validate_true _ _ Hv).
  - rewrite (read_device_name_cb_eq _ _ _ _ _ _ _ Hg). cbn [negb].
    apply N.eqb_neq in Hlen. rewrite Hlen, Hname. reflexivity.
Qed.

(** C9: a payload of [n] bytes 0xFF, for any [n] other than 0, is not
    valid UTF-8 and has no byte that survives: the decoded name is empty,
    and the empty name is pushed into the device registry. *)
Theorem read_device_name_cb_empty_name (n : nat) (att_ecode : N)
    (user_data : ptr) (st : state) (g : gas) :
  heap st !! user_data = Some g ->
  n <> 0%nat ->
  g_utf8_validate (replicate n xff) (N.of_nat n) = false /\
  name2utf8 (replicate n xff) (N.of_nat n) = [] /\
  read_device_name_cb true att_ecode (replicate n xff) (N.of_nat n)
                      user_data st =
    Some (tt, append_trace st
                [ev_DBG (GAP_Device_Name []);
                 ev_btd_device_device_set_name (gas_device g) []]).
Proof.
  intros Hg Hn.
  assert (g_utf8_validate (replicate n xff) (N.of_nat n) = false) as Hv.
  { unfold g_utf8_validate. rewrite Nat2N.id.
    destruct n as [|n]; [congruence|].
    simpl take. rewrite fast_validate_len_ff. reflexivity. }
  assert (name2utf8 (replicate n xff) (N.of_nat n) = []) as Hname.
  { rewrite name2utf8_invalid by exact Hv. unfold fallback_bytes.
    rewrite take_replicate.
    rewrite cstr_id by (apply Forall_replicate; reflexivity).
    rewrite map_replicate_ff. unfold strip.
    rewrite drop_leading_space_spaces. reflexivity. }
  split; [exact Hv|]. split; [exact Hname|].
  rewrite (read_device_name_cb_eq _ _ _ _ _ _ _ Hg). cbn [negb].
  replace (N.of_nat n =? 0) with false by (symmetry; apply N.eqb_neq; lia).
  rewrite Hname. reflexivity.
Qed.

(** C10: when the payload has a NUL byte before the reported length, it is
    not valid UTF-8, and the name comes from the bytes before the first
    NUL alone: the NUL and whatever follows it are discarded. *)
Theorem read_device_name_cb_embedded_nul (att_ecode : N)
    (pre rest : list byte) (len : N) (user_data : ptr) (st : state) (g : gas) :
  heap st !! user_data = Some g ->
  nonnul pre ->
  (length pre < N.to_nat len)%nat ->
  let name :=
    strip (map ascii_or_space (take (N.to_nat (sizeof_utf8_name - 1)) pre)) in
  g_utf8_validate (pre ++ x00 :: rest) len = false /\
  name2utf8 (pre ++ x00 :: rest) len = name /\
  (forall rest', name2utf8 (pre ++ x00 :: rest') len = name) /\
  read_device_name_cb true att_ecode (pre ++ x00 :: rest) len user_data st =
    Some (tt, append_trace st
                [ev_DBG (GAP_Device_Name name);
                 ev_btd_device_device_set_name (gas_device g) name]).
Proof.
  intros Hg Hpre Hlen name.
  assert (forall rest', name2utf8 (pre ++ x00 :: rest') len = name) as Hname.
  { intros rest'.
    rewrite name2utf8_invalid by (apply g_utf8_validate_nul, Hlen).
    unfold fallback_bytes. rewrite cstr_take_app_nul by exact Hpre.
    unfold name. f_equal. f_equal.
    destruct (N.le_gt_cases len (sizeof_utf8_name - 1)) as [Hle | Hgt].
    - rewrite N.min_l by exact Hle.
      rewrite !take_ge by lia. reflexivity.
    - rewrite N.min_r by lia. reflexivity. }
  split; [apply g_utf8_validate_nul, Hlen|].
  split; [apply Hname|]. split; [exact Hname|].
  rewrite (read_device_name_cb_eq _ _ _ _ _ _ _ Hg). cbn [negb].
  replace (len =? 0) with false by (symmetry; apply N.eqb_neq; lia).
  rewrite Hname. reflexivity.
Qed.

End ReadCompletions.

(** ** One handler per device *)

Section Invariant.
Import LibC GLib.
Context {hdr : Headers}.

Local Ltac run :=
  unfold bind, ret, emit, load, store, get_devices, set_devices, deref;
  simpl.

Lemma same_handlers_refl (st : state) : same_handlers st st.
Proof. split; reflexivity. Qed.

Lemma same_handlers_trans (st1 st2 st3 : state) :
  same_handlers st1 st2 -> same_handlers st2 st3 -> same_handlers st1 st3.
Proof.
  intros [Hd1 Hh1] [Hd2 Hh2]. split; [congruence|].
  intros p. rewrite Hh2. apply Hh1.
Qed.

Lemma same_handlers_append_trace (st : state) (tr : list call) :
  same_handlers st (append_trace st tr).
Proof. split; reflexivity. Qed.

Lemma same_handlers_poke (st : state) (p : ptr) (g g' : gas) :
  heap st !! p = Some g -> gas_device g' = gas_device g ->
  same_handlers st (poke st p g').
Proof.
  intros Hg Hd. split; [reflexivity|]. intros q.
  unfold poke. cbn [heap].
  destruct (decide (p = q)) as [<- | Hne].
  - rewrite lookup_insert_eq, Hg. cbn. congruence.
  - rewrite lookup_insert_ne by assumption. reflexivity.
Qed.

Lemma handler_of_same (st st' : state) (device p : ptr) :
  same_handlers st st' -> handler_of st' device p -> handler_of st device p.
Proof.
  intros [Hd Hh] [Hp (g & Hg & Hdev)]. split; [rewrite <- Hd; exact Hp|].
  specialize (Hh p). rewrite Hg in Hh. simpl in Hh.
  destruct (heap st !! p) as [g0|]; [|discriminate].
  exists g0. split; [reflexivity|]. simpl in Hh. congruence.
Qed.

Lemma devices_live_same (st st' : state) :
  same_handlers st st' -> devices_live st -> devices_live st'.
Proof.
  intros [Hd Hh] Hlive p Hp. rewrite Hd in Hp.
  destruct (Hlive p Hp) as [g Hg]. specialize (Hh p). rewrite Hg in Hh.
  destruct (heap st' !! p); [eexists; reflexivity | discriminate].
Qed.

Lemma at_most_one_handler_same (st st' : state) :
  same_handlers st st' -> at_most_one_handler st -> at_most_one_handler st'.
Proof.
  intros Hsame [Hnd Huniq]. split; [rewrite (proj1 Hsame); exact Hnd|].
  intros device p q Hp Hq.
  apply (Huniq device); eapply handler_of_same; eassumption.
Qed.

(** *** Each entry keeps the handlers, apart from probe and remove *)

Lemma g_slist_find_custom_heap (l : list ptr) (data : ptr) (st1 st2 : state) r :
  heap st2 = heap st1 ->
  g_slist_find_custom l data st1 = Some (r, st1) ->
  g_slist_find_custom l data st2 = Some (r, st2).
Proof.
  intros Hh. induction l as [|a l IH].
  - simpl. unfold ret. intros [= <-]. reflexivity.
  - rewrite !g_slist_find_custom_cons, Hh.
    destruct (heap st1 !! a) as [g|]; [|discriminate].
    destruct (gas_device g =? data); [|exact IH].
    intros [= <-]. reflexivity.
Qed.

Lemma with_attr_id (g : gas) : with_attr g (gas_attr g) = g.
Proof. destruct g. reflexivity. Qed.

Lemma poke_id (st : state) (p : ptr) (g : gas) :
  heap st !! p = Some g -> poke st p g = st.
Proof.
  intros Hg. destruct st as [h ds tr]. unfold poke. simpl in *.
  rewrite insert_id by exact Hg. reflexivity.
Qed.

Lemma foreach_gap_service_eq e (attr gas : ptr) st g :
  heap st !! gas = Some g ->
  foreach_gap_service e attr gas st =
  if gas_attr g =? NULL
  then handle_gap_service e gas (poke st gas (with_attr g attr))
  else Some (tt, append_trace st [ev_error More_than_one_GAP_service_exists]).
Proof.
  intros Hg. unfold foreach_gap_service, bind at 1, load at 1. rewrite Hg.
  destruct (gas_attr g =? NULL); [|reflexivity].
  cbn [negb]. unfold bind, store. rewrite Hg. reflexivity.
Qed.

(** The scan of [gap_driver_accept]: the handler ends up bound to the
    first service visited, unless it was bound before. *)
Lemma foreach_gap_service_scan e (gas : ptr) (found : list ptr) :
  forall st g, heap st !! gas = Some g ->
  exists tr,
    foreach found (fun attr => foreach_gap_service e attr gas) st =
    Some (tt, append_trace
                (poke st gas (with_attr g (scan_result (gas_attr g) found)))
                tr).
Proof.
  induction found as [|a l IH]; intros st g Hg.
  - exists []. simpl. unfold ret, scan_result. rewrite append_trace_nil.
    cbn [first_bound].
    assert ((if gas_attr g =? NULL then NULL else gas_attr g) = gas_attr g) as ->.
    { destruct (gas_attr g =? NULL) eqn:E; [|reflexivity].
      apply N.eqb_eq in E. congruence. }
    rewrite with_attr_id, poke_id by exact Hg. reflexivity.
  - cbn [foreach]. unfold bind at 1.
    rewrite (foreach_gap_service_eq _ _ _ _ _ Hg).
    unfold scan_result. cbn [first_bound].
    destruct (gas_attr g =? NULL) eqn:E.
    + set (st1 := poke st gas (with_attr g a)).
      assert (heap st1 !! gas = Some (with_attr g a)) as Hg1
        by apply lookup_insert_eq.
      destruct (handle_gap_service_frame e gas st1 _ Hg1) as [tr1 ->].
      destruct (IH (append_trace st1 tr1) _ Hg1) as [tr2 ->].
      exists (tr1 ++ tr2). unfold scan_result. simpl gas_attr.
      f_equal. f_equal. unfold st1, append_trace, poke. simpl.
      rewrite insert_insert_eq, app_assoc. reflexivity.
    + destruct (IH (append_trace st [ev_error More_than_one_GAP_service_exists])
                   g Hg) as [tr2 ->].
      exists (ev_error More_than_one_GAP_service_exists :: tr2).
      unfold scan_result. rewrite E.
      f_equal. f_equal. unfold append_trace, poke. simpl.
      rewrite <- app_assoc. reflexivity.
Qed.

(** *** Running an entry step by step *)

Lemma bind_emit {A} (c : call) (k : unit -> M A) (st : state) :
  bind (emit c) k st = k tt (append_trace st [c]).
Proof. reflexivity. Qed.

Lemma bind_get_devices {A} (k : list ptr -> M A) (st : state) :
  bind get_devices k st = k (devices st) st.
Proof. reflexivity. Qed.

Lemma bind_load {A} (p : ptr) (k : gas -> M A) (st : state) g :
  heap st !! p = Some g -> bind (load p) k st = k g st.
Proof. intros Hg. unfold bind, load. rewrite Hg. reflexivity. Qed.

Lemma bind_store {A} (p : ptr) (g' : gas) (k : unit -> M A) (st : state) g :
  heap st !! p = Some g -> bind (store p g') k st = k tt (poke st p g').
Proof. intros Hg. unfold bind, store. rewrite Hg. reflexivity. Qed.

Lemma bind_set_devices {A} (l : list ptr) (k : unit -> M A) (st : state) :
  bind (set_devices l) k st = k tt (mk_state (heap st) l (trace st)).
Proof. reflexivity. Qed.

Lemma bind_result {A B} (m : M A) (k : A -> M B) (st st1 : state) a :
  m st = Some (a, st1) -> bind m k st = k a st1.
Proof. intros Hm. unfold bind. rewrite Hm. reflexivity. Qed.

Lemma heap_poke_eq (st : state) (p : ptr) (g : gas) :
  heap (poke st p g) !! p = Some g.
Proof. apply lookup_insert_eq. Qed.

(** [gap_driver_accept] when the lookup finds the handler [gas]. *)
Lemma gap_driver_accept_found e (service : ptr) st (gas : ptr) g :
  let device := btd_service_get_device e service in
  let db := btd_device_get_gatt_db e device in
  let client := btd_device_get_gatt_client e device in
  let found := gatt_db_foreach_service e db (bt_uuid16_create GAP_UUID16) in
  g_slist_find_custom (devices st) device st = Some (Some gas, st) ->
  heap st !! gas = Some g ->
  exists tr,
    gap_driver_accept e service st =
    Some (0%Z,
          append_trace
            (poke st gas
               (mk_gas (gas_device g) db (gatt_db_register e db gas) client
                       (first_bound found)))
            (accept_calls e service g gas ++ tr)).
Proof.
  intros device db client found Hfind Hg.
  unfold gap_driver_accept. fold device. fold db. fold client.
  rewrite bind_emit, bind_get_devices.
  erewrite bind_result
    by (eapply g_slist_find_custom_heap; [|exact Hfind]; reflexivity).
  cbv iota.
  erewrite bind_load by exact Hg.
  erewrite bind_store by exact Hg.
  erewrite bind_load by apply heap_poke_eq.
  rewrite !bind_emit.
  erewrite bind_store by apply heap_poke_eq.
  rewrite bind_emit.
  erewrite bind_load by apply heap_poke_eq.
  erewrite bind_store by apply heap_poke_eq.
  rewrite bind_emit.
  erewrite bind_load by apply heap_poke_eq.
  erewrite bind_store by apply heap_poke_eq.
  match goal with
  | |- context [bind (foreach _ _) _ ?s] => set (st1 := s)
  end.
  assert (heap st1 !! gas =
          Some (mk_gas (gas_device g) db (gatt_db_register e db gas) client NULL))
    as Hg1 by apply lookup_insert_eq.
  destruct (foreach_gap_service_scan e gas found st1 _ Hg1) as [tr Htr].
  fold found. erewrite bind_result by exact Htr.
  exists tr. unfold ret. f_equal. f_equal.
  unfold st1, append_trace, poke, accept_calls, scan_result. simpl.
  fold device. fold db. fold client.
  rewrite !insert_insert_eq. rewrite <- !app_assoc. reflexivity.
Qed.

Lemma gap_driver_accept_not_found e (service : ptr) st :
  let device := btd_service_get_device e service in
  g_slist_find_custom (devices st) device st = Some (None, st) ->
  gap_driver_accept e service st =
  Some ((-1)%Z,
        append_trace st [ev_DBG (GAP_profile_accept (device_get_address e device));
                         ev_error GAP_service_not_handled]).
Proof.
  intros device Hfind.
  unfold gap_driver_accept. fold device.
  rewrite bind_emit, bind_get_devices.
  erewrite bind_result
    by (eapply g_slist_find_custom_heap; [|exact Hfind]; reflexivity).
  cbv iota. rewrite bind_emit. unfold ret.
  rewrite append_trace_app. reflexivity.
Qed.

(** [gap_driver_probe] case by case. *)
Lemma gap_driver_probe_found e (service : ptr) st (p : ptr) :
  let device := btd_service_get_device e service in
  g_slist_find_custom (devices st) device st = Some (Some p, st) ->
  gap_driver_probe e service st =
  Some ((-1)%Z,
        append_trace st [ev_DBG (GAP_profile_probe (device_get_address e device));
                         ev_error Profile_probed_twice]).
Proof.
  intros device Hfind. unfold gap_driver_probe. fold device.
  rewrite bind_emit, bind_get_devices.
  erewrite bind_result
    by (eapply g_slist_find_custom_heap; [|exact Hfind]; reflexivity).
  cbv iota. rewrite bind_emit. unfold ret.
  rewrite append_trace_app. reflexivity.
Qed.

Lemma gap_driver_probe_not_found e (service : ptr) st :
  let device := btd_service_get_device e service in
  g_slist_find_custom (devices st) device st = Some (None, st) ->
  gap_driver_probe e service st =
  if g_new0 e =? NULL then
    Some ((-1)%Z,
          append_trace st [ev_DBG (GAP_profile_probe (device_get_address e device))])
  else
    match heap st !! g_new0 e with
    | Some _ => None
    | None =>
      Some (0%Z,
            mk_state (<[g_new0 e := mk_gas device NULL 0 NULL NULL]> (heap st))
                     (devices st ++ [g_new0 e])
                     (trace st ++
                        [ev_DBG (GAP_profile_probe (device_get_address e device));
                         ev_btd_device_ref device]))
    end.
Proof.
  intros device Hfind. unfold gap_driver_probe. fold device.
  rewrite bind_emit, bind_get_devices.
  erewrite bind_result
    by (eapply g_slist_find_custom_heap; [|exact Hfind]; reflexivity).
  cbv iota. unfold bind at 1, g_new0_gas at 1.
  destruct (g_new0 e =? NULL) eqn:Hnull.
  - rewrite N.eqb_refl. reflexivity.
  - cbn [heap append_trace].
    destruct (heap st !! g_new0 e) eqn:Hp; [reflexivity|].
    rewrite Hnull. rewrite bind_emit.
    erewrite bind_load by apply lookup_insert_eq.
    erewrite bind_store by apply lookup_insert_eq.
    rewrite bind_get_devices, bind_set_devices. unfold ret.
    unfold append_trace, poke, with_device, g_slist_append. simpl.
    rewrite insert_insert_eq, <- app_assoc. reflexivity.
Qed.

(** [gap_driver_remove] case by case. *)
Lemma gap_driver_remove_found e (service : ptr) st (gas : ptr) g :
  let device := btd_service_get_device e service in
  g_slist_find_custom (devices st) device st = Some (Some gas, st) ->
  heap st !! gas = Some g ->
  gap_driver_remove e service st =
  Some (tt,
        mk_state (delete gas (heap st)) (g_slist_remove (devices st) gas)
                 (trace st ++
                    [ev_DBG (GAP_profile_remove (device_get_address e device));
                     ev_gatt_db_unregister (gas_db g) (gas_db_id g);
                     ev_gatt_db_unref (gas_db g);
                     ev_bt_gatt_client_unref (gas_client g);
                     ev_btd_device_unref (gas_device g)])).
Proof.
  intros device Hfind Hg. unfold gap_driver_remove. fold device.
  rewrite bind_emit, bind_get_devices.
  erewrite bind_result
    by (eapply g_slist_find_custom_heap; [|exact Hfind]; reflexivity).
  cbv iota. rewrite bind_get_devices, bind_set_devices.
  unfold gas_free. erewrite bind_load by exact Hg.
  rewrite !bind_emit. unfold g_free_gas. cbn [heap append_trace].
  rewrite Hg. unfold append_trace. simpl.
  rewrite <- !app_assoc. reflexivity.
Qed.

Lemma gap_driver_remove_not_found e (service : ptr) st :
  let device := btd_service_get_device e service in
  g_slist_find_custom (devices st) device st = Some (None, st) ->
  gap_driver_remove e service st =
  Some (tt,
        append_trace st [ev_DBG (GAP_profile_remove (device_get_address e device));
                         ev_error GAP_service_not_handled]).
Proof.
  intros device Hfind. unfold gap_driver_remove. fold device.
  rewrite bind_emit, bind_get_devices.
  erewrite bind_result
    by (eapply g_slist_find_custom_heap; [|exact Hfind]; reflexivity).
  cbv iota. unfold emit, append_trace. simpl.
  rewrite <- app_assoc. reflexivity.
Qed.

(** *** The invariant *)

Lemma g_slist_remove_elem (l : list ptr) (a q : ptr) :
  q ∈ g_slist_remove l a -> q ∈ l.
Proof.
  induction l as [|x l IH]; simpl; [intros H; exact H|].
  destruct (x =? a).
  - intros Hq. right. exact Hq.
  - intros Hq. apply elem_of_cons in Hq as [-> | Hq]; [left | right; auto].
Qed.

Lemma g_slist_remove_NoDup (l : list ptr) (a : ptr) :
  NoDup l -> NoDup (g_slist_remove l a) /\ a ∉ g_slist_remove l a.
Proof.
  induction 1 as [|x l Hx Hnd [IH1 IH2]]; simpl.
  - split; [constructor | apply not_elem_of_nil].
  - destruct (x =? a) eqn:E.
    + apply N.eqb_eq in E. subst x. split; assumption.
    + apply N.eqb_neq in E. split.
      * constructor; [|exact IH1]. intros Hin. apply Hx.
        eapply g_slist_remove_elem, Hin.
      * intros Hin. apply elem_of_cons in Hin as [-> | Hin]; [congruence | auto].
Qed.

Lemma read_device_name_cb_trace (success : bool) (att_ecode : N)
    (value : list byte) (len : N) (user_data : ptr) st st' :
  read_device_name_cb success att_ecode value len user_data st = Some (tt, st') ->
  exists tr, st' = append_trace st tr.
Proof.
  unfold read_device_name_cb.
  destruct success; cbn [negb].
  - destruct (len =? 0).
    + unfold ret. intros [= <-]. exists []. symmetry. apply append_trace_nil.
    + cbv zeta. rewrite bind_emit. unfold bind, load, emit.
      cbn [heap append_trace].
      destruct (heap st !! user_data); [|discriminate].
      intros [= <-]. eexists. unfold append_trace. simpl.
      rewrite <- app_assoc. reflexivity.
  - unfold emit. intros [= <-]. eexists. reflexivity.
Qed.

Lemma read_appearance_cb_trace (success : bool) (att_ecode : N)
    (value : list byte) (len : N) (user_data : ptr) st st' :
  read_appearance_cb success att_ecode value len user_data st = Some (tt, st') ->
  exists tr, st' = append_trace st tr.
Proof.
  unfold read_appearance_cb.
  destruct success; cbn [negb].
  - destruct (len =? 2); cbn [negb].
    + unfold bind at 1, deref.
      destruct (get_le16 value); [|discriminate].
      rewrite bind_emit. unfold bind, load, emit. cbn [heap append_trace].
      destruct (heap st !! user_data); [|discriminate].
      intros [= <-]. eexists. unfold append_trace. simpl.
      rewrite <- app_assoc. reflexivity.
    + unfold emit. intros [= <-]. eexists. reflexivity.
  - unfold emit. intros [= <-]. eexists. reflexivity.
Qed.

Lemma service_added_same e (attr user_data : ptr) st st' :
  service_added e attr user_data st = Some (tt, st') -> same_handlers st st'.
Proof.
  destruct (heap st !! user_data) as [g|] eqn:Hg.
  - destruct (service_added_eq e attr user_data st g Hg) as [tr ->].
    intros [= <-].
    repeat match goal with
           | |- context [if ?b then _ else _] => destruct b
           end;
      try apply same_handlers_refl; try apply same_handlers_append_trace.
    eapply same_handlers_trans; [|apply same_handlers_append_trace].
    eapply same_handlers_poke; [exact Hg | reflexivity].
  - unfold service_added, bind, load. rewrite Hg. discriminate.
Qed.

Lemma service_removed_same (attr user_data : ptr) st st' :
  service_removed attr user_data st = Some (tt, st') -> same_handlers st st'.
Proof.
  destruct (heap st !! user_data) as [g|] eqn:Hg.
  - rewrite (service_removed_eq attr user_data st g Hg). intros [= <-].
    destruct (gas_attr g =? attr); [|apply same_handlers_refl].
    eapply same_handlers_trans; [apply same_handlers_append_trace|].
    eapply same_handlers_poke; [exact Hg | reflexivity].
  - unfold service_removed, bind, load. rewrite Hg. discriminate.
Qed.

Lemma gap_driver_accept_same e (service : ptr) st r st' :
  devices_live st ->
  gap_driver_accept e service st = Some (r, st') -> same_handlers st st'.
Proof.
  intros Hlive.
  destruct (g_slist_find_custom_total (devices st)
              (btd_service_get_device e service) st Hlive) as [l Hfind].
  destruct l as [gas|].
  - destruct (g_slist_find_custom_spec _ _ _ _ _ Hfind) as [_ [_ (g & Hg & _)]].
    destruct (gap_driver_accept_found e service st gas g Hfind Hg) as [tr ->].
    intros [= <- <-].
    eapply same_handlers_trans; [|apply same_handlers_append_trace].
    eapply same_handlers_poke; [exact Hg | reflexivity].
  - rewrite (gap_driver_accept_not_found e service st Hfind).
    intros [= <- <-]. apply same_handlers_append_trace.
Qed.

(** Every entry of the plugin keeps the listed pointers live and the
    handlers one per device. *)
Lemma step_invariant (st st' : state) :
  step st st' ->
  devices_live st /\ at_most_one_handler st ->
  devices_live st' /\ at_most_one_handler st'.
Proof.
  intros Hstep [Hlive Hone].
  assert (forall s, same_handlers st s ->
                    devices_live s /\ at_most_one_handler s) as Hsame.
  { intros s Hs. split;
      [eapply devices_live_same | eapply at_most_one_handler_same]; eassumption. }
  destruct Hstep as
    [e service r st' H | e service st' H | e service r st' H
    | e attr ud st' H | attr ud st' H
    | success ecode value len ud st' H | success ecode value len ud st' H].
  - (* probe *)
    destruct (g_slist_find_custom_total (devices st)
                (btd_service_get_device e service) st Hlive) as [l Hfind].
    destruct l as [p|].
    + rewrite (gap_driver_probe_found e service st p Hfind) in H.
      injection H as <- <-. apply Hsame, same_handlers_append_trace.
    + rewrite (gap_driver_probe_not_found e service st Hfind) in H.
      destruct (g_new0 e =? NULL).
      { injection H as <- <-. apply Hsame, same_handlers_append_trace. }
      destruct (heap st !! g_new0 e) eqn:Hfresh; [discriminate|].
      injection H as <- <-.
      destruct (g_slist_find_custom_spec _ _ _ _ _ Hfind) as [_ Hnone].
      assert (g_new0 e ∉ devices st) as Hnotin.
      { intros Hin. destruct (Hlive _ Hin) as [g Hg]. congruence. }
      split.
      * intros q Hq. cbn [devices heap] in *.
        apply elem_of_app in Hq as [Hq | Hq].
        -- rewrite lookup_insert_ne
             by (intros Heq; rewrite <- Heq in Hq; contradiction).
           apply Hlive, Hq.
        -- apply list_elem_of_singleton in Hq as ->.
           rewrite lookup_insert_eq. eexists. reflexivity.
      * destruct Hone as [Hnd Huniq]. split.
        -- cbn [devices]. apply NoDup_app. split; [exact Hnd|].
           split; [|apply NoDup_singleton].
           intros x Hx Hx'. apply list_elem_of_singleton in Hx' as ->.
           contradiction.
        -- assert (forall device q,
                     handler_of (mk_state
                       (<[g_new0 e := mk_gas (btd_service_get_device e service)
                                              NULL 0 NULL NULL]> (heap st))
                       (devices st ++ [g_new0 e])
                       (trace st ++
                          [ev_DBG (GAP_profile_probe
                             (device_get_address e (btd_service_get_device e service)));
                           ev_btd_device_ref (btd_service_get_device e service)]))
                       device q ->
                     (q = g_new0 e /\ device = btd_service_get_device e service) \/
                     (q <> g_new0 e /\ handler_of st device q)) as Hcase.
           { intros device q [Hq (g & Hg & Hd)]. cbn [devices heap] in *.
             destruct (decide (q = g_new0 e)) as [-> | Hne].
             - left. split; [reflexivity|].
               rewrite lookup_insert_eq in Hg. injection Hg as <-.
               simpl in Hd. congruence.
             - right. split; [exact Hne|].
               rewrite lookup_insert_ne in Hg by congruence.
               apply elem_of_app in Hq as [Hq | Hq].
               + split; [exact Hq|]. exists g. split; assumption.
               + apply list_elem_of_singleton in Hq. contradiction. }
           intros device p q Hp Hq.
           destruct (Hcase _ _ Hp) as [[-> ->] | [Hpne Hp']];
             destruct (Hcase _ _ Hq) as [[-> Hd] | [Hqne Hq']].
           ++ reflexivity.
           ++ exfalso. destruct Hq' as [Hq1 (g & Hg & Hdev)].
              eapply Hnone; eassumption.
           ++ exfalso. subst device. destruct Hp' as [Hp1 (g & Hg & Hdev)].
              eapply Hnone; eassumption.
           ++ eapply Huniq; eassumption.
  - (* remove *)
    destruct (g_slist_find_custom_total (devices st)
                (btd_service_get_device e service) st Hlive) as [l Hfind].
    destruct l as [gas|].
    + destruct (g_slist_find_custom_spec _ _ _ _ _ Hfind) as [_ [_ (g & Hg & _)]].
      rewrite (gap_driver_remove_found e service st gas g Hfind Hg) in H.
      injection H as <-.
      destruct Hone as [Hnd Huniq].
      destruct (g_slist_remove_NoDup (devices st) gas Hnd) as [Hnd' Hout].
      split.
      * intros q Hq. cbn [devices heap] in *.
        rewrite lookup_delete_ne
          by (intros Heq; rewrite <- Heq in Hq; contradiction).
        apply Hlive. eapply g_slist_remove_elem, Hq.
      * split; [exact Hnd'|].
        assert (forall device q,
                  handler_of (mk_state (delete gas (heap st))
                                (g_slist_remove (devices st) gas)
                                (trace st ++
                      [ev_DBG (GAP_profile_remove
                         (device_get_address e (btd_service_get_device e service)));
                       ev_gatt_db_unregister (gas_db g) (gas_db_id g);
                       ev_gatt_db_unref (gas_db g);
                       ev_bt_gatt_client_unref (gas_client g);
                       ev_btd_device_unref (gas_device g)])) device q ->
                  handler_of st device q) as Hsub.
        { intros device q [Hq (g0 & Hg0 & Hd)]. cbn [devices heap] in *.
          split; [eapply g_slist_remove_elem, Hq|].
          exists g0. split; [|exact Hd].
          apply lookup_delete_Some in Hg0 as [_ Hg0]. exact Hg0. }
        intros device p q Hp Hq. eapply Huniq; apply Hsub; eassumption.
    + rewrite (gap_driver_remove_not_found e service st Hfind) in H.
      injection H as <-. apply Hsame, same_handlers_append_trace.
  - (* accept *)
    eapply Hsame, gap_driver_accept_same; eassumption.
  - eapply Hsame, service_added_same; eassumption.
  - eapply Hsame, service_removed_same; eassumption.
  - destruct (read_device_name_cb_trace _ _ _ _ _ _ _ H) as [tr ->].
    apply Hsame, same_handlers_append_trace.
  - destruct (read_appearance_cb_trace _ _ _ _ _ _ _ H) as [tr ->].
    apply Hsame, same_handlers_append_trace.
Qed.

Lemma reachable_invariant (st : state) :
  reachable st -> devices_live st /\ at_most_one_handler st.
Proof.
  induction 1 as [|st st' _ IH Hstep].
  - split.
    + intros p Hp. inversion Hp.
    + split; [constructor|]. intros device p q [Hp _]. inversion Hp.
  - eapply step_invariant; eassumption.
Qed.

End Invariant.

(** ** The profile hooks and the database notifications *)

Section Lifecycle.
Import LibC GLib.
Context {hdr : Headers}.

(** C1: in every state the plugin can reach, no device has two handlers;
    and a probe for a device that has a handler returns -1 and leaves the
    [struct gas] objects and the list [devices] as they were (only the two
    log lines are added). *)
Theorem gap_driver_probe_twice (st : state) (e : env) (service gas : ptr) :
  reachable st ->
  handler_of st (btd_service_get_device e service) gas ->
  at_most_one_handler st /\
  exists st',
    gap_driver_probe e service st = Some ((-1)%Z, st') /\
    heap st' = heap st /\
    devices st' = devices st /\
    trace st' =
      trace st ++
        [ev_DBG (GAP_profile_probe
                   (device_get_address e (btd_service_get_device e service)));
         ev_error Profile_probed_twice] /\
    at_most_one_handler st'.
Proof.
  intros Hreach Hh.
  destruct (reachable_invariant st Hreach) as [Hlive Hone].
  split; [exact Hone|].
  pose proof (g_slist_find_custom_handler st _ gas Hlive Hone Hh) as Hfind.
  eexists. split; [apply (gap_driver_probe_found e service st gas Hfind)|].
  repeat split; try reflexivity; apply Hone.
Qed.

(** C7: a service-removed notification sets [attr] to NULL exactly when
    the removed node is the stored one, and then logs the removal; for any
    other node the state is untouched. In both cases [device], [db],
    [db_id] and [client] of the handler, every other [struct gas] and the
    list [devices] are as before, and no collaborator is called. *)
Theorem service_removed_clears_stored_node (attr user_data : ptr)
    (st : state) (g : gas) :
  heap st !! user_data = Some g ->
  exists st' g',
    service_removed attr user_data st = Some (tt, st') /\
    heap st' = <[user_data := g']> (heap st) /\
    devices st' = devices st /\
    gas_attr g' = (if gas_attr g =? attr then NULL else gas_attr g) /\
    gas_device g' = gas_device g /\
    gas_db g' = gas_db g /\
    gas_db_id g' = gas_db_id g /\
    gas_client g' = gas_client g /\
    trace st' =
      trace st ++ (if gas_attr g =? attr then [ev_DBG GAP_service_removed]
                   else []) /\
    (gas_attr g <> attr -> st' = st).
Proof.
  intros Hg. rewrite (service_removed_eq attr user_data st g Hg).
  destruct (gas_attr g =? attr) eqn:E.
  - eexists. exists (with_attr g NULL). split; [reflexivity|].
    repeat split; try reflexivity.
    intros Hne. apply N.eqb_eq in E. contradiction.
  - exists st, g. split; [reflexivity|].
    rewrite insert_id by exact Hg. rewrite app_nil_r.
    repeat split; reflexivity.
Qed.

(** C6 (amended): a service-added notification binds no service and
    issues no read unless the GATT client is ready, the UUID of the added
    service compares equal to the GAP service UUID 0x1800 and no service is
    bound; when all three hold the added node is bound. When a service is
    bound already the handler keeps it, and the anomaly is logged exactly
    when the client is ready and the UUID is the GAP one. *)
Theorem service_added_guards (e : env) (attr user_data : ptr)
    (st : state) (g : gas) :
  heap st !! user_data = Some g ->
  let ready := bt_gatt_client_is_ready e (gas_client g) in
  let is_gap :=
    (bt_uuid_cmp (gatt_db_attribute_get_service_uuid e attr)
                 (bt_uuid16_create 0x1800) =? 0)%Z in
  let unbound := gas_attr g =? NULL in
  exists st' new,
    service_added e attr user_data st = Some (tt, st') /\
    trace st' = trace st ++ new /\
    devices st' = devices st /\
    (ready && is_gap && unbound = false ->
       heap st' = heap st /\
       Forall (fun c => is_read_request c = false) new) /\
    (unbound = false ->
       heap st' = heap st /\
       new = if ready && is_gap
             then [ev_error More_than_one_GAP_service_added] else []) /\
    (ready && is_gap && unbound = true ->
       heap st' = <[user_data := with_attr g attr]> (heap st)).
Proof.
  intros Hg ready is_gap unbound.
  destruct (service_added_eq e attr user_data st g Hg) as [tr ->].
  fold ready. change GAP_UUID16 with 0x1800. fold is_gap. fold unbound.
  destruct ready; cbn [negb andb].
  2: { exists st, []. rewrite app_nil_r.
       repeat split; try reflexivity; try discriminate. constructor. }
  destruct is_gap; cbn [negb andb].
  2: { exists st, []. rewrite app_nil_r.
       repeat split; try reflexivity; try discriminate. constructor. }
  destruct unbound; cbn [negb].
  - eexists. exists (ev_DBG GAP_service_added :: tr).
    repeat split; try reflexivity; discriminate.
  - eexists. exists [ev_error More_than_one_GAP_service_added].
    repeat split; try reflexivity; try discriminate.
    constructor; [reflexivity | constructor].
Qed.

(** C8: for a device that has a handler, accept returns 0; the old
    database and client are released before the new ones are acquired and
    the scan starts; the handler ends up bound to the first GAP service the
    scan of the new database visits, and unbound when the scan visits none;
    and the state after accept is the same whatever service the handler was
    bound to before. *)
Theorem gap_driver_accept_rebinds (e : env) (service p : ptr)
    (st : state) (g : gas) :
  reachable st ->
  handler_of st (btd_service_get_device e service) p ->
  heap st !! p = Some g ->
  let device := btd_service_get_device e service in
  let db := btd_device_get_gatt_db e device in
  let client := btd_device_get_gatt_client e device in
  let found := gatt_db_foreach_service e db (bt_uuid16_create 0x1800) in
  exists st' scan_calls,
    gap_driver_accept e service st = Some (0%Z, st') /\
    heap st' =
      <[p := mk_gas (gas_device g) db (gatt_db_register e db p) client
                    (first_bound found)]> (heap st) /\
    devices st' = devices st /\
    trace st' = trace st ++ accept_calls e service g p ++ scan_calls /\
    (found = [] ->
       exists g', heap st' !! p = Some g' /\ gas_attr g' = NULL) /\
    (forall old,
       gap_driver_accept e service (poke st p (with_attr g old))
       = Some (0%Z, st')).
Proof.
  intros Hreach Hh Hg device db client found.
  destruct (reachable_invariant st Hreach) as [Hlive Hone].
  pose proof (g_slist_find_custom_handler st _ p Hlive Hone Hh) as Hfind.
  destruct (gap_driver_accept_found e service st p g Hfind Hg) as [tr Hacc].
  eexists. exists tr. split; [exact Hacc|].
  split; [reflexivity|]. split; [reflexivity|]. split; [reflexivity|].
  split.
  { intros Hnil. eexists. split; [apply lookup_insert_eq|].
    cbn [gas_attr]. fold device. fold db. change GAP_UUID16 with 0x1800.
    fold found. rewrite Hnil. reflexivity. }
  intros old.
  assert (same_handlers st (poke st p (with_attr g old))) as Hsame
    by (eapply same_handlers_poke; [exact Hg | reflexivity]).
  assert (g_slist_find_custom (devices (poke st p (with_attr g old))) device
            (poke st p (with_attr g old))
          = Some (Some p, poke st p (with_attr g old))) as Hfind'.
  { apply g_slist_find_custom_handler.
    - eapply devices_live_same; eassumption.
    - eapply at_most_one_handler_same; eassumption.
    - split; [exact (proj1 Hh)|].
      exists (with_attr g old). split; [apply lookup_insert_eq|].
      destruct Hh as [_ (g0 & Hg0 & Hd)]. rewrite Hg in Hg0.
      injection Hg0 as <-. exact Hd. }
  revert Hacc. unfold gap_driver_accept. fold device. fold db.
  rewrite !bind_emit, !bind_get_devices.
  erewrite (bind_result (g_slist_find_custom (devices st) device))
    by (eapply g_slist_find_custom_heap; [|exact Hfind]; reflexivity).
  erewrite (bind_result
              (g_slist_find_custom
                 (devices (append_trace (poke st p (with_attr g old)) _))
                 device))
    by (eapply g_slist_find_custom_heap; [|exact Hfind']; reflexivity).
  cbv iota.
  erewrite bind_load by exact Hg.
  erewrite bind_store by exact Hg.
  erewrite (bind_load p _ (append_trace (poke st p (with_attr g old)) _))
    by apply lookup_insert_eq.
  erewrite (bind_store p _ _ (append_trace (poke st p (with_attr g old)) _))
    by apply lookup_insert_eq.
  unfold poke, append_trace. cbn [heap devices trace with_attr gas_device
    gas_db gas_db_id gas_client gas_attr].
  rewrite insert_insert_eq. intros Hacc. exact Hacc.
Qed.

End Lifecycle.

(** ** What name2utf8 returns *)

Section Decoded.
Import LibC GLib.
Context {hdr : Headers}.

Lemma drop_leading_space_split (s : list byte) :
  exists sp, s = sp ++ drop_leading_space s /\
             Forall (fun c => g_ascii_isspace c = true) sp.
Proof.
  induction s as [|c s (sp & Hs & Hsp)]; simpl.
  - exists []. split; [reflexivity | constructor].
  - destruct (g_ascii_isspace c) eqn:E.
    + exists (c :: sp). split; [simpl; congruence | constructor; assumption].
    + exists []. split; [reflexivity | constructor].
Qed.

Lemma drop_leading_space_head (s : list byte) c rest :
  drop_leading_space s = c :: rest -> g_ascii_isspace c = false.
Proof.
  induction s as [|x s IH]; simpl; [discriminate|].
  destruct (g_ascii_isspace x) eqn:E; [exact IH|].
  intros [= <- <-]. exact E.
Qed.

Lemma drop_trailing_space_split (s : list byte) :
  exists sp, s = drop_trailing_space s ++ sp /\
             Forall (fun c => g_ascii_isspace c = true) sp.
Proof.
  unfold drop_trailing_space.
  destruct (drop_leading_space_split (rev s)) as (sp & Hs & Hsp).
  exists (rev sp). split; [|apply Forall_rev, Hsp].
  rewrite <- rev_app_distr, <- Hs, rev_involutive. reflexivity.
Qed.

Lemma drop_trailing_space_last (s pre : list byte) c :
  drop_trailing_space s = pre ++ [c] -> g_ascii_isspace c = false.
Proof.
  unfold drop_trailing_space. intros Hs.
  apply (f_equal (@rev byte)) in Hs.
  rewrite rev_involutive, rev_app_distr in Hs. simpl in Hs.
  eapply drop_leading_space_head, Hs.
Qed.

Lemma drop_leading_space_Forall (P : byte -> Prop) (s : list byte) :
  Forall P s -> Forall P (drop_leading_space s).
Proof.
  induction 1 as [|c s Hc Hs IH]; simpl; [constructor|].
  destruct (g_ascii_isspace c); [assumption | constructor; assumption].
Qed.

Lemma strip_Forall (P : byte -> Prop) (s : list byte) :
  Forall P s -> Forall P (strip s).
Proof.
  intros Hs. unfold strip, drop_trailing_space.
  apply Forall_rev, drop_leading_space_Forall, Forall_rev,
    drop_leading_space_Forall, Hs.
Qed.

Lemma strip_length (s : list byte) : (length (strip s) <= length s)%nat.
Proof.
  unfold strip.
  destruct (drop_leading_space_split s) as (sp1 & H1 & _).
  destruct (drop_trailing_space_split (drop_leading_space s)) as (sp2 & H2 & _).
  apply (f_equal (@length byte)) in H1, H2.
  rewrite length_app in H1, H2. lia.
Qed.

(** The string [strip] leaves neither starts nor ends with white space. *)
Lemma strip_ends (s : list byte) :
  (forall c rest, strip s = c :: rest -> g_ascii_isspace c = false) /\
  (forall pre c, strip s = pre ++ [c] -> g_ascii_isspace c = false).
Proof.
  split.
  - intros c rest Hs. unfold strip in Hs.
    destruct (drop_trailing_space_split (drop_leading_space s)) as (sp & Hd & _).
    rewrite Hs in Hd. simpl in Hd.
    eapply drop_leading_space_head, Hd.
  - intros pre c Hs. eapply drop_trailing_space_last, Hs.
Qed.

Lemma ascii_or_space_isascii (c : byte) : isascii (ascii_or_space c) = true.
Proof. destruct c; vm_compute; reflexivity. Qed.

(** NUL-free ASCII is well-formed UTF-8. *)
Lemma fast_validate_len_ascii (s : list byte) :
  Forall (fun c => is_nul c = false /\ isascii c = true) s ->
  fast_validate_len s = length s.
Proof.
  induction 1 as [|c s [Hn Ha] _ IH]; [reflexivity|].
  cbn [fast_validate_len length]. rewrite Hn.
  rewrite isascii_lt in Ha. rewrite Ha, IH. reflexivity.
Qed.

Lemma g_utf8_validate_whole (s : list byte) :
  fast_validate_len s = length s ->
  g_utf8_validate s (N.of_nat (length s)) = true.
Proof.
  intros Hs. unfold g_utf8_validate. rewrite Nat2N.id.
  rewrite take_ge by lia. apply Nat.eqb_eq, Hs.
Qed.

Lemma fallback_bytes_length (name : list byte) (len : N) :
  (length (fallback_bytes name len) <= N.to_nat len)%nat /\
  (length (fallback_bytes name len) <= N.to_nat (HCI_MAX_NAME_LENGTH + 1))%nat.
Proof.
  unfold fallback_bytes, sizeof_utf8_name.
  pose proof (cstr_length
    (take (N.to_nat (N.min len (HCI_MAX_NAME_LENGTH + 2 - 1))) name)) as Hc.
  rewrite length_take in Hc. lia.
Qed.

Lemma name2utf8_wellformed (name : list byte) (len : N) :
  nonnul (name2utf8 name len) /\
  fast_validate_len (name2utf8 name len) = length (name2utf8 name len).
Proof.
  destruct (g_utf8_validate name len) eqn:Hv.
  - rewrite (name2utf8_valid _ _ Hv).
    destruct (g_utf8_validate_true _ _ Hv) as [Hlen Hnn].
    split; [exact Hnn|].
    unfold g_utf8_validate in Hv. apply Nat.eqb_eq in Hv. congruence.
  - rewrite (name2utf8_invalid _ _ Hv).
    assert (Forall (fun c => is_nul c = false /\ isascii c = true)
              (map ascii_or_space (fallback_bytes name len))) as Hall.
    { apply Forall_map. unfold fallback_bytes.
      eapply Forall_impl; [apply cstr_nonnul|].
      intros c Hc. simpl.
      split; [apply ascii_or_space_nonnul, Hc | apply ascii_or_space_isascii]. }
    apply (strip_Forall _ _) in Hall. split.
    + eapply Forall_impl; [exact Hall|]. intros c [Hc _]. exact Hc.
    + apply fast_validate_len_ascii, Hall.
Qed.

Lemma name2utf8_length_le (name : list byte) (len : N) :
  (length (name2utf8 name len) <= N.to_nat len)%nat.
Proof.
  destruct (g_utf8_validate name len) eqn:Hv.
  - rewrite (name2utf8_valid _ _ Hv). rewrite length_take. lia.
  - rewrite (name2utf8_invalid _ _ Hv).
    pose proof (strip_length (map ascii_or_space (fallback_bytes name len))) as Hs.
    rewrite length_map in Hs.
    destruct (fallback_bytes_length name len) as [H1 H2]. lia.
Qed.

(** X1: whatever the payload, [name2utf8] returns a string without NUL that
    [g_utf8_validate] accepts over its whole length, and decoding that
    string again gives it back. *)
Theorem name2utf8_returns_utf8 (name : list byte) (len : N) :
  nonnul (name2utf8 name len) /\
  g_utf8_validate (name2utf8 name len)
                  (N.of_nat (length (name2utf8 name len))) = true /\
  name2utf8 (name2utf8 name len) (N.of_nat (length (name2utf8 name len)))
    = name2utf8 name len.
Proof.
  destruct (name2utf8_wellformed name len) as [Hnn Hfull].
  pose proof (g_utf8_validate_whole _ Hfull) as Hvalid.
  split; [exact Hnn|]. split; [exact Hvalid|].
  rewrite (name2utf8_valid _ _ Hvalid), Nat2N.id.
  apply take_ge. lia.
Qed.

(** X2: the name is never longer than the reported length, and on the
    fall-back path never longer than [HCI_MAX_NAME_LENGTH + 1], so that it
    fits [utf8_name] with its NUL. *)
Theorem name2utf8_length (name : list byte) (len : N) :
  (length (name2utf8 name len) <= N.to_nat len)%nat /\
  (g_utf8_validate name len = false ->
   (length (name2utf8 name len) < N.to_nat sizeof_utf8_name)%nat).
Proof.
  split; [apply name2utf8_length_le|].
  intros Hv. rewrite (name2utf8_invalid _ _ Hv).
  pose proof (strip_length (map ascii_or_space (fallback_bytes name len))) as Hs.
  rewrite length_map in Hs.
  destruct (fallback_bytes_length name len) as [H1 H2].
  unfold sizeof_utf8_name. lia.
Qed.

(** X3: on the fall-back path the name is plain ASCII and neither starts nor
    ends with white space. *)
Theorem name2utf8_fallback_shape (name : list byte) (len : N) :
  g_utf8_validate name len = false ->
  Forall (fun c => 0 < u8 c < 128) (name2utf8 name len) /\
  (forall c rest, name2utf8 name len = c :: rest -> g_ascii_isspace c = false) /\
  (forall pre c, name2utf8 name len = pre ++ [c] -> g_ascii_isspace c = false).
Proof.
  intros Hv. rewrite (name2utf8_invalid _ _ Hv). split; [|apply strip_ends].
  apply strip_Forall, Forall_map. unfold fallback_bytes.
  eapply Forall_impl; [apply cstr_nonnul|].
  intros c Hc. simpl.
  pose proof (ascii_or_space_nonnul c Hc) as Hn.
  pose proof (ascii_or_space_isascii c) as Ha.
  rewrite isascii_lt in Ha. apply N.ltb_lt in Ha.
  unfold is_nul in Hn. apply N.eqb_neq in Hn. lia.
Qed.

(** X4: whenever a Device Name completion returns, it has pushed at most one
    name; a name is pushed only for a successful read of nonzero length, it
    goes to the device of the handler the completion names, it is valid
    UTF-8 without NUL, and it is not longer than the reported length. *)
Theorem read_device_name_cb_pushes_utf8 (success : bool) (att_ecode : N)
    (value : list byte) (len : N) (user_data : ptr) (st st' : state) :
  read_device_name_cb success att_ecode value len user_data st = Some (tt, st') ->
  exists new,
    st' = append_trace st new /\
    (pushed_names new = [] \/
     exists g name,
       pushed_names new = [(gas_device g, name)] /\
       heap st !! user_data = Some g /\
       success = true /\ len <> 0 /\
       nonnul name /\
       g_utf8_validate name (N.of_nat (length name)) = true /\
       (length name <= N.to_nat len)%nat).
Proof.
  unfold read_device_name_cb. destruct success; cbn [negb].
  - destruct (len =? 0) eqn:Hlen.
    + unfold ret. intros [= <-]. exists [].
      split; [symmetry; apply append_trace_nil | left; reflexivity].
    + cbv zeta. unfold bind, emit, load. cbn [heap].
      destruct (heap st !! user_data) as [g|] eqn:Hg; [|discriminate].
      intros [= <-]. eexists. split.
      { unfold append_trace. cbn [heap devices trace].
        rewrite <- app_assoc. reflexivity. }
      right. exists g, (name2utf8 value len).
      destruct (name2utf8_wellformed value len) as [Hnn Hfull].
      split; [reflexivity|]. split; [reflexivity|]. split; [reflexivity|].
      split; [apply N.eqb_neq, Hlen|]. split; [exact Hnn|].
      split; [apply g_utf8_validate_whole, Hfull | apply name2utf8_length_le].
  - unfold emit. intros [= <-]. eexists.
    split; [reflexivity | left; reflexivity].
Qed.

End Decoded.

(** ** The requests a located service leads to *)

Section Requests.
Import LibC GLib.
Context {hdr : Headers}.

Lemma count_calls_app (P : call -> bool) (a b : list call) :
  count_calls P (a ++ b) = (count_calls P a + count_calls P b)%nat.
Proof. unfold count_calls. rewrite List.filter_app, length_app. reflexivity. Qed.

Lemma handle_characteristic_calls e (attr gas : ptr) st g :
  heap st !! gas = Some g ->
  exists tr,
    handle_characteristic e attr gas st = Some (tt, append_trace st tr) /\
    Forall (fun c => issued_for g gas c = true) tr /\
    count_calls is_read_request tr = (if char_read e attr then 1 else 0)%nat.
Proof.
  intros Hg. unfold handle_characteristic, char_read.
  destruct (gatt_db_attribute_get_char_data e attr) as [[value_handle uuid]|].
  - destruct (uuid_cmp GATT_CHARAC_DEVICE_NAME uuid); cbn [orb].
    + unfold handle_device_name, bind, load, emit. rewrite Hg.
      cbn [heap devices trace].
      destruct (bt_gatt_client_read_long_value e (gas_client g) value_handle 0 =? 0);
        eexists; (split;
          [unfold append_trace; cbn [heap devices trace];
           try rewrite <- app_assoc; reflexivity|]);
        (split; [|reflexivity]);
        repeat constructor; cbn [issued_for]; rewrite !N.eqb_refl; reflexivity.
    + destruct (uuid_cmp GATT_CHARAC_APPEARANCE uuid).
      * unfold handle_appearance, bind, load, emit. rewrite Hg.
        cbn [heap devices trace].
        destruct (bt_gatt_client_read_value e (gas_client g) value_handle =? 0);
          eexists; (split;
            [unfold append_trace; cbn [heap devices trace];
             try rewrite <- app_assoc; reflexivity|]);
          (split; [|reflexivity]);
          repeat constructor; cbn [issued_for]; rewrite !N.eqb_refl; reflexivity.
      * eexists. split; [reflexivity|]. split; [|reflexivity].
        repeat constructor.
  - eexists. split; [reflexivity|]. split; [|reflexivity]. repeat constructor.
Qed.

Lemma handle_gap_service_calls e (gas : ptr) st g :
  heap st !! gas = Some g ->
  exists tr,
    handle_gap_service e gas st = Some (tt, append_trace st tr) /\
    Forall (fun c => issued_for g gas c = true) tr /\
    count_calls is_read_request tr =
      length (List.filter (char_read e)
                (gatt_db_service_foreach_char e (gas_attr g))).
Proof.
  intros Hg. unfold handle_gap_service, bind, load. rewrite Hg.
  generalize (gatt_db_service_foreach_char e (gas_attr g)). intros chars.
  revert st Hg. induction chars as [|a chars IH]; intros st Hg.
  - exists []. cbn [foreach]. unfold ret.
    split; [rewrite (append_trace_nil st); reflexivity|].
    split; [constructor | reflexivity].
  - destruct (handle_characteristic_calls e a gas st g Hg) as (tr1 & H1 & F1 & C1).
    destruct (IH (append_trace st tr1) Hg) as (tr2 & H2 & F2 & C2).
    exists (tr1 ++ tr2). cbn [foreach]. unfold bind. rewrite H1, H2.
    rewrite append_trace_app. split; [reflexivity|].
    split; [apply Forall_app; split; assumption|].
    rewrite count_calls_app, C1, C2. cbn [List.filter].
    destruct (char_read e a); reflexivity.
Qed.

(** The reads among the calls, characteristic by characteristic: each
    one is the read its characteristic asks for. *)
Lemma handle_characteristic_reads e (attr gas : ptr) st g :
  heap st !! gas = Some g ->
  exists tr,
    handle_characteristic e attr gas st = Some (tt, append_trace st tr) /\
    Forall (fun c => issued_for g gas c = true) tr /\
    List.filter is_read_request tr =
      match read_request_for e g gas attr with
      | Some c => [c]
      | None => []
      end.
Proof.
  intros Hg. unfold handle_characteristic, read_request_for.
  destruct (gatt_db_attribute_get_char_data e attr) as [[value_handle uuid]|].
  - destruct (uuid_cmp GATT_CHARAC_DEVICE_NAME uuid).
    + unfold handle_device_name, bind, load, emit. rewrite Hg.
      cbn [heap devices trace].
      destruct (bt_gatt_client_read_long_value e (gas_client g) value_handle 0 =? 0);
        eexists; (split;
          [unfold append_trace; cbn [heap devices trace];
           try rewrite <- app_assoc; reflexivity|]);
        (split; [|reflexivity]);
        repeat constructor; cbn [issued_for]; rewrite !N.eqb_refl; reflexivity.
    + destruct (uuid_cmp GATT_CHARAC_APPEARANCE uuid).
      * unfold handle_appearance, bind, load, emit. rewrite Hg.
        cbn [heap devices trace].
        destruct (bt_gatt_client_read_value e (gas_client g) value_handle =? 0);
          eexists; (split;
            [unfold append_trace; cbn [heap devices trace];
             try rewrite <- app_assoc; reflexivity|]);
          (split; [|reflexivity]);
          repeat constructor; cbn [issued_for]; rewrite !N.eqb_refl; reflexivity.
      * eexists. split; [reflexivity|]. split; [|reflexivity].
        repeat constructor.
  - eexists. split; [reflexivity|]. split; [|reflexivity]. repeat constructor.
Qed.

Lemma handle_gap_service_reads e (gas : ptr) st g :
  heap st !! gas = Some g ->
  exists tr,
    handle_gap_service e gas st = Some (tt, append_trace st tr) /\
    Forall (fun c => issued_for g gas c = true) tr /\
    List.filter is_read_request tr =
      omap (read_request_for e g gas)
           (gatt_db_service_foreach_char e (gas_attr g)).
Proof.
  intros Hg. unfold handle_gap_service, bind, load. rewrite Hg.
  generalize (gatt_db_service_foreach_char e (gas_attr g)). intros chars.
  revert st Hg. induction chars as [|a chars IH]; intros st Hg.
  - exists []. cbn [foreach]. unfold ret.
    split; [rewrite (append_trace_nil st); reflexivity|].
    split; [constructor | reflexivity].
  - destruct (handle_characteristic_reads e a gas st g Hg) as (tr1 & H1 & F1 & R1).
    destruct (IH (append_trace st tr1) Hg) as (tr2 & H2 & F2 & R2).
    exists (tr1 ++ tr2). cbn [foreach]. unfold bind. rewrite H1, H2.
    rewrite append_trace_app. split; [reflexivity|].
    split; [apply Forall_app; split; assumption|].
    rewrite List.filter_app, R1, R2. cbn [omap list_omap].
    destruct (read_request_for e g gas a); reflexivity.
Qed.

(** The number of reads is the number of characteristics that ask for
    one. *)
Lemma read_request_for_count e (g : gas) (gas : ptr) (chars : list ptr) :
  length (omap (read_request_for e g gas) chars) =
  length (List.filter (char_read e) chars).
Proof.
  induction chars as [|a chars IH]; [reflexivity|].
  cbn [omap list_omap List.filter].
  unfold read_request_for at 1, char_read at 1.
  destruct (gatt_db_attribute_get_char_data e a) as [[value_handle uuid]|];
    [|exact IH].
  destruct (uuid_cmp GATT_CHARAC_DEVICE_NAME uuid); cbn [orb length];
    [rewrite IH; reflexivity|].
  destruct (uuid_cmp GATT_CHARAC_APPEARANCE uuid); cbn [length];
    [rewrite IH; reflexivity | exact IH].
Qed.

(** A handler that is bound takes no further service: each node visited
    gives one error line, nothing else. *)
Lemma foreach_gap_service_bound e (gas : ptr) (l : list ptr) :
  forall st g, heap st !! gas = Some g -> gas_attr g <> NULL ->
  foreach l (fun attr => foreach_gap_service e attr gas) st =
  Some (tt, append_trace st
              (replicate (length l) (ev_error More_than_one_GAP_service_exists))).
Proof.
  induction l as [|a l IH]; intros st g Hg Hb.
  - cbn [foreach length replicate]. unfold ret.
    rewrite append_trace_nil. reflexivity.
  - cbn [foreach length replicate]. unfold bind at 1.
    rewrite (foreach_gap_service_eq _ _ _ _ _ Hg).
    apply N.eqb_neq in Hb. rewrite Hb.
    rewrite (IH (append_trace st [ev_error More_than_one_GAP_service_exists]) g Hg)
      by (apply N.eqb_neq, Hb).
    rewrite append_trace_app. reflexivity.
Qed.

(** [gap_driver_accept] up to its scan. *)
Lemma gap_driver_accept_scan e (service gas : ptr) st g :
  let device := btd_service_get_device e service in
  let db := btd_device_get_gatt_db e device in
  let client := btd_device_get_gatt_client e device in
  g_slist_find_custom (devices st) device st = Some (Some gas, st) ->
  heap st !! gas = Some g ->
  gap_driver_accept e service st =
  bind (foreach (gatt_db_foreach_service e db (bt_uuid16_create GAP_UUID16))
                (fun attr => foreach_gap_service e attr gas))
       (fun _ => ret 0%Z)
       (append_trace
          (poke st gas
             (mk_gas (gas_device g) db (gatt_db_register e db gas) client NULL))
          (accept_calls e service g gas)).
Proof.
  intros device db client Hfind Hg.
  unfold gap_driver_accept. fold device. fold db. fold client.
  rewrite bind_emit, bind_get_devices.
  erewrite bind_result
    by (eapply g_slist_find_custom_heap; [|exact Hfind]; reflexivity).
  cbv iota.
  erewrite bind_load by exact Hg.
  erewrite bind_store by exact Hg.
  erewrite bind_load by apply heap_poke_eq.
  rewrite !bind_emit.
  erewrite bind_store by apply heap_poke_eq.
  rewrite bind_emit.
  erewrite bind_load by apply heap_poke_eq.
  erewrite bind_store by apply heap_poke_eq.
  rewrite bind_emit.
  erewrite bind_load by apply heap_poke_eq.
  erewrite bind_store by apply heap_poke_eq.
  f_equal. unfold append_trace, poke, accept_calls. simpl.
  fold device. fold db. fold client.
  rewrite !insert_insert_eq, <- !app_assoc. reflexivity.
Qed.

End Requests.

(** ** The hooks one after the other *)

Section Hooks.
Import LibC GLib.
Context {hdr : Headers}.

Lemma reachable_find_handler (st : state) (device p : ptr) :
  reachable st -> handler_of st device p ->
  g_slist_find_custom (devices st) device st = Some (Some p, st).
Proof.
  intros Hreach Hh. destruct (reachable_invariant st Hreach) as [Hlive Hone].
  apply g_slist_find_custom_handler; assumption.
Qed.

Lemma reachable_find_no_handler (st : state) (device : ptr) :
  reachable st -> (forall q, ~ handler_of st device q) ->
  g_slist_find_custom (devices st) device st = Some (None, st).
Proof.
  intros Hreach Hno. destruct (reachable_invariant st Hreach) as [Hlive _].
  apply g_slist_find_custom_no_handler; assumption.
Qed.

(** The state a successful probe gives. *)
Lemma gap_driver_probe_new e (service : ptr) st :
  let device := btd_service_get_device e service in
  reachable st -> (forall q, ~ handler_of st device q) ->
  g_new0 e <> NULL -> heap st !! g_new0 e = None ->
  gap_driver_probe e service st =
  Some (0%Z,
        mk_state (<[g_new0 e := mk_gas device NULL 0 NULL NULL]> (heap st))
                 (devices st ++ [g_new0 e])
                 (trace st ++
                    [ev_DBG (GAP_profile_probe (device_get_address e device));
                     ev_btd_device_ref device])).
Proof.
  intros device Hreach Hno Hnn Hfresh.
  rewrite (gap_driver_probe_not_found e service st
             (reachable_find_no_handler st device Hreach Hno)).
  apply N.eqb_neq in Hnn. rewrite Hnn, Hfresh. reflexivity.
Qed.

Lemma g_slist_remove_last (l : list ptr) (p : ptr) :
  p ∉ l -> g_slist_remove (l ++ [p]) p = l.
Proof.
  induction l as [|a l IH]; intros Hp; simpl.
  - rewrite N.eqb_refl. reflexivity.
  - apply not_elem_of_cons in Hp as [Hne Hp].
    replace (a =? p) with false by (symmetry; apply N.eqb_neq; congruence).
    rewrite IH by assumption. reflexivity.
Qed.

(** X11: accept for a device that was never probed, or whose handler was
    removed, returns -1: the two log lines are all that happens, no
    reference is taken or released and nothing is registered. *)
Theorem gap_driver_accept_without_handler (e : env) (service : ptr) (st : state) :
  reachable st ->
  (forall q, ~ handler_of st (btd_service_get_device e service) q) ->
  gap_driver_accept e service st =
  Some ((-1)%Z,
        append_trace st
          [ev_DBG (GAP_profile_accept
                     (device_get_address e (btd_service_get_device e service)));
           ev_error GAP_service_not_handled]).
Proof.
  intros Hreach Hno.
  apply gap_driver_accept_not_found, reachable_find_no_handler; assumption.
Qed.

(** X10: remove for a device without a handler frees nothing and releases
    nothing: the two log lines are all that happens. *)
Theorem gap_driver_remove_without_handler (e : env) (service : ptr) (st : state) :
  reachable st ->
  (forall q, ~ handler_of st (btd_service_get_device e service) q) ->
  gap_driver_remove e service st =
  Some (tt,
        append_trace st
          [ev_DBG (GAP_profile_remove
                     (device_get_address e (btd_service_get_device e service)));
           ev_error GAP_service_not_handled]).
Proof.
  intros Hreach Hno.
  apply gap_driver_remove_not_found, reachable_find_no_handler; assumption.
Qed.

Lemma g_slist_remove_other (l : list ptr) (p q : ptr) :
  q <> p -> q ∈ l -> q ∈ g_slist_remove l p.
Proof.
  intros Hne. induction l as [|a l IH]; intros Hin; [inversion Hin|].
  simpl. destruct (a =? p) eqn:E.
  - apply N.eqb_eq in E. subst a.
    apply elem_of_cons in Hin as [-> | Hin]; [contradiction | exact Hin].
  - apply elem_of_cons in Hin as [-> | Hin]; [left | right; auto].
Qed.

Lemma handler_of_removed (st : state) (p : ptr) (tr : list call)
    (device q : ptr) :
  q <> p ->
  handler_of (mk_state (delete p (heap st)) (g_slist_remove (devices st) p) tr)
             device q
  <-> handler_of st device q.
Proof.
  intros Hne. unfold handler_of. cbn [heap devices].
  rewrite lookup_delete_ne by congruence.
  split; intros [Hin Hx]; (split; [|exact Hx]).
  - eapply g_slist_remove_elem, Hin.
  - apply g_slist_remove_other; assumption.
Qed.

(** X9: remove for a device with a handler unregisters from the database and
    releases the database, the client and the device, in this order, with
    the values the handler holds; the handler is freed and unlisted, the
    device has no handler afterwards, and the handlers of other devices are
    as before. *)
Theorem gap_driver_remove_releases (e : env) (service p : ptr)
    (st : state) (g : gas) :
  reachable st ->
  handler_of st (btd_service_get_device e service) p ->
  heap st !! p = Some g ->
  exists st',
    gap_driver_remove e service st = Some (tt, st') /\
    trace st' =
      trace st ++
        [ev_DBG (GAP_profile_remove
                   (device_get_address e (btd_service_get_device e service)));
         ev_gatt_db_unregister (gas_db g) (gas_db_id g);
         ev_gatt_db_unref (gas_db g);
         ev_bt_gatt_client_unref (gas_client g);
         ev_btd_device_unref (gas_device g)] /\
    heap st' !! p = None /\
    (p ∉ devices st') /\
    (forall q, ~ handler_of st' (btd_service_get_device e service) q) /\
    (forall device q, q <> p ->
       (handler_of st' device q <-> handler_of st device q) /\
       heap st' !! q = heap st !! q).
Proof.
  intros Hreach Hh Hg.
  destruct (reachable_invariant st Hreach) as [Hlive [Hnd Huniq]].
  pose proof (reachable_find_handler st _ p Hreach Hh) as Hfind.
  eexists. split; [apply (gap_driver_remove_found e service st p g Hfind Hg)|].
  destruct (g_slist_remove_NoDup (devices st) p Hnd) as [Hnd' Hout].
  split; [reflexivity|].
  split; [apply lookup_delete_eq|].
  split; [exact Hout|].
  split.
  - intros q Hq.
    destruct (decide (q = p)) as [-> | Hne].
    + destruct Hq as [Hin _]. apply Hout, Hin.
    + apply (handler_of_removed st p _ _ q Hne) in Hq.
      apply Hne. eapply Huniq; eassumption.
  - intros device q Hne. split; [apply handler_of_removed, Hne|].
    apply lookup_delete_ne. congruence.
Qed.

(** X8: a probe that allocates and the remove that follows it undo each
    other: the [struct gas] objects and the list [devices] are as before the
    probe, and the one reference the probe took on the device is released by
    the remove. *)
Theorem gap_driver_probe_remove_round_trip (e e' : env) (service service' : ptr)
    (st : state) :
  reachable st ->
  (forall q, ~ handler_of st (btd_service_get_device e service) q) ->
  g_new0 e <> NULL ->
  heap st !! g_new0 e = None ->
  btd_service_get_device e' service' = btd_service_get_device e service ->
  let device := btd_service_get_device e service in
  exists st1 st2,
    gap_driver_probe e service st = Some (0%Z, st1) /\
    gap_driver_remove e' service' st1 = Some (tt, st2) /\
    heap st2 = heap st /\
    devices st2 = devices st /\
    trace st2 =
      trace st ++
        [ev_DBG (GAP_profile_probe (device_get_address e device));
         ev_btd_device_ref device;
         ev_DBG (GAP_profile_remove (device_get_address e' device));
         ev_gatt_db_unregister NULL 0;
         ev_gatt_db_unref NULL;
         ev_bt_gatt_client_unref NULL;
         ev_btd_device_unref device].
Proof.
  intros Hreach Hno Hnn Hfresh Hdev device.
  pose proof (gap_driver_probe_new e service st Hreach Hno Hnn Hfresh) as Hprobe.
  fold device in Hprobe.
  set (st1 := mk_state _ _ _) in Hprobe.
  assert (reachable st1) as Hreach1
    by (eapply reachable_step; [exact Hreach | eapply step_probe, Hprobe]).
  assert (heap st1 !! g_new0 e = Some (mk_gas device NULL 0 NULL NULL)) as Hg1
    by apply lookup_insert_eq.
  assert (handler_of st1 (btd_service_get_device e' service') (g_new0 e)) as Hh1.
  { split; [apply elem_of_app; right; apply list_elem_of_here|].
    eexists. split; [exact Hg1|]. rewrite Hdev. reflexivity. }
  pose proof (reachable_find_handler st1 _ _ Hreach1 Hh1) as Hfind1.
  exists st1. eexists. split; [exact Hprobe|].
  split; [apply (gap_driver_remove_found e' service' st1 _ _ Hfind1 Hg1)|].
  assert (g_new0 e ∉ devices st) as Hnotin.
  { intros Hin. destruct (reachable_invariant st Hreach) as [Hlive _].
    destruct (Hlive _ Hin) as [g0 Hg0]. congruence. }
  unfold st1. cbn [heap devices trace gas_db gas_db_id gas_client gas_device].
  split; [apply delete_insert_id, Hfresh|].
  split; [apply g_slist_remove_last, Hnotin|].
  rewrite Hdev. fold device. rewrite <- app_assoc. reflexivity.
Qed.

(** X6: a probe for a device without a handler, with memory at hand, returns
    0 and lists a new handler that holds the device and nothing else; the
    accept that follows finds this handler and returns 0. *)
Theorem gap_driver_probe_then_accept (e e' : env) (service service' : ptr)
    (st : state) :
  reachable st ->
  (forall q, ~ handler_of st (btd_service_get_device e service) q) ->
  g_new0 e <> NULL ->
  heap st !! g_new0 e = None ->
  btd_service_get_device e' service' = btd_service_get_device e service ->
  let device := btd_service_get_device e service in
  exists st1 st2,
    gap_driver_probe e service st = Some (0%Z, st1) /\
    handler_of st1 device (g_new0 e) /\
    heap st1 !! g_new0 e = Some (mk_gas device NULL 0 NULL NULL) /\
    (forall q, q <> g_new0 e -> heap st1 !! q = heap st !! q) /\
    gap_driver_accept e' service' st1 = Some (0%Z, st2).
Proof.
  intros Hreach Hno Hnn Hfresh Hdev device.
  pose proof (gap_driver_probe_new e service st Hreach Hno Hnn Hfresh) as Hprobe.
  fold device in Hprobe.
  set (st1 := mk_state _ _ _) in Hprobe.
  assert (reachable st1) as Hreach1
    by (eapply reachable_step; [exact Hreach | eapply step_probe, Hprobe]).
  assert (heap st1 !! g_new0 e = Some (mk_gas device NULL 0 NULL NULL)) as Hg1
    by apply lookup_insert_eq.
  assert (handler_of st1 device (g_new0 e)) as Hh1.
  { split; [apply elem_of_app; right; apply list_elem_of_here|].
    eexists. split; [exact Hg1 | reflexivity]. }
  assert (handler_of st1 (btd_service_get_device e' service') (g_new0 e)) as Hh1'
    by (rewrite Hdev; exact Hh1).
  pose proof (reachable_find_handler st1 _ _ Hreach1 Hh1') as Hfind1.
  destruct (gap_driver_accept_found e' service' st1 _ _ Hfind1 Hg1) as [tr Hacc].
  exists st1. eexists. split; [exact Hprobe|].
  split; [exact Hh1|]. split; [exact Hg1|].
  split; [|exact Hacc].
  intros q Hq. unfold st1. cbn [heap]. apply lookup_insert_ne. congruence.
Qed.

(** X7: when [g_new0] gives NULL the probe returns -1 after its first log
    line: no handler is listed, no reference on the device is taken, and an
    accept for the device still finds no handler. *)
Theorem gap_driver_probe_without_memory (e e' : env) (service service' : ptr)
    (st : state) :
  reachable st ->
  (forall q, ~ handler_of st (btd_service_get_device e service) q) ->
  g_new0 e = NULL ->
  btd_service_get_device e' service' = btd_service_get_device e service ->
  let device := btd_service_get_device e service in
  exists st1 st2,
    gap_driver_probe e service st = Some ((-1)%Z, st1) /\
    st1 = append_trace st [ev_DBG (GAP_profile_probe (device_get_address e device))] /\
    gap_driver_accept e' service' st1 = Some ((-1)%Z, st2).
Proof.
  intros Hreach Hno Hnull Hdev device.
  pose proof (gap_driver_probe_not_found e service st
                (reachable_find_no_handler st _ Hreach Hno)) as Hprobe.
  rewrite Hnull, N.eqb_refl in Hprobe. fold device in Hprobe.
  eexists. eexists. split; [exact Hprobe|]. split; [reflexivity|].
  apply gap_driver_accept_not_found.
  apply (g_slist_find_custom_heap _ _ st); [reflexivity|].
  cbn [devices append_trace]. rewrite Hdev.
  apply reachable_find_no_handler; assumption.
Qed.

(** X12: when the scan of accept visits several GAP services, the first is
    bound and handled: one read per device name or appearance characteristic
    of that service, on the new client, with the handler as user data. Each
    further service gives one error line and no read. *)
Theorem gap_driver_accept_first_service (e : env) (service p a : ptr)
    (rest : list ptr) (st : state) (g : gas) :
  reachable st ->
  handler_of st (btd_service_get_device e service) p ->
  heap st !! p = Some g ->
  let device := btd_service_get_device e service in
  let db := btd_device_get_gatt_db e device in
  let client := btd_device_get_gatt_client e device in
  gatt_db_foreach_service e db (bt_uuid16_create 0x1800) = a :: rest ->
  a <> NULL ->
  let bound := mk_gas (gas_device g) db (gatt_db_register e db p) client a in
  exists reads,
    gap_driver_accept e service st =
      Some (0%Z,
            append_trace (poke st p bound)
              (accept_calls e service g p ++ reads ++
               replicate (length rest)
                         (ev_error More_than_one_GAP_service_exists))) /\
    Forall (fun c => issued_for bound p c = true) reads /\
    count_calls is_read_request reads =
      length (List.filter (char_read e) (gatt_db_service_foreach_char e a)).
Proof.
  intros Hreach Hh Hg device db client Hfound Ha bound.
  pose proof (reachable_find_handler st _ p Hreach Hh) as Hfind.
  rewrite (gap_driver_accept_scan e service p st g Hfind Hg).
  fold device. fold db. fold client. change GAP_UUID16 with 0x1800.
  rewrite Hfound.
  set (st0 := append_trace _ _).
  assert (heap st0 !! p =
          Some (mk_gas (gas_device g) db (gatt_db_register e db p) client NULL))
    as Hg0 by apply lookup_insert_eq.
  cbn [foreach]. unfold bind at 1. unfold bind at 1.
  rewrite (foreach_gap_service_eq _ _ _ _ _ Hg0). cbn [gas_attr].
  rewrite N.eqb_refl.
  assert (heap (poke st0 p bound) !! p = Some bound) as Hg1
    by apply lookup_insert_eq.
  destruct (handle_gap_service_calls e p (poke st0 p bound) bound Hg1)
    as (reads & Hreads & Hall & Hcount).
  change (with_attr
            (mk_gas (gas_device g) db (gatt_db_register e db p) client NULL) a)
    with bound.
  rewrite Hreads.
  rewrite (foreach_gap_service_bound e p rest _ bound)
    by (try exact Ha; apply lookup_insert_eq).
  exists reads. split; [|split; [exact Hall | exact Hcount]].
  unfold ret. f_equal. f_equal.
  unfold st0, append_trace, poke. cbn [heap devices trace].
  rewrite insert_insert_eq, <- !app_assoc. reflexivity.
Qed.

(** X15: a service-added notification that passes the three guards binds the
    node and asks one read per device name or appearance characteristic of
    the added service, in the order of the characteristics: for a device
    name a long read of the characteristic's value handle from offset 0,
    completed by [read_device_name_cb]; for an appearance a plain read of
    its value handle, completed by [read_appearance_cb]; each on the
    handler's client and with the handler as user data. Apart from log
    lines it calls nothing else. *)
Theorem service_added_requests (e : env) (attr user_data : ptr)
    (st : state) (g : gas) :
  heap st !! user_data = Some g ->
  bt_gatt_client_is_ready e (gas_client g) = true ->
  bt_uuid_cmp (gatt_db_attribute_get_service_uuid e attr)
              (bt_uuid16_create 0x1800) = 0%Z ->
  gas_attr g = NULL ->
  exists reads,
    service_added e attr user_data st =
      Some (tt, append_trace (poke st user_data (with_attr g attr))
                  (ev_DBG GAP_service_added :: reads)) /\
    Forall (fun c => issued_for g user_data c = true) reads /\
    List.filter is_read_request reads =
      omap (read_request_for e g user_data)
           (gatt_db_service_foreach_char e attr) /\
    Forall (fun c => is_log c = true)
           (List.filter (fun c => negb (is_read_request c)) reads) /\
    count_calls is_read_request reads =
      length (List.filter (char_read e) (gatt_db_service_foreach_char e attr)).
Proof.
  intros Hg Hready Hgap Hnull.
  unfold service_added. erewrite bind_load by exact Hg.
  rewrite Hready. cbn [negb]. change GAP_UUID16 with 0x1800.
  rewrite Hgap, Hnull. cbn [negb Z.eqb N.eqb NULL].
  rewrite bind_emit. erewrite bind_store by exact Hg.
  set (st1 := poke _ _ _).
  assert (heap st1 !! user_data = Some (with_attr g attr)) as Hg1
    by apply lookup_insert_eq.
  destruct (handle_gap_service_reads e user_data st1 _ Hg1)
    as (reads & Hreads & Hall & Hreq).
  change (Forall (fun c => issued_for g user_data c = true) reads) in Hall.
  change (List.filter is_read_request reads =
            omap (read_request_for e g user_data)
                 (gatt_db_service_foreach_char e attr)) in Hreq.
  exists reads. rewrite Hreads.
  split; [|split; [exact Hall | split; [exact Hreq | split]]].
  - unfold st1, append_trace, poke. cbn [heap devices trace].
    rewrite <- app_assoc. reflexivity.
  - apply Forall_forall. intros c Hc.
    apply list_elem_of_In, List.filter_In in Hc as [Hin Hnot].
    rewrite Forall_forall in Hall.
    apply list_elem_of_In, Hall in Hin.
    destruct c; try discriminate; reflexivity.
  - unfold count_calls. rewrite Hreq. apply read_request_for_count.
Qed.

(** X16: for a handler that is not bound, a service-added notification followed
    by the service-removed notification for the same node leaves every
    [struct gas] and the list [devices] as they were, whatever the guards of
    the first decided. *)
Theorem service_added_then_removed (e : env) (attr user_data : ptr)
    (st : state) (g : gas) :
  heap st !! user_data = Some g ->
  gas_attr g = NULL ->
  exists st1 st2,
    service_added e attr user_data st = Some (tt, st1) /\
    service_removed attr user_data st1 = Some (tt, st2) /\
    heap st2 = heap st /\
    devices st2 = devices st.
Proof.
  intros Hg Hnull.
  destruct (service_added_eq e attr user_data st g Hg) as [tr Hadd].
  assert (with_attr g NULL = g) as Hid
    by (rewrite <- Hnull at 1; apply with_attr_id).
  assert (forall s g1, heap s !! user_data = Some g1 ->
            (gas_attr g1 = attr \/ g1 = g) ->
            with_attr g1 NULL = g ->
            <[user_data := g]> (heap s) = heap st -> devices s = devices st ->
            exists st2, service_removed attr user_data s = Some (tt, st2) /\
                        heap st2 = heap st /\ devices st2 = devices st) as Hrem.
  { intros s g1 Hg1 Hor Hcl Hheap Hdev.
    rewrite (service_removed_eq attr user_data s g1 Hg1).
    destruct (gas_attr g1 =? attr) eqn:E.
    - eexists. split; [reflexivity|]. cbn [heap devices poke append_trace].
      rewrite Hcl. split; assumption.
    - exists s. split; [reflexivity|]. split; [|exact Hdev].
      rewrite <- Hheap. symmetry. apply insert_id.
      destruct Hor as [Heq | ->]; [|exact Hg1].
      apply N.eqb_neq in E. contradiction. }
  rewrite Hadd.
  destruct (negb (bt_gatt_client_is_ready e (gas_client g))).
  { destruct (Hrem st g Hg (or_intror eq_refl) Hid (insert_id _ _ _ Hg) eq_refl)
      as (st2 & H2 & Hh & Hd).
    exists st, st2. auto. }
  destruct (negb (bt_uuid_cmp _ _ =? 0)%Z).
  { destruct (Hrem st g Hg (or_intror eq_refl) Hid (insert_id _ _ _ Hg) eq_refl)
      as (st2 & H2 & Hh & Hd).
    exists st, st2. auto. }
  rewrite Hnull. cbn [negb N.eqb NULL].
  set (st1 := append_trace _ _).
  destruct (Hrem st1 (with_attr g attr)) as (st2 & H2 & Hh & Hd).
  - apply lookup_insert_eq.
  - left. reflexivity.
  - exact Hid.
  - unfold st1. cbn [heap append_trace poke].
    rewrite insert_insert_eq. apply insert_id, Hg.
  - reflexivity.
  - exists st1, st2. auto.
Qed.

(** X13: an accept after an accept (a reconnection) first gives back what the
    earlier accept took: it unregisters the registration id the earlier one
    stored and releases the database and the client the earlier one
    referenced, then takes the new ones. *)
Theorem gap_driver_accept_reconnect (e1 e2 : env) (service1 service2 p : ptr)
    (st : state) (g : gas) :
  reachable st ->
  handler_of st (btd_service_get_device e1 service1) p ->
  heap st !! p = Some g ->
  btd_service_get_device e2 service2 = btd_service_get_device e1 service1 ->
  let device := btd_service_get_device e1 service1 in
  let db1 := btd_device_get_gatt_db e1 device in
  let client1 := btd_device_get_gatt_client e1 device in
  let db2 := btd_device_get_gatt_db e2 device in
  let client2 := btd_device_get_gatt_client e2 device in
  exists st1 st2 scan2,
    gap_driver_accept e1 service1 st = Some (0%Z, st1) /\
    gap_driver_accept e2 service2 st1 = Some (0%Z, st2) /\
    trace st2 =
      trace st1 ++
        [ev_DBG (GAP_profile_accept (device_get_address e2 device));
         ev_gatt_db_unregister db1 (gatt_db_register e1 db1 p);
         ev_gatt_db_unref db1;
         ev_bt_gatt_client_unref client1;
         ev_gatt_db_ref db2;
         ev_bt_gatt_client_ref client2;
         ev_gatt_db_register db2 p] ++ scan2 /\
    heap st2 =
      <[p := mk_gas (gas_device g) db2 (gatt_db_register e2 db2 p) client2
                    (first_bound (gatt_db_foreach_service e2 db2
                                    (bt_uuid16_create 0x1800)))]> (heap st) /\
    devices st2 = devices st.
Proof.
  intros Hreach Hh Hg Hdev device db1 client1 db2 client2.
  pose proof (reachable_find_handler st _ p Hreach Hh) as Hfind.
  destruct (gap_driver_accept_found e1 service1 st p g Hfind Hg) as [tr1 Hacc1].
  fold device in Hacc1. fold db1 in Hacc1. fold client1 in Hacc1.
  set (st1 := append_trace _ _) in Hacc1.
  assert (reachable st1) as Hreach1
    by (eapply reachable_step; [exact Hreach | eapply step_accept, Hacc1]).
  set (g1 := mk_gas (gas_device g) db1 (gatt_db_register e1 db1 p) client1
                    (first_bound (gatt_db_foreach_service e1 db1
                                    (bt_uuid16_create GAP_UUID16)))).
  assert (heap st1 !! p = Some g1) as Hg1 by apply lookup_insert_eq.
  assert (handler_of st1 (btd_service_get_device e2 service2) p) as Hh1.
  { split; [exact (proj1 Hh)|]. exists g1. split; [exact Hg1|].
    rewrite Hdev. destruct Hh as [_ (g0 & Hg0 & Hd0)].
    rewrite Hg in Hg0. injection Hg0 as <-. exact Hd0. }
  pose proof (reachable_find_handler st1 _ p Hreach1 Hh1) as Hfind1.
  destruct (gap_driver_accept_found e2 service2 st1 p g1 Hfind1 Hg1)
    as [tr2 Hacc2].
  rewrite Hdev in Hacc2. fold device in Hacc2.
  fold db2 in Hacc2. fold client2 in Hacc2.
  exists st1. eexists. exists tr2.
  split; [exact Hacc1|]. split; [exact Hacc2|].
  unfold accept_calls. rewrite Hdev. fold device. fold db2. fold client2.
  cbn [heap devices trace append_trace poke gas_db gas_db_id gas_client g1
       gas_device].
  split; [reflexivity|]. split; [|reflexivity].
  unfold st1. cbn [heap append_trace poke].
  rewrite insert_insert_eq. reflexivity.
Qed.

(** X14: a remove after an accept gives back what the accept took: it
    unregisters the registration id the accept stored, releases the database
    and the client the accept referenced and the device the probe
    referenced, and frees the handler. *)
Theorem gap_driver_accept_then_remove (e1 e2 : env) (service1 service2 p : ptr)
    (st : state) (g : gas) :
  reachable st ->
  handler_of st (btd_service_get_device e1 service1) p ->
  heap st !! p = Some g ->
  btd_service_get_device e2 service2 = btd_service_get_device e1 service1 ->
  let device := btd_service_get_device e1 service1 in
  let db1 := btd_device_get_gatt_db e1 device in
  let client1 := btd_device_get_gatt_client e1 device in
  exists st1 st2,
    gap_driver_accept e1 service1 st = Some (0%Z, st1) /\
    gap_driver_remove e2 service2 st1 = Some (tt, st2) /\
    trace st2 =
      trace st1 ++
        [ev_DBG (GAP_profile_remove (device_get_address e2 device));
         ev_gatt_db_unregister db1 (gatt_db_register e1 db1 p);
         ev_gatt_db_unref db1;
         ev_bt_gatt_client_unref client1;
         ev_btd_device_unref device] /\
    heap st2 = delete p (heap st) /\
    devices st2 = g_slist_remove (devices st) p.
Proof.
  intros Hreach Hh Hg Hdev device db1 client1.
  pose proof (reachable_find_handler st _ p Hreach Hh) as Hfind.
  destruct (gap_driver_accept_found e1 service1 st p g Hfind Hg) as [tr1 Hacc1].
  fold device in Hacc1. fold db1 in Hacc1. fold client1 in Hacc1.
  set (st1 := append_trace _ _) in Hacc1.
  assert (reachable st1) as Hreach1
    by (eapply reachable_step; [exact Hreach | eapply step_accept, Hacc1]).
  set (g1 := mk_gas (gas_device g) db1 (gatt_db_register e1 db1 p) client1
                    (first_bound (gatt_db_foreach_service e1 db1
                                    (bt_uuid16_create GAP_UUID16)))).
  assert (heap st1 !! p = Some g1) as Hg1 by apply lookup_insert_eq.
  assert (gas_device g = device) as Hgd.
  { destruct Hh as [_ (g0 & Hg0 & Hd0)].
    rewrite Hg in Hg0. injection Hg0 as <-. exact Hd0. }
  assert (handler_of st1 (btd_service_get_device e2 service2) p) as Hh1.
  { split; [exact (proj1 Hh)|]. exists g1. split; [exact Hg1|].
    rewrite Hdev. exact Hgd. }
  pose proof (reachable_find_handler st1 _ p Hreach1 Hh1) as Hfind1.
  pose proof (gap_driver_remove_found e2 service2 st1 p g1 Hfind1 Hg1) as Hrem.
  rewrite Hdev in Hrem. fold device in Hrem.
  exists st1. eexists. split; [exact Hacc1|]. split; [exact Hrem|].
  cbn [heap devices trace gas_db gas_db_id gas_client gas_device g1].
  rewrite Hgd. split; [reflexivity|]. split; [|reflexivity].
  unfold st1. cbn [heap append_trace poke].
  apply delete_insert_eq.
Qed.

(** X17: in every state the plugin can reach, accept and remove run without
    touching a freed [struct gas], and so does probe unless the allocator
    hands out an address that is in use; the state they leave is again one
    the plugin can reach. *)
Theorem hooks_defined (e : env) (service : ptr) (st : state) :
  reachable st ->
  (exists r st', gap_driver_accept e service st = Some (r, st') /\ reachable st') /\
  (exists st', gap_driver_remove e service st = Some (tt, st') /\ reachable st') /\
  (g_new0 e = NULL \/ heap st !! g_new0 e = None ->
   exists r st', gap_driver_probe e service st = Some (r, st') /\ reachable st').
Proof.
  intros Hreach. destruct (reachable_invariant st Hreach) as [Hlive _].
  destruct (g_slist_find_custom_total (devices st)
              (btd_service_get_device e service) st Hlive) as [l Hfind].
  destruct l as [p|].
  - destruct (g_slist_find_custom_spec _ _ _ _ _ Hfind) as [_ [_ (g & Hg & _)]].
    destruct (gap_driver_accept_found e service st p g Hfind Hg) as [tr Hacc].
    pose proof (gap_driver_remove_found e service st p g Hfind Hg) as Hrem.
    pose proof (gap_driver_probe_found e service st p Hfind) as Hprobe.
    split; [|split].
    + eexists. eexists. split; [exact Hacc|].
      eapply reachable_step; [exact Hreach | eapply step_accept, Hacc].
    + eexists. split; [exact Hrem|].
      eapply reachable_step; [exact Hreach | eapply step_remove, Hrem].
    + intros _. eexists. eexists. split; [exact Hprobe|].
      eapply reachable_step; [exact Hreach | eapply step_probe, Hprobe].
  - pose proof (gap_driver_accept_not_found e service st Hfind) as Hacc.
    pose proof (gap_driver_remove_not_found e service st Hfind) as Hrem.
    pose proof (gap_driver_probe_not_found e service st Hfind) as Hprobe.
    split; [|split].
    + eexists. eexists. split; [exact Hacc|].
      eapply reachable_step; [exact Hreach | eapply step_accept, Hacc].
    + eexists. split; [exact Hrem|].
      eapply reachable_step; [exact Hreach | eapply step_remove, Hrem].
    + intros Halloc.
      assert (exists r st', gap_driver_probe e service st = Some (r, st'))
        as (r & st' & Hp).
      { rewrite Hprobe. destruct (g_new0 e =? NULL) eqn:E.
        - eexists. eexists. reflexivity.
        - destruct Halloc as [Hn | Hf];
            [apply N.eqb_neq in E; contradiction|].
          rewrite Hf. eexists. eexists. reflexivity. }
      exists r, st'. split; [exact Hp|].
      eapply reachable_step; [exact Hreach | eapply step_probe, Hp].
Qed.

(** X18: a read completion that arrives after the handler it names was
    removed: a failed read only logs, but a successful Device Name read of
    nonzero length, and a successful Appearance read of length 2, go on to
    read the device from the freed [struct gas]. *)
Theorem read_completion_after_remove (e : env) (service p : ptr)
    (st : state) (g : gas) :
  reachable st ->
  handler_of st (btd_service_get_device e service) p ->
  heap st !! p = Some g ->
  exists st',
    gap_driver_remove e service st = Some (tt, st') /\
    (forall att_ecode value len,
       read_device_name_cb false att_ecode value len p st' =
         Some (tt, append_trace st'
                     [ev_DBG (Reading_device_name_failed att_ecode)]) /\
       read_appearance_cb false att_ecode value len p st' =
         Some (tt, append_trace st'
                     [ev_DBG (Reading_appearance_failed att_ecode)])) /\
    (forall att_ecode value, read_device_name_cb true att_ecode value 0 p st' =
                             Some (tt, st')) /\
    (forall att_ecode value len,
       len <> 0 -> read_device_name_cb true att_ecode value len p st' = None) /\
    (forall att_ecode value,
       read_appearance_cb true att_ecode value 2 p st' = None).
Proof.
  intros Hreach Hh Hg.
  pose proof (reachable_find_handler st _ p Hreach Hh) as Hfind.
  eexists. split; [apply (gap_driver_remove_found e service st p g Hfind Hg)|].
  set (st' := mk_state _ _ _).
  assert (heap st' !! p = None) as Hfree by apply lookup_delete_eq.
  split; [intros; split; reflexivity|].
  split; [intros; reflexivity|].
  split.
  - intros att_ecode value len Hlen. unfold read_device_name_cb.
    cbn [negb]. apply N.eqb_neq in Hlen. rewrite Hlen.
    cbv zeta. rewrite bind_emit. unfold bind, load.
    cbn [heap append_trace]. rewrite Hfree. reflexivity.
  - intros att_ecode value. unfold read_appearance_cb. cbn [negb N.eqb Pos.eqb].
    unfold bind at 1, deref. destruct (get_le16 value); [|reflexivity].
    rewrite bind_emit. unfold bind, load.
    cbn [heap append_trace]. rewrite Hfree. reflexivity.
Qed.

End Hooks.

(** ** References taken and released *)

Section References.
Import LibC GLib.
Context {hdr : Headers}.

Lemma filter_length_ext (P P' : N -> bool) (l : list N) :
  (forall q, q ∈ l -> P' q = P q) ->
  length (List.filter P' l) = length (List.filter P l).
Proof.
  induction l as [|a l IH]; intros Hext; [reflexivity|].
  cbn [List.filter]. rewrite (Hext a) by left.
  assert (length (List.filter P' l) = length (List.filter P l)) as Hl
    by (apply IH; intros q Hq; apply Hext; right; exact Hq).
  destruct (P a); cbn [length]; congruence.
Qed.

Lemma filter_length_snoc (P : N -> bool) (l : list N) (p : N) :
  length (List.filter P (l ++ [p])) =
  (length (List.filter P l) + Nat.b2n (P p))%nat.
Proof.
  rewrite List.filter_app, length_app. cbn [List.filter].
  destruct (P p); reflexivity.
Qed.

Lemma filter_length_remove (P : N -> bool) (l : list N) (p : N) :
  p ∈ l ->
  (length (List.filter P (g_slist_remove l p)) + Nat.b2n (P p))%nat =
  length (List.filter P l).
Proof.
  induction l as [|a l IH]; intros Hin; [inversion Hin|].
  cbn [g_slist_remove List.filter]. destruct (a =? p) eqn:E.
  - apply N.eqb_eq in E. subst a. destruct (P p); cbn [length Nat.b2n]; lia.
  - apply elem_of_cons in Hin as [-> | Hin];
      [rewrite N.eqb_refl in E; discriminate|].
    specialize (IH Hin). cbn [List.filter].
    destruct (P a); cbn [length]; lia.
Qed.

Lemma filter_length_mid (P : N -> bool) (l1 l2 : list N) (p : N) :
  length (List.filter P (l1 ++ p :: l2)) =
  (length (List.filter P l1) + Nat.b2n (P p) + length (List.filter P l2))%nat.
Proof.
  rewrite List.filter_app, length_app. cbn [List.filter].
  destruct (P p); cbn [length Nat.b2n]; lia.
Qed.

Lemma holders_same (f : gas -> ptr) (st st' : state) (d : ptr) :
  devices st' = devices st ->
  (forall q, q ∈ devices st -> f <$> (heap st' !! q) = f <$> (heap st !! q)) ->
  holders f st' d = holders f st d.
Proof.
  intros Hd Hh. unfold holders. rewrite Hd. apply filter_length_ext.
  intros q Hq. unfold holds. specialize (Hh q Hq).
  destruct (heap st' !! q), (heap st !! q); cbn in Hh; congruence.
Qed.

Lemma holders_probe (f : gas -> ptr) (st : state) (p : ptr) (g' : gas)
    (tr : list call) (d : ptr) :
  p ∉ devices st ->
  holders f (mk_state (<[p := g']> (heap st)) (devices st ++ [p]) tr) d =
  (holders f st d + Nat.b2n (f g' =? d)%N)%nat.
Proof.
  intros Hp. unfold holders. cbn [heap devices].
  rewrite filter_length_snoc. f_equal.
  - apply filter_length_ext. intros q Hq. unfold holds.
    rewrite lookup_insert_ne by (intros ->; contradiction). reflexivity.
  - unfold holds. rewrite lookup_insert_eq. reflexivity.
Qed.

Lemma holders_remove (f : gas -> ptr) (st : state) (p : ptr) (g : gas)
    (tr : list call) (d : ptr) :
  NoDup (devices st) -> p ∈ devices st -> heap st !! p = Some g ->
  (holders f (mk_state (delete p (heap st)) (g_slist_remove (devices st) p) tr) d
   + Nat.b2n (f g =? d)%N)%nat = holders f st d.
Proof.
  intros Hnd Hin Hg. unfold holders. cbn [heap devices].
  rewrite <- (filter_length_remove (holds f (heap st) d) (devices st) p Hin).
  f_equal.
  - apply filter_length_ext. intros q Hq. unfold holds.
    destruct (g_slist_remove_NoDup (devices st) p Hnd) as [_ Hout].
    rewrite lookup_delete_ne by (intros ->; contradiction). reflexivity.
  - unfold holds. rewrite Hg. reflexivity.
Qed.

Lemma g_slist_remove_snoc (l : list ptr) (p : ptr) :
  NoDup l -> p ∈ l ->
  exists l1 l2, l = l1 ++ p :: l2 /\ g_slist_remove l p = l1 ++ l2 /\
                (p ∉ l1) /\ (p ∉ l2).
Proof.
  induction 1 as [|a l Ha Hnd IH]; intros Hin; [inversion Hin|].
  cbn [g_slist_remove]. destruct (a =? p) eqn:E.
  - apply N.eqb_eq in E. subst a. exists [], l.
    repeat split; try reflexivity; [apply not_elem_of_nil | exact Ha].
  - apply N.eqb_neq in E.
    apply elem_of_cons in Hin as [-> | Hin]; [congruence|].
    destruct (IH Hin) as (l1 & l2 & -> & Hr & H1 & H2).
    exists (a :: l1), l2. rewrite Hr.
    repeat split; try reflexivity; [|exact H2].
    apply not_elem_of_cons. split; [congruence | exact H1].
Qed.

Lemma holders_poke (f : gas -> ptr) (st : state) (p : ptr) (g g' : gas)
    (tr : list call) (d : ptr) :
  NoDup (devices st) -> p ∈ devices st -> heap st !! p = Some g ->
  (holders f (append_trace (poke st p g') tr) d + Nat.b2n (f g =? d)%N)%nat =
  (holders f st d + Nat.b2n (f g' =? d)%N)%nat.
Proof.
  intros Hnd Hin Hg. unfold holders. cbn [heap devices append_trace poke].
  destruct (g_slist_remove_snoc (devices st) p Hnd Hin)
    as (l1 & l2 & -> & _ & H1 & H2).
  rewrite !filter_length_mid.
  assert (forall l, p ∉ l ->
            length (List.filter (holds f (<[p := g']> (heap st)) d) l) =
            length (List.filter (holds f (heap st) d) l)) as Hoff.
  { intros l Hl. apply filter_length_ext. intros q Hq. unfold holds.
    rewrite lookup_insert_ne by (intros ->; contradiction). reflexivity. }
  rewrite (Hoff l1 H1), (Hoff l2 H2).
  assert (holds f (<[p := g']> (heap st)) d p = (f g' =? d)) as ->
    by (unfold holds; rewrite lookup_insert_eq; reflexivity).
  assert (holds f (heap st) d p = (f g =? d)) as ->
    by (unfold holds; rewrite Hg; reflexivity).
  lia.
Qed.

Lemma issued_for_quiet (g : gas) (gas : ptr) (c : call) :
  issued_for g gas c = true -> is_refcount_call c = false.
Proof. destruct c; cbn; congruence. Qed.

Lemma count_calls_quiet (P : call -> bool) (tr : list call) :
  (forall c, P c = true -> is_refcount_call c = true) ->
  Forall (fun c => is_refcount_call c = false) tr ->
  count_calls P tr = 0%nat.
Proof.
  intros HP. induction 1 as [|c tr Hc _ IH]; [reflexivity|].
  unfold count_calls in *. cbn [List.filter].
  destruct (P c) eqn:E; [|exact IH].
  apply HP in E. congruence.
Qed.

Lemma same_refs_intro (st st' : state) (tr : list call) :
  devices st' = devices st ->
  (heap st' = heap st \/
   exists p g a, heap st !! p = Some g /\
                 heap st' = <[p := with_attr g a]> (heap st)) ->
  trace st' = trace st ++ tr ->
  Forall (fun c => is_refcount_call c = false) tr ->
  same_refs st st'.
Proof.
  intros Hd Hh Ht Hq. split; [exact Hd|]. split; [|exists tr; auto].
  intros q. destruct Hh as [-> | (p & g & a & Hg & ->)]; [reflexivity|].
  destruct (decide (p = q)) as [<- | Hne].
  - rewrite lookup_insert_eq, Hg. reflexivity.
  - rewrite lookup_insert_ne by assumption. reflexivity.
Qed.

Lemma balanced_same_refs (f : gas -> ptr) (is_ref is_unref : ptr -> call -> bool)
    (st st' : state) (d : ptr) :
  (forall c, is_ref d c = true -> is_refcount_call c = true) ->
  (forall c, is_unref d c = true -> is_refcount_call c = true) ->
  (forall g g', refs_of g' = refs_of g -> f g' = f g) ->
  same_refs st st' ->
  balanced f is_ref is_unref st d -> balanced f is_ref is_unref st' d.
Proof.
  intros Hr Hu Hf (Hd & Hh & tr & Ht & Hq) Hb. unfold balanced in *.
  rewrite Ht, !count_calls_app.
  rewrite (count_calls_quiet _ _ Hr Hq), (count_calls_quiet _ _ Hu Hq).
  rewrite (holders_same f st st' d Hd).
  - lia.
  - intros q _. specialize (Hh q).
    destruct (heap st' !! q) as [g'|], (heap st !! q) as [g|];
      cbn in *; try congruence.
    f_equal. apply Hf. congruence.
Qed.

Lemma references_balanced_same_refs (st st' : state) :
  same_refs st st' -> references_balanced st -> references_balanced st'.
Proof.
  intros Hs Hb d. destruct (Hb d) as [Hdev Hrest].
  split; [|intros Hd; destruct (Hrest Hd) as [Hdb Hcl]; split].
  - eapply balanced_same_refs; [| | |exact Hs|exact Hdev].
    + intros c. destruct c; cbn; congruence.
    + intros c. destruct c; cbn; congruence.
    + intros g g'. unfold refs_of. congruence.
  - eapply balanced_same_refs; [| | |exact Hs|exact Hdb].
    + intros c. destruct c; cbn; congruence.
    + intros c. destruct c; cbn; congruence.
    + intros g g'. unfold refs_of. congruence.
  - eapply balanced_same_refs; [| | |exact Hs|exact Hcl].
    + intros c. destruct c; cbn; congruence.
    + intros c. destruct c; cbn; congruence.
    + intros g g'. unfold refs_of. congruence.
Qed.

(** The scan of accept, with the calls it makes. *)
Lemma foreach_gap_service_scan_calls e (gas : ptr) (found : list ptr) :
  forall st g, heap st !! gas = Some g ->
  exists tr,
    foreach found (fun attr => foreach_gap_service e attr gas) st =
    Some (tt, append_trace
                (poke st gas (with_attr g (scan_result (gas_attr g) found)))
                tr) /\
    Forall (fun c => is_refcount_call c = false) tr.
Proof.
  induction found as [|a l IH]; intros st g Hg.
  - destruct (foreach_gap_service_scan e gas [] st g Hg) as [tr Htr].
    exists []. split; [|constructor].
    cbn [foreach] in *. unfold ret in *. f_equal. f_equal.
    unfold scan_result. cbn [first_bound].
    assert ((if gas_attr g =? NULL then NULL else gas_attr g) = gas_attr g) as ->.
    { destruct (gas_attr g =? NULL) eqn:E; [|reflexivity].
      apply N.eqb_eq in E. congruence. }
    rewrite with_attr_id, poke_id by exact Hg.
    symmetry. apply append_trace_nil.
  - cbn [foreach]. unfold bind at 1.
    rewrite (foreach_gap_service_eq _ _ _ _ _ Hg).
    unfold scan_result. cbn [first_bound].
    destruct (gas_attr g =? NULL) eqn:E.
    + set (st1 := poke st gas (with_attr g a)).
      assert (heap st1 !! gas = Some (with_attr g a)) as Hg1
        by apply lookup_insert_eq.
      destruct (handle_gap_service_calls e gas st1 _ Hg1) as (tr1 & -> & F1 & _).
      destruct (IH (append_trace st1 tr1) _ Hg1) as (tr2 & -> & F2).
      exists (tr1 ++ tr2). split.
      * unfold scan_result. simpl gas_attr.
        f_equal. f_equal. unfold st1, append_trace, poke. simpl.
        rewrite insert_insert_eq, app_assoc. reflexivity.
      * apply Forall_app. split; [|exact F2].
        eapply Forall_impl; [exact F1|].
        intros c Hc. eapply issued_for_quiet, Hc.
    + destruct (IH (append_trace st [ev_error More_than_one_GAP_service_exists])
                   g Hg) as (tr2 & -> & F2).
      exists (ev_error More_than_one_GAP_service_exists :: tr2). split.
      * unfold scan_result. rewrite E.
        f_equal. f_equal. unfold append_trace, poke. simpl.
        rewrite <- app_assoc. reflexivity.
      * constructor; [reflexivity | exact F2].
Qed.

Lemma gap_driver_accept_found_calls e (service gas : ptr) st g :
  let device := btd_service_get_device e service in
  let db := btd_device_get_gatt_db e device in
  let client := btd_device_get_gatt_client e device in
  g_slist_find_custom (devices st) device st = Some (Some gas, st) ->
  heap st !! gas = Some g ->
  exists tr attr',
    gap_driver_accept e service st =
    Some (0%Z,
          append_trace
            (poke st gas
               (mk_gas (gas_device g) db (gatt_db_register e db gas) client attr'))
            (accept_calls e service g gas ++ tr)) /\
    Forall (fun c => is_refcount_call c = false) tr.
Proof.
  intros device db client Hfind Hg.
  rewrite (gap_driver_accept_scan e service gas st g Hfind Hg).
  fold device. fold db. fold client.
  set (st0 := append_trace _ _).
  assert (heap st0 !! gas =
          Some (mk_gas (gas_device g) db (gatt_db_register e db gas) client NULL))
    as Hg0 by apply lookup_insert_eq.
  destruct (foreach_gap_service_scan_calls e gas
              (gatt_db_foreach_service e db (bt_uuid16_create GAP_UUID16))
              st0 _ Hg0) as (tr & Htr & Hq).
  exists tr. eexists. split; [|exact Hq].
  unfold bind. rewrite Htr. unfold ret. f_equal. f_equal.
  unfold st0, append_trace, poke, with_attr. cbn [heap devices trace gas_device
    gas_db gas_db_id gas_client gas_attr].
  rewrite insert_insert_eq, <- app_assoc. reflexivity.
Qed.

Lemma same_refs_append (st : state) (tr : list call) :
  Forall (fun c => is_refcount_call c = false) tr ->
  same_refs st (append_trace st tr).
Proof.
  intros Hq. apply (same_refs_intro _ _ tr); auto.
Qed.

Lemma service_added_same_refs e (attr user_data : ptr) st st' :
  service_added e attr user_data st = Some (tt, st') -> same_refs st st'.
Proof.
  destruct (heap st !! user_data) as [g|] eqn:Hg.
  2: { unfold service_added, bind, load. rewrite Hg. discriminate. }
  unfold service_added. erewrite bind_load by exact Hg.
  destruct (bt_gatt_client_is_ready e (gas_client g)); cbn [negb].
  2: { unfold ret. intros [= <-]. rewrite <- (append_trace_nil st) at 2.
       apply same_refs_append. constructor. }
  destruct (bt_uuid_cmp _ _ =? 0)%Z; cbn [negb].
  2: { unfold ret. intros [= <-]. rewrite <- (append_trace_nil st) at 2.
       apply same_refs_append. constructor. }
  destruct (gas_attr g =? NULL); cbn [negb].
  2: { unfold emit. intros [= <-].
       eapply same_refs_intro;
         [reflexivity | left; reflexivity | reflexivity | repeat constructor]. }
  rewrite bind_emit. erewrite bind_store by exact Hg.
  set (st1 := poke _ _ _).
  assert (heap st1 !! user_data = Some (with_attr g attr)) as Hg1
    by apply lookup_insert_eq.
  destruct (handle_gap_service_calls e user_data st1 _ Hg1) as (tr & -> & F & _).
  intros [= <-].
  apply (same_refs_intro _ _ (ev_DBG GAP_service_added :: tr)).
  - reflexivity.
  - right. exists user_data, g, attr. split; [exact Hg | reflexivity].
  - unfold st1. cbn [trace append_trace poke]. rewrite <- app_assoc. reflexivity.
  - constructor; [reflexivity|].
    eapply Forall_impl; [exact F|]. intros c Hc. eapply issued_for_quiet, Hc.
Qed.

Lemma service_removed_same_refs (attr user_data : ptr) st st' :
  service_removed attr user_data st = Some (tt, st') -> same_refs st st'.
Proof.
  destruct (heap st !! user_data) as [g|] eqn:Hg.
  2: { unfold service_removed, bind, load. rewrite Hg. discriminate. }
  rewrite (service_removed_eq attr user_data st g Hg). intros [= <-].
  destruct (gas_attr g =? attr).
  - apply (same_refs_intro _ _ [ev_DBG GAP_service_removed]).
    + reflexivity.
    + right. exists user_data, g, NULL. split; [exact Hg | reflexivity].
    + reflexivity.
    + repeat constructor.
  - rewrite <- (append_trace_nil st) at 2. apply same_refs_append. constructor.
Qed.

Lemma read_device_name_cb_same_refs (success : bool) (att_ecode : N)
    (value : list byte) (len : N) (user_data : ptr) st st' :
  read_device_name_cb success att_ecode value len user_data st = Some (tt, st') ->
  same_refs st st'.
Proof.
  unfold read_device_name_cb.
  destruct success; cbn [negb].
  - destruct (len =? 0).
    + unfold ret. intros [= <-]. rewrite <- (append_trace_nil st) at 2.
      apply same_refs_append. constructor.
    + cbv zeta. rewrite bind_emit. unfold bind, load, emit.
      cbn [heap append_trace].
      destruct (heap st !! user_data); [|discriminate].
      intros [= <-].
      eapply same_refs_intro;
        [reflexivity | left; reflexivity
        | cbn [trace]; rewrite <- app_assoc; reflexivity
        | repeat constructor].
  - unfold emit. intros [= <-]. eapply same_refs_intro;
      [reflexivity | left; reflexivity | reflexivity | repeat constructor].
Qed.

Lemma read_appearance_cb_same_refs (success : bool) (att_ecode : N)
    (value : list byte) (len : N) (user_data : ptr) st st' :
  read_appearance_cb success att_ecode value len user_data st = Some (tt, st') ->
  same_refs st st'.
Proof.
  unfold read_appearance_cb.
  destruct success; cbn [negb].
  - destruct (len =? 2); cbn [negb].
    + unfold bind at 1, deref.
      destruct (get_le16 value); [|discriminate].
      rewrite bind_emit. unfold bind, load, emit. cbn [heap append_trace].
      destruct (heap st !! user_data); [|discriminate].
      intros [= <-].
      eapply same_refs_intro;
        [reflexivity | left; reflexivity
        | cbn [trace]; rewrite <- app_assoc; reflexivity
        | repeat constructor].
    + unfold emit. intros [= <-]. eapply same_refs_intro;
        [reflexivity | left; reflexivity | reflexivity | repeat constructor].
  - unfold emit. intros [= <-]. eapply same_refs_intro;
      [reflexivity | left; reflexivity | reflexivity | repeat constructor].
Qed.

(** Every entry of the plugin keeps the references balanced. *)
Lemma step_references (st st' : state) :
  step st st' ->
  devices_live st -> at_most_one_handler st ->
  references_balanced st -> references_balanced st'.
Proof.
  intros Hstep Hlive [Hnd Huniq] Hb.
  destruct Hstep as
    [e service r st' H | e service st' H | e service r st' H
    | e attr ud st' H | attr ud st' H
    | success ecode value len ud st' H | success ecode value len ud st' H].
  - (* probe *)
    destruct (g_slist_find_custom_total (devices st)
                (btd_service_get_device e service) st Hlive) as [l Hfind].
    destruct l as [p|].
    + rewrite (gap_driver_probe_found e service st p Hfind) in H.
      injection H as <- <-.
      eapply references_balanced_same_refs; [|exact Hb].
      apply same_refs_append. repeat constructor.
    + rewrite (gap_driver_probe_not_found e service st Hfind) in H.
      destruct (g_new0 e =? NULL) eqn:Hnull.
      { injection H as <- <-.
        eapply references_balanced_same_refs; [|exact Hb].
        apply same_refs_append. repeat constructor. }
      destruct (heap st !! g_new0 e) eqn:Hfresh; [discriminate|].
      injection H as <- <-.
      assert (g_new0 e ∉ devices st) as Hnotin.
      { intros Hin. destruct (Hlive _ Hin) as [g Hg]. congruence. }
      intros d. destruct (Hb d) as [Hdev Hrest]. unfold balanced in *.
      cbn [trace].
      rewrite !(holders_probe _ st (g_new0 e) _ _ d Hnotin).
      cbn [gas_device gas_db gas_client].
      rewrite !count_calls_app.
      split; [|intros Hd; destruct (Hrest Hd) as [Hdb Hcl]].
      * unfold count_calls at 2 4.
        cbn [List.filter is_device_ref is_device_unref length].
        destruct (btd_service_get_device e service =? d);
          cbn [length Nat.b2n]; lia.
      * assert ((NULL =? d) = false) as ->
          by (apply N.eqb_neq; congruence).
        split; unfold count_calls at 2 4;
          cbn [List.filter is_db_ref is_db_unref is_client_ref
               is_client_unref length Nat.b2n]; lia.
  - (* remove *)
    destruct (g_slist_find_custom_total (devices st)
                (btd_service_get_device e service) st Hlive) as [l Hfind].
    destruct l as [p|].
    + destruct (g_slist_find_custom_spec _ _ _ _ _ Hfind) as [_ [Hin (g & Hg & _)]].
      rewrite (gap_driver_remove_found e service st p g Hfind Hg) in H.
      injection H as <-.
      intros d. destruct (Hb d) as [Hdev Hrest]. unfold balanced in *.
      cbn [trace].
      pose proof (fun f => holders_remove f st p g
        (trace st ++
           [ev_DBG (GAP_profile_remove
              (device_get_address e (btd_service_get_device e service)));
            ev_gatt_db_unregister (gas_db g) (gas_db_id g);
            ev_gatt_db_unref (gas_db g);
            ev_bt_gatt_client_unref (gas_client g);
            ev_btd_device_unref (gas_device g)]) d Hnd Hin Hg) as Hrem.
      pose proof (Hrem gas_device) as H1.
      pose proof (Hrem gas_db) as H2.
      pose proof (Hrem gas_client) as H3.
      rewrite !count_calls_app.
      split; [|intros Hd; destruct (Hrest Hd) as [Hdb Hcl]; split].
      * unfold count_calls at 2 4.
        cbn [List.filter is_device_ref is_device_unref length].
        destruct (gas_device g =? d); cbn [length Nat.b2n] in *; lia.
      * unfold count_calls at 2 4.
        cbn [List.filter is_db_ref is_db_unref length].
        destruct (gas_db g =? d); cbn [length Nat.b2n] in *; lia.
      * unfold count_calls at 2 4.
        cbn [List.filter is_client_ref is_client_unref length].
        destruct (gas_client g =? d); cbn [length Nat.b2n] in *; lia.
    + rewrite (gap_driver_remove_not_found e service st Hfind) in H.
      injection H as <-.
      eapply references_balanced_same_refs; [|exact Hb].
      apply same_refs_append. repeat constructor.
  - (* accept *)
    destruct (g_slist_find_custom_total (devices st)
                (btd_service_get_device e service) st Hlive) as [l Hfind].
    destruct l as [p|].
    + destruct (g_slist_find_custom_spec _ _ _ _ _ Hfind) as [_ [Hin (g & Hg & _)]].
      destruct (gap_driver_accept_found_calls e service p st g Hfind Hg)
        as (tr & attr' & Hacc & Hq).
      rewrite Hacc in H. apply Some_inj in H.
      apply (f_equal snd) in H. cbn [snd] in H. subst st'.
      intros d. destruct (Hb d) as [Hdev Hrest]. unfold balanced in *.
      set (g' := mk_gas _ _ _ _ _).
      pose proof (fun f => holders_poke f st p g g'
                    (accept_calls e service g p ++ tr) d Hnd Hin Hg) as Hpoke.
      pose proof (Hpoke gas_device) as H1.
      pose proof (Hpoke gas_db) as H2.
      pose proof (Hpoke gas_client) as H3.
      cbn [gas_device gas_db gas_client g'] in H1, H2, H3.
      change (trace (append_trace (poke st p g')
                       (accept_calls e service g p ++ tr)))
        with (trace st ++ accept_calls e service g p ++ tr).
      rewrite !count_calls_app.
      assert (forall P, (forall c, P c = true -> is_refcount_call c = true) ->
                count_calls P tr = 0%nat) as Hz
        by (intros P HP; apply count_calls_quiet; assumption).
      split; [|intros Hd; destruct (Hrest Hd) as [Hdb Hcl]; split].
      * rewrite !Hz by (intros c; destruct c; cbn; congruence).
        unfold count_calls at 2 4.
        cbn [List.filter is_device_ref is_device_unref length accept_calls].
        destruct (gas_device g =? d); cbn [length Nat.b2n] in *; lia.
      * rewrite !Hz by (intros c; destruct c; cbn; congruence).
        unfold count_calls at 2 4.
        cbn [List.filter is_db_ref is_db_unref length accept_calls].
        destruct (gas_db g =? d),
          (btd_device_get_gatt_db e (btd_service_get_device e service) =? d);
          cbn [length Nat.b2n] in *; lia.
      * rewrite !Hz by (intros c; destruct c; cbn; congruence).
        unfold count_calls at 2 4.
        cbn [List.filter is_client_ref is_client_unref length accept_calls].
        destruct (gas_client g =? d),
          (btd_device_get_gatt_client e (btd_service_get_device e service) =? d);
          cbn [length Nat.b2n] in *; lia.
    + rewrite (gap_driver_accept_not_found e service st Hfind) in H.
      injection H as <- <-.
      eapply references_balanced_same_refs; [|exact Hb].
      apply same_refs_append. repeat constructor.
  - eapply references_balanced_same_refs; [|exact Hb].
    eapply service_added_same_refs, H.
  - eapply references_balanced_same_refs; [|exact Hb].
    eapply service_removed_same_refs, H.
  - eapply references_balanced_same_refs; [|exact Hb].
    eapply read_device_name_cb_same_refs, H.
  - eapply references_balanced_same_refs; [|exact Hb].
    eapply read_appearance_cb_same_refs, H.
Qed.

(** X19: in every state the plugin can reach the references balance: for each
    device, the references taken by probe are those released by remove plus
    one per listed handler of the device; for each database and each client
    other than NULL, the references taken by accept are those released by
    accept and remove plus one per listed handler that holds it. *)
Theorem references_balance (st : state) :
  reachable st -> references_balanced st.
Proof.
  induction 1 as [|st st' Hreach IH Hstep].
  - intros d. unfold balanced, holders, count_calls. cbn.
    split; [reflexivity | intros _; split; reflexivity].
  - destruct (reachable_invariant st Hreach) as [Hlive Hone].
    eapply step_references; eassumption.
Qed.

End References.

(** ** The list [devices] and the live objects *)

Section Listed.
Import LibC GLib.
Context {hdr : Headers}.

(** What one entry does to the handlers: nothing that touches a reference,
    or a new handler at the end of the list, or a handler freed and
    unlisted, or the fields of one listed handler rewritten. *)
Lemma step_cases (st st' : state) :
  step st st' -> devices_live st ->
  same_refs st st' \/
  (exists p g tr, p <> NULL /\ heap st !! p = None /\
     st' = mk_state (<[p := g]> (heap st)) (devices st ++ [p]) tr) \/
  (exists p g tr, p ∈ devices st /\ heap st !! p = Some g /\
     st' = mk_state (delete p (heap st)) (g_slist_remove (devices st) p) tr) \/
  (exists p g g' tr, p ∈ devices st /\ heap st !! p = Some g /\
     st' = append_trace (poke st p g') tr).
Proof.
  intros Hstep Hlive.
  destruct Hstep as
    [e service r st' H | e service st' H | e service r st' H
    | e attr ud st' H | attr ud st' H
    | success ecode value len ud st' H | success ecode value len ud st' H].
  - destruct (g_slist_find_custom_total (devices st)
                (btd_service_get_device e service) st Hlive) as [l Hfind].
    destruct l as [p|].
    + rewrite (gap_driver_probe_found e service st p Hfind) in H.
      injection H as <- <-. left. apply same_refs_append. repeat constructor.
    + rewrite (gap_driver_probe_not_found e service st Hfind) in H.
      destruct (g_new0 e =? NULL) eqn:Hnull.
      { injection H as <- <-. left. apply same_refs_append. repeat constructor. }
      destruct (heap st !! g_new0 e) eqn:Hfresh; [discriminate|].
      injection H as <- <-. right. left.
      eexists. eexists. eexists.
      split; [apply N.eqb_neq, Hnull|]. split; [exact Hfresh | reflexivity].
  - destruct (g_slist_find_custom_total (devices st)
                (btd_service_get_device e service) st Hlive) as [l Hfind].
    destruct l as [p|].
    + destruct (g_slist_find_custom_spec _ _ _ _ _ Hfind) as [_ [Hin (g & Hg & _)]].
      rewrite (gap_driver_remove_found e service st p g Hfind Hg) in H.
      injection H as <-. right. right. left.
      exists p, g. eexists. split; [exact Hin|]. split; [exact Hg | reflexivity].
    + rewrite (gap_driver_remove_not_found e service st Hfind) in H.
      injection H as <-. left. apply same_refs_append. repeat constructor.
  - destruct (g_slist_find_custom_total (devices st)
                (btd_service_get_device e service) st Hlive) as [l Hfind].
    destruct l as [p|].
    + destruct (g_slist_find_custom_spec _ _ _ _ _ Hfind) as [_ [Hin (g & Hg & _)]].
      destruct (gap_driver_accept_found e service st p g Hfind Hg) as [tr Hacc].
      rewrite Hacc in H. apply Some_inj in H.
      apply (f_equal snd) in H. cbn [snd] in H. subst st'.
      right. right. right.
      exists p, g. eexists. eexists.
      split; [exact Hin|]. split; [exact Hg | reflexivity].
    + rewrite (gap_driver_accept_not_found e service st Hfind) in H.
      injection H as <- <-. left. apply same_refs_append. repeat constructor.
  - left. eapply service_added_same_refs, H.
  - left. eapply service_removed_same_refs, H.
  - left. eapply read_device_name_cb_same_refs, H.
  - left. eapply read_appearance_cb_same_refs, H.
Qed.

(** X5: in every state the plugin can reach, the lookup for a device runs
    without changing anything and answers with the one handler of the
    device, or with nothing exactly when the device has no handler. *)
Theorem devices_lookup (st : state) (device : ptr) :
  reachable st ->
  exists r,
    g_slist_find_custom (devices st) device st = Some (r, st) /\
    match r with
    | Some p => handler_of st device p /\
                forall q, handler_of st device q -> q = p
    | None => forall q, ~ handler_of st device q
    end.
Proof.
  intros Hreach. destruct (reachable_invariant st Hreach) as [Hlive [_ Huniq]].
  destruct (g_slist_find_custom_total (devices st) device st Hlive) as [r Hr].
  exists r. split; [exact Hr|].
  destruct (g_slist_find_custom_spec _ _ _ _ _ Hr) as [_ Hspec].
  destruct r as [p|].
  - split; [exact Hspec|]. intros q Hq. eapply Huniq; [exact Hq | exact Hspec].
  - intros q [Hq (g & Hg & Hd)]. eapply Hspec; eassumption.
Qed.

(** X20: in every state the plugin can reach, the [struct gas] objects that
    are allocated are exactly the listed ones, so none is leaked and none is
    listed after it was freed; and NULL is never listed. *)
Theorem handlers_are_listed (st : state) :
  reachable st ->
  (forall p, p ∈ devices st <-> is_Some (heap st !! p)) /\
  (NULL ∉ devices st).
Proof.
  intros Hreach.
  assert ((forall p, is_Some (heap st !! p) -> p ∈ devices st) /\
          (NULL ∉ devices st)) as [Hlisted Hnull].
  { induction Hreach as [|st st' Hreach [IH1 IH2] Hstep].
    - split; [|apply not_elem_of_nil].
      intros p [g Hg]. cbn in Hg. rewrite lookup_empty in Hg. discriminate.
    - destruct (reachable_invariant st Hreach) as [Hlive _].
      destruct (step_cases st st' Hstep Hlive)
        as [(Hd & Hh & _)
           | [(p & g & tr & Hp & Hfresh & ->)
             | [(p & g & tr & Hin & Hg & ->)
               | (p & g & g' & tr & Hin & Hg & ->)]]].
      + rewrite Hd. split; [|exact IH2].
        intros q [g Hg]. apply IH1. specialize (Hh q). rewrite Hg in Hh.
        destruct (heap st !! q); [eexists; reflexivity | discriminate].
      + cbn [heap devices]. split.
        * intros q Hq. apply elem_of_app.
          destruct (decide (q = p)) as [-> | Hne];
            [right; apply list_elem_of_here|].
          left. apply IH1. rewrite lookup_insert_ne in Hq by congruence. exact Hq.
        * intros Hn. apply elem_of_app in Hn as [Hn | Hn]; [contradiction|].
          apply list_elem_of_singleton in Hn. congruence.
      + cbn [heap devices]. split.
        * intros q [g0 Hq]. apply lookup_delete_Some in Hq as [Hne Hq].
          apply g_slist_remove_other; [congruence|].
          apply IH1. eexists. exact Hq.
        * intros Hn. apply IH2. eapply g_slist_remove_elem, Hn.
      + cbn [heap devices append_trace poke]. split; [|exact IH2].
        intros q Hq. destruct (decide (q = p)) as [-> | Hne]; [exact Hin|].
        apply IH1. rewrite lookup_insert_ne in Hq by congruence. exact Hq. }
  split; [|exact Hnull].
  intros p. split; [|apply Hlisted].
  destruct (reachable_invariant st Hreach) as [Hlive _]. apply Hlive.
Qed.

End Listed.

(** ** The statements at the concrete configuration *)

Section Instances.
Import LibC GLib Sample.
#[local] Existing Instance Sample.headers.

Lemma probed_reachable : reachable probed.
Proof.
  eapply reachable_step; [apply reachable_init|].
  eapply (step_probe _ (world true) 1 0%Z). vm_compute. reflexivity.
Defined.

Lemma accepted_reachable : reachable accepted.
Proof.
  eapply reachable_step; [apply probed_reachable|].
  eapply (step_accept _ (world true) 1 0%Z). vm_compute. reflexivity.
Defined.

Lemma probed_handler : handler_of probed 0x10 0x1000.
Proof.
  split; [apply list_elem_of_here|].
  exists fresh_gas. split; reflexivity.
Defined.

Lemma gap_driver_probe_twice_witness :
  at_most_one_handler probed /\
  exists st',
    gap_driver_probe (world true) 1 probed = Some ((-1)%Z, st') /\
    heap st' = heap probed /\
    devices st' = devices probed /\
    trace st' =
      trace probed ++
        [ev_DBG (GAP_profile_probe 0xa0b0c0); ev_error Profile_probed_twice] /\
    at_most_one_handler st'.
Proof.
  exact (gap_driver_probe_twice probed (world true) 1 0x1000
           probed_reachable probed_handler).
Defined.

Lemma read_device_name_cb_invalid_utf8_witness :
  let name := strip (map ascii_or_space (fallback_bytes [xff; x41; x42; xff] 4)) in
  name2utf8 [xff; x41; x42; xff] 4 = name /\
  read_device_name_cb true 0 [xff; x41; x42; xff] 4 0x1000 probed =
    Some (tt, append_trace probed
                [ev_DBG (GAP_Device_Name name);
                 ev_btd_device_device_set_name (gas_device fresh_gas) name]) /\
  (forall c, ascii_or_space c = if u8 c <? 128 then c else x20) /\
  (2 <= HCI_MAX_NAME_LENGTH ->
   g_utf8_validate [xff; x41; x42; xff] 4 = false /\
   name2utf8 [xff; x41; x42; xff] 4 = [x41; x42]).
Proof.
  apply (read_device_name_cb_invalid_utf8 0 [xff; x41; x42; xff] 4 0x1000
           probed fresh_gas).
  - reflexivity.
  - lia.
  - reflexivity.
Defined.

Lemma read_device_name_cb_valid_utf8_witness :
  g_utf8_validate [x50; x69; x78; xc3; xa9; x6c] 6 = true /\
  name2utf8 [x50; x69; x78; xc3; xa9; x6c] 6 =
    take 6 [x50; x69; x78; xc3; xa9; x6c] /\
  length (name2utf8 [x50; x69; x78; xc3; xa9; x6c] 6) = 6%nat /\
  read_device_name_cb true 0 [x50; x69; x78; xc3; xa9; x6c] 6 0x1000 probed =
    Some (tt, append_trace probed
                [ev_DBG (GAP_Device_Name (take 6 [x50; x69; x78; xc3; xa9; x6c]));
                 ev_btd_device_device_set_name (gas_device fresh_gas)
                   (take 6 [x50; x69; x78; xc3; xa9; x6c])]).
Proof.
  apply (read_device_name_cb_valid_utf8 0 [x50; x69; x78; xc3; xa9; x6c] 6
           0x1000 probed fresh_gas).
  - reflexivity.
  - lia.
  - simpl. lia.
  - reflexivity.
  - repeat constructor.
Defined.

(** A payload that is valid UTF-8 and holds a zero byte is not used as it
    is: U+0000 is a character of valid UTF-8, but [g_utf8_validate] with a
    length rejects it, and the fall-back path ends the name before it. The
    three bytes 41 00 42 give the name A, and C3 A9 41 00 (the two-byte
    character U+00E9, then A, then U+0000) gives A as well, the two bytes of
    U+00E9 replaced by spaces and stripped. *)
Lemma name2utf8_valid_spec_counterexample :
  valid_utf8_spec [x41; x00; x42] = true /\
  name2utf8_valid_spec [x41; x00; x42] 3 = [x41; x00; x42] /\
  g_utf8_validate [x41; x00; x42] 3 = false /\
  read_device_name_cb true 0 [x41; x00; x42] 3 0x1000 probed =
    Some (tt, append_trace probed
                [ev_DBG (GAP_Device_Name [x41]);
                 ev_btd_device_device_set_name 0x10 [x41]]) /\
  name2utf8 [x41; x00; x42] 3 <> name2utf8_valid_spec [x41; x00; x42] 3 /\
  valid_utf8_spec [xc3; xa9; x41; x00] = true /\
  name2utf8 [xc3; xa9; x41; x00] 4 = [x41] /\
  name2utf8 [xc3; xa9; x41; x00] 4 <>
    name2utf8_valid_spec [xc3; xa9; x41; x00] 4.
Proof.
  split; [reflexivity|]. split; [reflexivity|]. split; [reflexivity|].
  split; [vm_compute; reflexivity|]. split; [vm_compute; discriminate|].
  split; [reflexivity|]. split; [vm_compute; reflexivity|].
  vm_compute. discriminate.
Qed.

Lemma read_appearance_cb_success_witness :
  exists new,
    read_appearance_cb true 0 [x40; x03] 2 0x1000 probed
      = Some (tt, append_trace probed new) /\
    (Exists (fun c => is_registry_call c = true) new <-> 2 = 2) /\
    (2 = 2 ->
     exists b0 b1 rest, [x40; x03] = b0 :: b1 :: rest /\
       u8 b0 + 256 * u8 b1 < 65536 /\
       new = [ev_DBG (GAP_Appearance (u8 b0 + 256 * u8 b1));
              ev_device_set_appearance (gas_device fresh_gas)
                (u8 b0 + 256 * u8 b1)]) /\
    (2 <> 2 -> new = [ev_DBG Malformed_appearance_value]) /\
    get_le16 [x40; x03] = Some 0x0340.
Proof.
  apply (read_appearance_cb_success 0 [x40; x03] 2 0x1000 probed fresh_gas).
  - reflexivity.
  - simpl. lia.
Defined.

Lemma read_device_name_cb_nothing_to_set_witness :
  exists new,
    read_device_name_cb true 0 [] 0 0x1000 probed
      = Some (tt, append_trace probed new) /\
    new = [] /\
    Forall (fun c => is_registry_call c = false) new /\
    heap (append_trace probed new) = heap probed /\
    devices (append_trace probed new) = devices probed.
Proof.
  apply (read_device_name_cb_nothing_to_set true 0 [] 0 0x1000 probed).
  right. reflexivity.
Defined.

Lemma read_device_name_cb_empty_name_witness :
  g_utf8_validate (replicate 3 xff) 3 = false /\
  name2utf8 (replicate 3 xff) 3 = [] /\
  read_device_name_cb true 0 (replicate 3 xff) 3 0x1000 probed =
    Some (tt, append_trace probed
                [ev_DBG (GAP_Device_Name []);
                 ev_btd_device_device_set_name (gas_device fresh_gas) []]).
Proof.
  apply (read_device_name_cb_empty_name 3 0 0x1000 probed fresh_gas).
  - reflexivity.
  - lia.
Defined.

Lemma read_device_name_cb_embedded_nul_witness :
  let name :=
    strip (map ascii_or_space
             (take (N.to_nat (sizeof_utf8_name - 1)) [xff; x41])) in
  g_utf8_validate ([xff; x41] ++ x00 :: [x42; x43]) 5 = false /\
  name2utf8 ([xff; x41] ++ x00 :: [x42; x43]) 5 = name /\
  (forall rest', name2utf8 ([xff; x41] ++ x00 :: rest') 5 = name) /\
  read_device_name_cb true 0 ([xff; x41] ++ x00 :: [x42; x43]) 5 0x1000 probed =
    Some (tt, append_trace probed
                [ev_DBG (GAP_Device_Name name);
                 ev_btd_device_device_set_name (gas_device fresh_gas) name]).
Proof.
  apply (read_device_name_cb_embedded_nul 0 [xff; x41] [x42; x43] 5 0x1000
           probed fresh_gas).
  - reflexivity.
  - repeat constructor.
  - simpl. lia.
Defined.

Lemma service_removed_clears_stored_node_witness :
  exists st' g',
    service_removed 0x40 0x1000 accepted = Some (tt, st') /\
    heap st' = <[0x1000 := g']> (heap accepted) /\
    devices st' = devices accepted /\
    gas_attr g' = (if gas_attr bound_gas =? 0x40 then NULL else gas_attr bound_gas) /\
    gas_device g' = gas_device bound_gas /\
    gas_db g' = gas_db bound_gas /\
    gas_db_id g' = gas_db_id bound_gas /\
    gas_client g' = gas_client bound_gas /\
    trace st' =
      trace accepted ++ (if gas_attr bound_gas =? 0x40
                      then [ev_DBG GAP_service_removed] else []) /\
    (gas_attr bound_gas <> 0x40 -> st' = accepted).
Proof.
  apply (service_removed_clears_stored_node 0x40 0x1000 accepted bound_gas).
  reflexivity.
Defined.

Lemma service_added_guards_witness :
  let ready := bt_gatt_client_is_ready (world true) (gas_client fresh_gas) in
  let is_gap :=
    (bt_uuid_cmp (gatt_db_attribute_get_service_uuid (world true) 0x40)
                 (bt_uuid16_create 0x1800) =? 0)%Z in
  let unbound := gas_attr fresh_gas =? NULL in
  exists st' new,
    service_added (world true) 0x40 0x1000 probed = Some (tt, st') /\
    trace st' = trace probed ++ new /\
    devices st' = devices probed /\
    (ready && is_gap && unbound = false ->
       heap st' = heap probed /\
       Forall (fun c => is_read_request c = false) new) /\
    (unbound = false ->
       heap st' = heap probed /\
       new = if ready && is_gap
             then [ev_error More_than_one_GAP_service_added] else []) /\
    (ready && is_gap && unbound = true ->
       heap st' = <[0x1000 := with_attr fresh_gas 0x40]> (heap probed)).
Proof.
  apply (service_added_guards (world true) 0x40 0x1000 probed fresh_gas).
  reflexivity.
Defined.

Lemma gap_driver_accept_rebinds_witness :
  let device := btd_service_get_device (world true) 1 in
  let db := btd_device_get_gatt_db (world true) device in
  let client := btd_device_get_gatt_client (world true) device in
  let found := gatt_db_foreach_service (world true) db (bt_uuid16_create 0x1800) in
  exists st' scan_calls,
    gap_driver_accept (world true) 1 probed = Some (0%Z, st') /\
    heap st' =
      <[0x1000 := mk_gas (gas_device fresh_gas) db
                         (gatt_db_register (world true) db 0x1000) client
                         (first_bound found)]> (heap probed) /\
    devices st' = devices probed /\
    trace st' =
      trace probed ++ accept_calls (world true) 1 fresh_gas 0x1000 ++ scan_calls /\
    (found = [] ->
       exists g', heap st' !! 0x1000 = Some g' /\ gas_attr g' = NULL) /\
    (forall old,
       gap_driver_accept (world true) 1 (poke probed 0x1000 (with_attr fresh_gas old))
       = Some (0%Z, st')).
Proof.
  apply (gap_driver_accept_rebinds (world true) 1 0x1000 probed fresh_gas
           probed_reachable probed_handler).
  reflexivity.
Defined.

(** The fall-back path as the specification words it differs from the
    code on a control byte: 0x07 is ASCII and stays, where the
    specification has a space. *)
Lemma name2utf8_fallback_spec_counterexample :
  g_utf8_validate [x41; x07; x42; xff] 4 = false /\
  read_device_name_cb true 0 [x41; x07; x42; xff] 4 0x1000 probed =
    Some (tt, append_trace probed
                [ev_DBG (GAP_Device_Name [x41; x07; x42]);
                 ev_btd_device_device_set_name 0x10 [x41; x07; x42]]) /\
  name2utf8_fallback_spec [x41; x07; x42; xff] 4 = [x41; x20; x42] /\
  name2utf8 [x41; x07; x42; xff] 4 <> name2utf8_fallback_spec [x41; x07; x42; xff] 4.
Proof.
  split; [reflexivity|]. split; [vm_compute; reflexivity|].
  split; [vm_compute; reflexivity|].
  vm_compute. discriminate.
Qed.

(** After the accept the handler is bound. A notification for a service
    whose UUID is not the GAP one, with the client ready, returns without a
    log line; so does a notification for a second GAP service that arrives
    while the client is not ready. In both cases the state, trace included, is
    the one before. *)
Lemma service_added_bound_not_logged :
  gap_driver_accept (world true) 1 probed = Some (0%Z, accepted) /\
  heap accepted !! 0x1000 = Some bound_gas /\
  gas_attr bound_gas <> NULL /\
  service_added (world true) 0x50 0x1000 accepted = Some (tt, accepted) /\
  service_added (world false) 0x40 0x1000 accepted = Some (tt, accepted) /\
  trace accepted <>
    trace accepted ++ [ev_error More_than_one_GAP_service_added].
Proof.
  split; [vm_compute; reflexivity|].
  split; [reflexivity|]. split; [discriminate|].
  split; [vm_compute; reflexivity|].
  split; [vm_compute; reflexivity|].
  intros Heq. apply (f_equal length) in Heq. simpl in Heq. lia.
Qed.

Lemma init_no_handler (device q : ptr) : ~ handler_of gap_init device q.
Proof. intros [Hq _]. inversion Hq. Defined.

Lemma accepted_handler : handler_of accepted 0x10 0x1000.
Proof.
  split; [apply list_elem_of_here|].
  exists bound_gas. split; reflexivity.
Defined.

Lemma name2utf8_fallback_shape_witness :
  Forall (fun c => 0 < u8 c < 128) (name2utf8 [x20; xff; x41; x09] 4) /\
  (forall c rest, name2utf8 [x20; xff; x41; x09] 4 = c :: rest ->
                  g_ascii_isspace c = false) /\
  (forall pre c, name2utf8 [x20; xff; x41; x09] 4 = pre ++ [c] ->
                 g_ascii_isspace c = false).
Proof.
  apply (name2utf8_fallback_shape [x20; xff; x41; x09] 4). reflexivity.
Defined.

Lemma gap_driver_accept_without_handler_witness :
  gap_driver_accept (world true) 1 gap_init =
  Some ((-1)%Z,
        append_trace gap_init
          [ev_DBG (GAP_profile_accept
                     (device_get_address (world true)
                        (btd_service_get_device (world true) 1)));
           ev_error GAP_service_not_handled]).
Proof.
  apply (gap_driver_accept_without_handler (world true) 1 gap_init).
  - apply reachable_init.
  - intros q. apply init_no_handler.
Defined.

Lemma gap_driver_remove_without_handler_witness :
  gap_driver_remove (world true) 1 gap_init =
  Some (tt,
        append_trace gap_init
          [ev_DBG (GAP_profile_remove
                     (device_get_address (world true)
                        (btd_service_get_device (world true) 1)));
           ev_error GAP_service_not_handled]).
Proof.
  apply (gap_driver_remove_without_handler (world true) 1 gap_init).
  - apply reachable_init.
  - intros q. apply init_no_handler.
Defined.

Lemma gap_driver_remove_releases_witness :
  exists st',
    gap_driver_remove (world true) 1 accepted = Some (tt, st') /\
    trace st' =
      trace accepted ++
        [ev_DBG (GAP_profile_remove
                   (device_get_address (world true)
                      (btd_service_get_device (world true) 1)));
         ev_gatt_db_unregister (gas_db bound_gas) (gas_db_id bound_gas);
         ev_gatt_db_unref (gas_db bound_gas);
         ev_bt_gatt_client_unref (gas_client bound_gas);
         ev_btd_device_unref (gas_device bound_gas)] /\
    heap st' !! 0x1000 = None /\
    (0x1000 ∉ devices st') /\
    (forall q, ~ handler_of st' (btd_service_get_device (world true) 1) q) /\
    (forall device q, q <> 0x1000 ->
       (handler_of st' device q <-> handler_of accepted device q) /\
       heap st' !! q = heap accepted !! q).
Proof.
  apply (gap_driver_remove_releases (world true) 1 0x1000 accepted bound_gas).
  - apply accepted_reachable.
  - apply accepted_handler.
  - reflexivity.
Defined.

Lemma gap_driver_probe_remove_round_trip_witness :
  let device := btd_service_get_device (world true) 1 in
  exists st1 st2,
    gap_driver_probe (world true) 1 gap_init = Some (0%Z, st1) /\
    gap_driver_remove (world false) 2 st1 = Some (tt, st2) /\
    heap st2 = heap gap_init /\
    devices st2 = devices gap_init /\
    trace st2 =
      trace gap_init ++
        [ev_DBG (GAP_profile_probe (device_get_address (world true) device));
         ev_btd_device_ref device;
         ev_DBG (GAP_profile_remove (device_get_address (world false) device));
         ev_gatt_db_unregister NULL 0;
         ev_gatt_db_unref NULL;
         ev_bt_gatt_client_unref NULL;
         ev_btd_device_unref device].
Proof.
  apply (gap_driver_probe_remove_round_trip (world true) (world false) 1 2
           gap_init).
  - apply reachable_init.
  - intros q. apply init_no_handler.
  - vm_compute. discriminate.
  - reflexivity.
  - reflexivity.
Defined.

Lemma gap_driver_probe_then_accept_witness :
  let device := btd_service_get_device (world true) 1 in
  exists st1 st2,
    gap_driver_probe (world true) 1 gap_init = Some (0%Z, st1) /\
    handler_of st1 device (g_new0 (world true)) /\
    heap st1 !! g_new0 (world true) = Some (mk_gas device NULL 0 NULL NULL) /\
    (forall q, q <> g_new0 (world true) -> heap st1 !! q = heap gap_init !! q) /\
    gap_driver_accept (world true) 2 st1 = Some (0%Z, st2).
Proof.
  apply (gap_driver_probe_then_accept (world true) (world true) 1 2 gap_init).
  - apply reachable_init.
  - intros q. apply init_no_handler.
  - vm_compute. discriminate.
  - reflexivity.
  - reflexivity.
Defined.

Lemma gap_driver_probe_without_memory_witness :
  let device := btd_service_get_device world_without_memory 1 in
  exists st1 st2,
    gap_driver_probe world_without_memory 1 gap_init = Some ((-1)%Z, st1) /\
    st1 = append_trace gap_init
            [ev_DBG (GAP_profile_probe
                       (device_get_address world_without_memory device))] /\
    gap_driver_accept (world true) 1 st1 = Some ((-1)%Z, st2).
Proof.
  apply (gap_driver_probe_without_memory world_without_memory (world true) 1 1
           gap_init).
  - apply reachable_init.
  - intros q. apply init_no_handler.
  - reflexivity.
  - reflexivity.
Defined.

Lemma gap_driver_accept_first_service_witness :
  let e := world_with_two_services in
  let device := btd_service_get_device e 1 in
  let db := btd_device_get_gatt_db e device in
  let client := btd_device_get_gatt_client e device in
  let bound := mk_gas (gas_device fresh_gas) db (gatt_db_register e db 0x1000)
                      client 0x40 in
  exists reads,
    gap_driver_accept e 1 probed =
      Some (0%Z,
            append_trace (poke probed 0x1000 bound)
              (accept_calls e 1 fresh_gas 0x1000 ++ reads ++
               replicate (length [0x50])
                         (ev_error More_than_one_GAP_service_exists))) /\
    Forall (fun c => issued_for bound 0x1000 c = true) reads /\
    count_calls is_read_request reads =
      length (List.filter (char_read e) (gatt_db_service_foreach_char e 0x40)).
Proof.
  apply (gap_driver_accept_first_service world_with_two_services 1 0x1000 0x40
           [0x50] probed fresh_gas probed_reachable probed_handler).
  - reflexivity.
  - reflexivity.
  - vm_compute. discriminate.
Defined.

Lemma service_added_requests_witness :
  exists reads,
    service_added (world true) 0x40 0x1000 probed =
      Some (tt, append_trace (poke probed 0x1000 (with_attr fresh_gas 0x40))
                  (ev_DBG GAP_service_added :: reads)) /\
    Forall (fun c => issued_for fresh_gas 0x1000 c = true) reads /\
    List.filter is_read_request reads =
      omap (read_request_for (world true) fresh_gas 0x1000)
           (gatt_db_service_foreach_char (world true) 0x40) /\
    Forall (fun c => is_log c = true)
           (List.filter (fun c => negb (is_read_request c)) reads) /\
    count_calls is_read_request reads =
      length (List.filter (char_read (world true))
                (gatt_db_service_foreach_char (world true) 0x40)).
Proof.
  apply (service_added_requests (world true) 0x40 0x1000 probed fresh_gas).
  - reflexivity.
  - reflexivity.
  - reflexivity.
  - reflexivity.
Defined.

Lemma service_added_then_removed_witness :
  exists st1 st2,
    service_added (world true) 0x40 0x1000 probed = Some (tt, st1) /\
    service_removed 0x40 0x1000 st1 = Some (tt, st2) /\
    heap st2 = heap probed /\
    devices st2 = devices probed.
Proof.
  apply (service_added_then_removed (world true) 0x40 0x1000 probed fresh_gas).
  - reflexivity.
  - reflexivity.
Defined.

Lemma gap_driver_accept_reconnect_witness :
  let e1 := world true in
  let e2 := world_with_two_services in
  let device := btd_service_get_device e1 1 in
  let db1 := btd_device_get_gatt_db e1 device in
  let client1 := btd_device_get_gatt_client e1 device in
  let db2 := btd_device_get_gatt_db e2 device in
  let client2 := btd_device_get_gatt_client e2 device in
  exists st1 st2 scan2,
    gap_driver_accept e1 1 probed = Some (0%Z, st1) /\
    gap_driver_accept e2 1 st1 = Some (0%Z, st2) /\
    trace st2 =
      trace st1 ++
        [ev_DBG (GAP_profile_accept (device_get_address e2 device));
         ev_gatt_db_unregister db1 (gatt_db_register e1 db1 0x1000);
         ev_gatt_db_unref db1;
         ev_bt_gatt_client_unref client1;
         ev_gatt_db_ref db2;
         ev_bt_gatt_client_ref client2;
         ev_gatt_db_register db2 0x1000] ++ scan2 /\
    heap st2 =
      <[0x1000 := mk_gas (gas_device fresh_gas) db2
                         (gatt_db_register e2 db2 0x1000) client2
                         (first_bound (gatt_db_foreach_service e2 db2
                                         (bt_uuid16_create 0x1800)))]>
        (heap probed) /\
    devices st2 = devices probed.
Proof.
  apply (gap_driver_accept_reconnect (world true) world_with_two_services 1 1
           0x1000 probed fresh_gas probed_reachable probed_handler).
  - reflexivity.
  - reflexivity.
Defined.

Lemma gap_driver_accept_then_remove_witness :
  let e1 := world true in
  let e2 := world false in
  let device := btd_service_get_device e1 1 in
  let db1 := btd_device_get_gatt_db e1 device in
  let client1 := btd_device_get_gatt_client e1 device in
  exists st1 st2,
    gap_driver_accept e1 1 probed = Some (0%Z, st1) /\
    gap_driver_remove e2 1 st1 = Some (tt, st2) /\
    trace st2 =
      trace st1 ++
        [ev_DBG (GAP_profile_remove (device_get_address e2 device));
         ev_gatt_db_unregister db1 (gatt_db_register e1 db1 0x1000);
         ev_gatt_db_unref db1;
         ev_bt_gatt_client_unref client1;
         ev_btd_device_unref device] /\
    heap st2 = delete 0x1000 (heap probed) /\
    devices st2 = g_slist_remove (devices probed) 0x1000.
Proof.
  apply (gap_driver_accept_then_remove (world true) (world false) 1 1
           0x1000 probed fresh_gas probed_reachable probed_handler).
  - reflexivity.
  - reflexivity.
Defined.

Lemma hooks_defined_witness :
  (exists r st', gap_driver_accept (world true) 1 accepted = Some (r, st') /\
                 reachable st') /\
  (exists st', gap_driver_remove (world true) 1 accepted = Some (tt, st') /\
               reachable st') /\
  (g_new0 (world true) = NULL \/ heap accepted !! g_new0 (world true) = None ->
   exists r st', gap_driver_probe (world true) 1 accepted = Some (r, st') /\
                 reachable st').
Proof.
  apply (hooks_defined (world true) 1 accepted accepted_reachable).
Defined.

Lemma read_completion_after_remove_witness :
  exists st',
    gap_driver_remove (world true) 1 accepted = Some (tt, st') /\
    (forall att_ecode value len,
       read_device_name_cb false att_ecode value len 0x1000 st' =
         Some (tt, append_trace st'
                     [ev_DBG (Reading_device_name_failed att_ecode)]) /\
       read_appearance_cb false att_ecode value len 0x1000 st' =
         Some (tt, append_trace st'
                     [ev_DBG (Reading_appearance_failed att_ecode)])) /\
    (forall att_ecode value,
       read_device_name_cb true att_ecode value 0 0x1000 st' = Some (tt, st')) /\
    (forall att_ecode value len,
       len <> 0 ->
       read_device_name_cb true att_ecode value len 0x1000 st' = None) /\
    (forall att_ecode value,
       read_appearance_cb true att_ecode value 2 0x1000 st' = None).
Proof.
  apply (read_completion_after_remove (world true) 1 0x1000 accepted bound_gas
           accepted_reachable accepted_handler).
  reflexivity.
Defined.

Lemma references_balance_witness : references_balanced accepted.
Proof. exact (references_balance accepted accepted_reachable). Defined.

Lemma devices_lookup_witness :
  exists r,
    g_slist_find_custom (devices accepted) 0x10 accepted = Some (r, accepted) /\
    match r with
    | Some p => handler_of accepted 0x10 p /\
                forall q, handler_of accepted 0x10 q -> q = p
    | None => forall q, ~ handler_of accepted 0x10 q
    end.
Proof. exact (devices_lookup accepted 0x10 accepted_reachable). Defined.

Lemma handlers_are_listed_witness :
  (forall p, p ∈ devices accepted <-> is_Some (heap accepted !! p)) /\
  (NULL ∉ devices accepted).
Proof. exact (handlers_are_listed accepted accepted_reachable). Defined.

Lemma read_device_name_cb_pushes_utf8_witness :
  exists new,
    append_trace probed
      [ev_DBG (GAP_Device_Name [x41; x42]);
       ev_btd_device_device_set_name 0x10 [x41; x42]] = append_trace probed new /\
    (pushed_names new = [] \/
     exists g name,
       pushed_names new = [(gas_device g, name)] /\
       heap probed !! 0x1000 = Some g /\
       true = true /\ 4 <> 0 /\
       nonnul name /\
       g_utf8_validate name (N.of_nat (length name)) = true /\
       (length name <= N.to_nat 4)%nat).
Proof.
  apply (read_device_name_cb_pushes_utf8 true 0 [xff; x41; x42; xff] 4 0x1000
           probed).
  vm_compute. reflexivity.
Defined.

End Instances.
